(** * Analisador de Contracheques (SEAD / AMAZONPREV)

    A shallow embedding of the normalisation, matching and calculation
    functions of [app3.py], and the properties of its specification.

    Layout: the Python values the program manipulates (text, exceptions,
    binary64 numbers, data frames), then the functions of [app3.py] in the
    order of the source, then the properties. *)

From Stdlib Require Import Strings.String Strings.Byte.
From Stdlib Require Import ZArith List Bool Lia.
From Stdlib Require Import SpecFloat PrimFloat FloatOps.
Import ListNotations.
Local Open Scope Z_scope.

(* ================================================================= *)
(** ** Python text *)

(** A Python [str] is a sequence of Unicode code points. *)
Abbreviation char := Z (only parsing).
Abbreviation pystr := (list Z) (only parsing).

(** Literals are written as Rocq strings (UTF-8 bytes) and decoded. *)
Fixpoint utf8_decode (bs : list Z) : pystr :=
  match bs with
  | [] => []
  | b0 :: r0 =>
    if b0 <? 128 then b0 :: utf8_decode r0
    else if b0 <? 224 then
      match r0 with
      | b1 :: r1 => ((b0 - 192) * 64 + (b1 - 128)) :: utf8_decode r1
      | [] => [b0]
      end
    else if b0 <? 240 then
      match r0 with
      | b1 :: b2 :: r2 =>
        ((b0 - 224) * 4096 + (b1 - 128) * 64 + (b2 - 128)) :: utf8_decode r2
      | _ => [b0]
      end
    else
      match r0 with
      | b1 :: b2 :: b3 :: r3 =>
        ((b0 - 240) * 262144 + (b1 - 128) * 4096 + (b2 - 128) * 64 + (b3 - 128))
          :: utf8_decode r3
      | _ => [b0]
      end
  end.

Definition u (s : string) : pystr :=
  utf8_decode (map (fun b => Z.of_N (Byte.to_N b)) (list_byte_of_string s)).

Definition char_eqb (a b : char) : bool := a =? b.

Fixpoint str_eqb (a b : pystr) : bool :=
  match a, b with
  | [], [] => true
  | x :: a', y :: b' => char_eqb x y && str_eqb a' b'
  | _, _ => false
  end.

(** [x in xs] for a list of strings. *)
Definition str_in (x : pystr) (xs : list pystr) : bool :=
  existsb (str_eqb x) xs.

(** [str.isspace] on one code point (CPython's [_PyUnicode_IsWhitespace]). *)
Definition isspace (c : char) : bool :=
  ((9 <=? c) && (c <=? 13)) || ((28 <=? c) && (c <=? 32))
  || (c =? 133) || (c =? 160) || (c =? 5760)
  || ((8192 <=? c) && (c <=? 8202))
  || (c =? 8232) || (c =? 8233) || (c =? 8239) || (c =? 8287) || (c =? 12288).

Fixpoint lstrip (s : pystr) : pystr :=
  match s with
  | c :: s' => if isspace c then lstrip s' else s
  | [] => []
  end.

Definition rstrip (s : pystr) : pystr := rev (lstrip (rev s)).

(** [s.strip()] *)
Definition strip (s : pystr) : pystr := rstrip (lstrip s).

(** [s.split(sep)] for a one-character separator. *)
Fixpoint split (sep : char) (s : pystr) : list pystr :=
  match s with
  | [] => [[]]
  | c :: s' =>
    if char_eqb c sep then [] :: split sep s'
    else match split sep s' with
         | p :: ps => (c :: p) :: ps
         | [] => [[c]]
         end
  end.

(** [s.replace(old, new)] for a one-character [old]. *)
Definition replace (old : char) (new : pystr) (s : pystr) : pystr :=
  flat_map (fun c => if char_eqb c old then new else [c]) s.

Definition NL : char := 10.
Definition COMMA : char := 44.
Definition DOT : char := 46.
Definition LETTER_X : char := 88.

(** ASCII decimal digits. *)
Definition ascii_digit (c : char) : option Z :=
  if (48 <=? c) && (c <=? 57) then Some (c - 48) else None.

Definition digit_char (d : Z) : char := 48 + d.

(** [str(n)] for a non-negative integer, most significant digit first. *)
Fixpoint digits_fuel (fuel : nat) (n : Z) (acc : pystr) : pystr :=
  match fuel with
  | O => acc
  | S fuel' =>
    let acc' := digit_char (n mod 10) :: acc in
    if n <? 10 then acc' else digits_fuel fuel' (n / 10) acc'
  end.

Definition str_of_nonneg (n : Z) : pystr :=
  digits_fuel (S (Z.to_nat (Z.log2 n))) n [].

(** [str(n)] for an [int]. *)
Definition str_of_int (n : Z) : pystr :=
  if n <? 0 then 45 :: str_of_nonneg (- n) else str_of_nonneg n.

(* ================================================================= *)
(** ** Exceptions *)

Inductive exn := KeyError | ValueError | IndexError | TypeError.

Inductive result (A : Type) :=
| Ok (a : A)
| Raise (e : exn).
Arguments Ok {A} a.
Arguments Raise {A} e.

Definition bind {A B} (r : result A) (k : A -> result B) : result B :=
  match r with
  | Ok a => k a
  | Raise e => Raise e
  end.

Notation "x <- r ;; k" := (bind r (fun x => k))
  (at level 61, r at next level, right associativity).

(** [for x in xs: acc = body(acc, x)] where the body may raise. *)
Fixpoint for_each {A S} (body : S -> A -> result S) (xs : list A) (acc : S)
  : result S :=
  match xs with
  | [] => Ok acc
  | x :: xs' => acc' <- body acc x ;; for_each body xs' acc'
  end.

(* ================================================================= *)
(** ** Unicode decimal digits

    [float()] and the regular expression class [\d] accept every code point
    of Unicode category Nd.  The table of the non-ASCII ones belongs to the
    interpreter's Unicode database; the development is parametric in it. *)

Section UnicodeDigits.

Variable nd : char -> option Z.

(** [Py_UNICODE_TODECIMAL] *)
Definition todecimal (c : char) : option Z :=
  if c <? 128 then ascii_digit c else nd c.

(** [\d] *)
Definition is_decimal (c : char) : bool :=
  match todecimal c with Some _ => true | None => false end.

(* --------------------------------------------------------------- *)
(** *** [re.search] for a pattern that is a sequence of character classes *)

Definition pattern := list (char -> bool).

(** Match the pattern at the start of [s]; the match, if any. *)
Fixpoint match_here (p : pattern) (s : pystr) : option pystr :=
  match p with
  | [] => Some []
  | cls :: p' =>
    match s with
    | c :: s' =>
      if cls c then
        match match_here p' s' with
        | Some m => Some (c :: m)
        | None => None
        end
      else None
    | [] => None
    end
  end.

(** Leftmost match. *)
Fixpoint re_search (p : pattern) (s : pystr) : option pystr :=
  match match_here p s with
  | Some m => Some m
  | None =>
    match s with
    | [] => None
    | _ :: s' => re_search p s'
    end
  end.

(** [r"\d{2}/\d{4}"] *)
Definition date_pattern : pattern :=
  [is_decimal; is_decimal; char_eqb 47;
   is_decimal; is_decimal; is_decimal; is_decimal].

(* --------------------------------------------------------------- *)
(** *** [extrair_data_da_pagina]

    The PDF is represented by the text of its pages
    ([reader.pages[i].extract_text() or ""]). *)

Definition ND : pystr := u "N/D".

(** [xs[i]] with Python's negative indexing. *)
Definition py_index {A} (xs : list A) (i : Z) : result A :=
  let n := Z.of_nat (length xs) in
  let j := if i <? 0 then i + n else i in
  if (0 <=? j) && (j <? n) then
    match nth_error xs (Z.to_nat j) with
    | Some x => Ok x
    | None => Raise IndexError
    end
  else Raise IndexError.

Definition extrair_data_da_pagina (pages : list pystr) (page_number : Z)
  : result pystr :=
  if page_number - 1 <? Z.of_nat (length pages) then
    text <- py_index pages (page_number - 1) ;;
    match re_search date_pattern text with
    | Some m => Ok m
    | None => Ok ND
    end
  else Ok ND.

End UnicodeDigits.

(* ================================================================= *)
(** ** Data frames

    A [pandas.DataFrame] whose cells hold text, or the float NaN that pandas
    fills in where a column has no value.  Rows are aligned with [columns]
    by position. *)

Inductive value :=
| VStr (s : pystr)
| VNaN.

Record DataFrame := mkDF {
  columns : list pystr;
  data : list (list value)
}.

(** [str(x)] of a cell. *)
Definition py_str (v : value) : pystr :=
  match v with
  | VStr s => s
  | VNaN => u "nan"
  end.

Definition value_eqb (a b : value) : bool :=
  match a, b with
  | VStr x, VStr y => str_eqb x y
  | _, _ => false
  end.

(** [pd.DataFrame()] *)
Definition empty_frame : DataFrame := mkDF [] [].

(** [df.empty]: one of the two axes has length 0. *)
Definition df_empty (df : DataFrame) : bool :=
  match columns df, data df with
  | _ :: _, _ :: _ => false
  | _, _ => true
  end.

Fixpoint index_of (c : pystr) (cols : list pystr) : option nat :=
  match cols with
  | [] => None
  | c' :: cols' =>
    if str_eqb c c' then Some O
    else match index_of c cols' with
         | Some i => Some (S i)
         | None => None
         end
  end.

(** The cell of [row] under label [c]; NaN when the row has no such column. *)
Definition cell (cols : list pystr) (row : list value) (c : pystr) : value :=
  match index_of c cols with
  | Some i => nth i row VNaN
  | None => VNaN
  end.

(** Re-align a row laid out as [old] to the labels [new]. *)
Definition reindex (old new : list pystr) (row : list value) : list value :=
  map (cell old row) new.

(** [df[c]] *)
Definition getitem (df : DataFrame) (c : pystr) : result (list value) :=
  match index_of c (columns df) with
  | Some i => Ok (map (fun row => nth i row VNaN) (data df))
  | None => Raise KeyError
  end.

(** [df[[c1, ..., cn]]] *)
Definition select (df : DataFrame) (cs : list pystr) : result DataFrame :=
  if forallb (fun c => str_in c (columns df)) cs
  then Ok (mkDF cs (map (reindex (columns df) cs) (data df)))
  else Raise KeyError.

(** [pd.concat([a, b], ignore_index=True)]: the columns of [a], then those
    of [b] that [a] lacks; missing cells are NaN. *)
Definition concat (a b : DataFrame) : DataFrame :=
  let cols :=
    columns a ++ filter (fun c => negb (str_in c (columns a))) (columns b) in
  mkDF cols (map (reindex (columns a) cols) (data a)
             ++ map (reindex (columns b) cols) (data b)).

(** [df.columns = names] *)
Definition set_columns (df : DataFrame) (names : list pystr) : result DataFrame :=
  if Nat.eqb (length names) (length (columns df))
  then Ok (mkDF names (data df))
  else Raise ValueError.

(** [df[c] = v] for a scalar [v]. *)
Definition setitem_scalar (df : DataFrame) (c : pystr) (v : value) : DataFrame :=
  if str_in c (columns df)
  then mkDF (columns df)
            (map (fun row =>
                    map (fun '(c', x) => if str_eqb c' c then v else x)
                        (combine (columns df) row))
                 (data df))
  else mkDF (columns df ++ [c]) (map (fun row => row ++ [v]) (data df)).

(** [df.insert(0, c, v)] for a scalar [v]. *)
Definition insert0 (df : DataFrame) (c : pystr) (v : value) : result DataFrame :=
  if str_in c (columns df) then Raise ValueError
  else Ok (mkDF (c :: columns df) (map (fun row => v :: row) (data df))).

(** [pd.DataFrame(records)] for a list of dicts that all have the keys
    [cols], in that order. *)
Definition frame_of_records (cols : list pystr) (records : list (list value))
  : DataFrame :=
  match records with
  | [] => empty_frame
  | _ :: _ => mkDF cols records
  end.

(** [max(xs)] *)
Definition py_max (xs : list nat) : result nat :=
  match xs with
  | [] => Raise ValueError
  | x :: xs' => Ok (fold_left Nat.max xs' x)
  end.

(* ================================================================= *)
(** ** [_separar_linhas_multiplas] *)

(** The body of the loop over [df.iterrows()]: the rows one row expands to.
    Column labels are distinct at the call site, so [row[col]] and
    [nova_linha[col_name]] are positional. *)
Definition expandir_linha (row : list value) : result (list (list value)) :=
  let col_split := map (fun x => split NL (py_str x)) row in
  max_splits <- py_max (map (@length pystr) col_split) ;;
  Ok (map (fun i =>
             map (fun partes =>
                    if Nat.ltb i (length partes)
                    then VStr (strip (nth i partes []))
                    else VStr [])
                 col_split)
          (seq 0 max_splits)).

Definition _separar_linhas_multiplas (df : DataFrame) : result DataFrame :=
  linhas_expandidas <-
    for_each (fun acc row => novas <- expandir_linha row ;; Ok (acc ++ novas))
             (data df) [] ;;
  Ok (frame_of_records (columns df) linhas_expandidas).

(* ================================================================= *)
(** ** [processar_contracheques_camelot]

    Camelot's output is the input of the model: each table is a grid of text
    cells with the number of the page it was read from. *)

Record Table := mkTable {
  grid : list (list pystr);
  page : Z
}.

Definition DESCRICAO : pystr := u "DESCRIÇÃO".

Definition col_Descricao : pystr := u "Descrição".
Definition col_PVD : pystr := u "PVD".
Definition col_COD : pystr := u "COD".
Definition col_BASE : pystr := u "BASE".
Definition col_VALOR_UNITARIO : pystr := u "VALOR UNITÁRIO".
Definition col_TOTAL : pystr := u "TOTAL".
Definition col_DATA : pystr := u "DATA".
Definition col_Competencia : pystr := u "Competência".

Definition nomes_canonicos : list pystr :=
  [col_Descricao; col_PVD; col_COD; col_BASE; col_VALOR_UNITARIO; col_TOTAL].

(** [df.shape[1]] of a table's frame. *)
Definition shape1 (g : list (list pystr)) : nat :=
  match g with
  | [] => O
  | row :: _ => length row
  end.

(** [x in df.values] *)
Definition in_values (x : pystr) (g : list (list pystr)) : bool :=
  existsb (str_in x) g.

(** [df[df.isin([x]).any(axis=1)].index[0]] *)
Fixpoint first_row_with (x : pystr) (g : list (list pystr)) : result nat :=
  match g with
  | [] => Raise IndexError
  | row :: g' =>
    if existsb (fun c => str_in c [x]) row then Ok O
    else i <- first_row_with x g' ;; Ok (S i)
  end.

(** The frame of the rows of a grid, before any column is named: Camelot
    labels the columns 0, 1, 2, ... (written here as text; the labels are
    replaced before any is looked up). *)
Definition frame_of_grid (ncols : nat) (g : list (list pystr)) : DataFrame :=
  mkDF (map (fun i => str_of_int (Z.of_nat i)) (seq 0 ncols))
       (map (map VStr) g).

Section Normalizer.

Variable nd : char -> option Z.

(** The text of the pages of the PDF, for [extrair_data_da_pagina]. *)
Variable pages : list pystr.

(** One turn of [for table in tables]. *)
Definition processar_tabela (dados : DataFrame) (table : Table)
  : result DataFrame :=
  let df := grid table in
  if in_values DESCRICAO df then
    idx_cab <- first_row_with DESCRICAO df ;;
    let df := frame_of_grid (shape1 df) (skipn (idx_cab + 1) df) in
    if Nat.leb 6 (length (columns df)) then
      df <- set_columns df (firstn (length (columns df)) nomes_canonicos) ;;
      df <- _separar_linhas_multiplas df ;;
      let df := setitem_scalar df col_Competencia
                  (VStr (u "Página " ++ str_of_int (page table))) in
      data_encontrada <- extrair_data_da_pagina nd pages (page table) ;;
      df <- insert0 df col_DATA (VStr data_encontrada) ;;
      Ok (concat dados df)
    else Ok dados
  else Ok dados.

Definition dados_inicial : DataFrame :=
  mkDF [col_DATA; col_Competencia; col_Descricao; col_PVD; col_COD; col_BASE;
        col_VALOR_UNITARIO; col_TOTAL] [].

(** The body of the [try]. *)
Definition processar_tabelas (tables : list Table) : result DataFrame :=
  dados <- for_each processar_tabela tables dados_inicial ;;
  if negb (df_empty dados)
  then select dados [col_COD; col_Descricao; col_TOTAL; col_DATA]
  else Ok dados.

(** [None] is the value returned by the [except] branch. *)
Definition processar_contracheques_camelot (tables : list Table)
  : option DataFrame :=
  match processar_tabelas tables with
  | Ok dados => Some dados
  | Raise _ => None
  end.

End Normalizer.

(* ================================================================= *)
(** ** [cruzar_descontos_com_rubricas]

    [fuzzywuzzy] is a library: its text normaliser [utils.full_process] and
    the similarity of two distinct non-empty strings, as the integer
    [intr(100 * SequenceMatcher(None, s1, s2).ratio())], are parameters. *)

Section RubricMatcher.

Variable full_process : pystr -> pystr.
Variable seq_ratio : pystr -> pystr -> Z.

(** [fuzz.ratio], with its decorators [check_for_equivalence] and
    [check_empty_string]. *)
Definition fuzz_ratio (s1 s2 : pystr) : Z :=
  if str_eqb s1 s2 then 100
  else if Nat.eqb (length s1) 0 || Nat.eqb (length s2) 0 then 0
  else seq_ratio s1 s2.

(** [process.extractWithoutOrder(query, choices, scorer=fuzz.ratio)],
    with the default processor and [score_cutoff=0]. *)
Definition extractWithoutOrder (query : pystr) (choices : list pystr)
  : list (pystr * Z) :=
  let processed_query := full_process query in
  filter (fun cs => 0 <=? snd cs)
         (map (fun choice => (choice, fuzz_ratio processed_query (full_process choice)))
              choices).

(** [max(best_list, key=lambda i: i[1])]: the first element of highest score. *)
Definition max_by_score (best_list : list (pystr * Z)) : option (pystr * Z) :=
  match best_list with
  | [] => None
  | x :: xs =>
    Some (fold_left (fun best y => if snd best <? snd y then y else best) xs x)
  end.

(** [process.extractOne(query, choices, scorer=fuzz.ratio)] *)
Definition extractOne (query : pystr) (choices : list pystr)
  : option (pystr * Z) :=
  max_by_score (extractWithoutOrder query choices).

(** [series.unique()] *)
Fixpoint unique (xs : list value) : list value :=
  match xs with
  | [] => []
  | x :: xs' => x :: filter (fun y => negb (value_eqb x y)) (unique xs')
  end.

(** [mapping[desc]] *)
Fixpoint lookup (mapping : list (pystr * bool)) (desc : pystr) : result bool :=
  match mapping with
  | [] => Raise KeyError
  | (k, b) :: mapping' => if str_eqb k desc then Ok b else lookup mapping' desc
  end.

Definition cruzar_descontos_com_rubricas
  (df_descontos : DataFrame) (rubricas : list pystr) (threshold : Z)
  : result DataFrame :=
  if df_empty df_descontos || Nat.eqb (length rubricas) 0 then Ok empty_frame
  else
    descricoes <- getitem df_descontos DESCRICAO ;;
    let unique_desc := unique descricoes in
    mapping <-
      for_each (fun mapping x =>
                  match x with
                  | VStr desc =>
                    let result := extractOne desc rubricas in
                    Ok (mapping ++
                        [(desc, match result with
                                | Some r => threshold <=? snd r
                                | None => false
                                end)])
                  | VNaN => Raise TypeError
                  end)
               unique_desc [] ;;
    mask <-
      for_each (fun mask x =>
                  match x with
                  | VStr desc => b <- lookup mapping desc ;; Ok (mask ++ [b])
                  | VNaN => Raise TypeError
                  end)
               descricoes [] ;;
    Ok (mkDF (columns df_descontos)
             (map snd (filter fst (combine mask (data df_descontos))))).

End RubricMatcher.

(* ================================================================= *)
(** ** Python floats

    A Python [float] is an IEEE 754 binary64 number, represented as in the
    standard library's [SpecFloat]: a finite number [S754_finite s m e] is
    [(-1)^s * m * 2^e], with [2^52 <= m < 2^53] for [-1074 < e <= 971], or
    [m < 2^53] for [e = -1074].  Every operation is the exact result rounded
    to nearest, ties to even. *)

Definition float := spec_float.

Definition f64_zero : float := S754_zero false.

(** Nearest integer to [a / b], ties to even ([0 <= a], [0 < b]). *)
Definition div_half_even (a b : Z) : Z :=
  let q := a / b in
  let r := a mod b in
  if 2 * r <? b then q
  else if b <? 2 * r then q + 1
  else if Z.even q then q else q + 1.

(** [a / b >= 2^k] *)
Definition ge_pow2 (a b k : Z) : bool :=
  if 0 <=? k then b * 2 ^ k <=? a else b <=? a * 2 ^ (- k).

(** [floor (log2 (a / b))] for positive [a], [b]. *)
Definition ilog2_q (a b : Z) : Z :=
  let l := Z.log2 a - Z.log2 b in
  if ge_pow2 a b l then l else l - 1.

(** The binary64 number nearest to [(-1)^s * a / b] ([0 < a], [0 < b]). *)
Definition round_q (s : bool) (a b : Z) : float :=
  let e := Z.max (ilog2_q a b - 52) (-1074) in
  let m := if 0 <=? e then div_half_even a (b * 2 ^ e)
           else div_half_even (a * 2 ^ (- e)) b in
  if m =? 0 then S754_zero s
  else
    let m' := if m =? 2 ^ 53 then 2 ^ 52 else m in
    let e' := if m =? 2 ^ 53 then e + 1 else e in
    if 971 <? e' then S754_infinity s else S754_finite s (Z.to_pos m') e'.

(** A finite number as a fraction [(numerator, denominator)]. *)
Definition frac_of (s : bool) (m : positive) (e : Z) : Z * Z :=
  let n := if s then Z.neg m else Z.pos m in
  if 0 <=? e then (n * 2 ^ e, 1) else (n, 2 ^ (- e)).

(** Round a fraction with a signed numerator; an exact zero takes the sign
    [szero]. *)
Definition round_frac (n d : Z) (szero : bool) : float :=
  if n =? 0 then S754_zero szero
  else round_q (n <? 0) (Z.abs n) d.

(** [x + y] *)
Definition f64_add (x y : float) : float :=
  match x, y with
  | S754_nan, _ | _, S754_nan => S754_nan
  | S754_infinity sx, S754_infinity sy =>
    if Bool.eqb sx sy then x else S754_nan
  | S754_infinity _, _ => x
  | _, S754_infinity _ => y
  | S754_zero sx, S754_zero sy => S754_zero (sx && sy)
  | S754_zero _, _ => y
  | _, S754_zero _ => x
  | S754_finite sx mx ex, S754_finite sy my ey =>
    let '(nx, dx) := frac_of sx mx ex in
    let '(ny, dy) := frac_of sy my ey in
    round_frac (nx * dy + ny * dx) (dx * dy) false
  end.

(** [- x] *)
Definition f64_neg (x : float) : float :=
  match x with
  | S754_nan => S754_nan
  | S754_infinity s => S754_infinity (negb s)
  | S754_zero s => S754_zero (negb s)
  | S754_finite s m e => S754_finite (negb s) m e
  end.

(** [x - y] *)
Definition f64_sub (x y : float) : float := f64_add x (f64_neg y).

(** [x * y] *)
Definition f64_mul (x y : float) : float :=
  match x, y with
  | S754_nan, _ | _, S754_nan => S754_nan
  | S754_infinity sx, S754_infinity sy => S754_infinity (xorb sx sy)
  | S754_infinity sx, S754_finite sy _ _ => S754_infinity (xorb sx sy)
  | S754_finite sx _ _, S754_infinity sy => S754_infinity (xorb sx sy)
  | S754_infinity _, S754_zero _ | S754_zero _, S754_infinity _ => S754_nan
  | S754_zero sx, S754_zero sy => S754_zero (xorb sx sy)
  | S754_zero sx, S754_finite sy _ _ => S754_zero (xorb sx sy)
  | S754_finite sx _ _, S754_zero sy => S754_zero (xorb sx sy)
  | S754_finite sx mx ex, S754_finite sy my ey =>
    let '(nx, dx) := frac_of false mx ex in
    let '(ny, dy) := frac_of false my ey in
    round_q (xorb sx sy) (nx * ny) (dx * dy)
  end.

(** [x / y] for a non-zero [y] (Python raises [ZeroDivisionError] at zero;
    the program only divides by 100). *)
Definition f64_div (x y : float) : float :=
  match x, y with
  | S754_nan, _ | _, S754_nan => S754_nan
  | S754_infinity _, S754_infinity _ => S754_nan
  | S754_infinity sx, S754_finite sy _ _ => S754_infinity (xorb sx sy)
  | S754_infinity sx, S754_zero sy => S754_infinity (xorb sx sy)
  | S754_zero sx, S754_infinity sy => S754_zero (xorb sx sy)
  | S754_finite sx _ _, S754_infinity sy => S754_zero (xorb sx sy)
  | S754_zero _, S754_zero _ => S754_nan
  | S754_zero sx, S754_finite sy _ _ => S754_zero (xorb sx sy)
  | S754_finite sx _ _, S754_zero sy => S754_infinity (xorb sx sy)
  | S754_finite sx mx ex, S754_finite sy my ey =>
    let '(nx, dx) := frac_of false mx ex in
    let '(ny, dy) := frac_of false my ey in
    round_q (xorb sx sy) (nx * dy) (dx * ny)
  end.

(** The float of a non-negative integer literal. *)
Definition f64_of_Z (n : Z) : float := round_frac n 1 false.

(** [x == 0] *)
Definition f64_eq_zero (x : float) : bool :=
  match x with
  | S754_zero _ => true
  | _ => false
  end.

(** [x < 0] *)
Definition f64_lt_zero (x : float) : bool :=
  match x with
  | S754_infinity s => s
  | S754_finite s _ _ => s
  | _ => false
  end.

Definition f64_isnan (x : float) : bool :=
  match x with
  | S754_nan => true
  | _ => false
  end.

(* --------------------------------------------------------------- *)
(** *** [f"{x:,.2f}"] *)

Definition MINUS : char := 45.

(** Lay out digits given least significant first, with [sep] between groups
    of three; [k] counts the digits of the current group already in [acc]. *)
Fixpoint group3 (sep : char) (rev_digits : pystr) (k : nat) (acc : pystr)
  : pystr :=
  match rev_digits with
  | [] => acc
  | d :: rest =>
    if Nat.eqb k 3 then group3 sep rest 1 (d :: sep :: acc)
    else group3 sep rest (S k) (d :: acc)
  end.

Definition with_sep (sep : char) (n : Z) : pystr :=
  group3 sep (rev (str_of_nonneg n)) 0 [].

(** A non-negative number of hundredths with two decimals, for a thousands
    separator and a decimal mark. *)
Definition fmt_cents_with (thousands decimal : char) (cents : Z) : pystr :=
  with_sep thousands (cents / 100)
  ++ [decimal; digit_char ((cents / 10) mod 10); digit_char (cents mod 10)].

(** The format [,.2f]: [d,ddd.dd]. *)
Definition fmt_cents : Z -> pystr := fmt_cents_with COMMA DOT.

Definition format_2f (x : float) : pystr :=
  match x with
  | S754_nan => u "nan"
  | S754_infinity s => if s then u "-inf" else u "inf"
  | S754_zero s => (if s then [MINUS] else []) ++ fmt_cents 0
  | S754_finite s m e =>
    let '(n, d) := frac_of false m e in
    (if s then [MINUS] else []) ++ fmt_cents (div_half_even (100 * n) d)
  end.

(* --------------------------------------------------------------- *)
(** *** [float(s)] *)

Definition py_isspace_ascii (c : char) : bool :=
  (c =? 32) || ((9 <=? c) && (c <=? 13)).

Definition is_ascii_digit (c : char) : bool :=
  (48 <=? c) && (c <=? 57).

Definition UNDERSCORE : char := 95.

(** Check and drop the underscores of a numeric literal: each one stands
    between two digits.  [prev] is the preceding character (0 at the start). *)
Fixpoint drop_underscores (prev : char) (s : pystr) : option pystr :=
  match s with
  | [] => if char_eqb prev UNDERSCORE then None else Some []
  | c :: s' =>
    if char_eqb c UNDERSCORE then
      if is_ascii_digit prev then drop_underscores c s' else None
    else if char_eqb prev UNDERSCORE && negb (is_ascii_digit c) then None
    else match drop_underscores c s' with
         | Some r => Some (c :: r)
         | None => None
         end
  end.

Fixpoint lstrip_ascii (s : pystr) : pystr :=
  match s with
  | c :: s' => if py_isspace_ascii c then lstrip_ascii s' else s
  | [] => []
  end.

(** A leading run of ASCII digits and what follows it. *)
Fixpoint span_digits (s : pystr) : pystr * pystr :=
  match s with
  | c :: s' =>
    if is_ascii_digit c
    then let '(ds, rest) := span_digits s' in (c :: ds, rest)
    else ([], s)
  | [] => ([], [])
  end.

(** The number written by a run of ASCII digits. *)
Definition digits_value (ds : pystr) : Z :=
  fold_left (fun acc c => 10 * acc + (c - 48)) ds 0.

Definition lower (c : char) : char :=
  if (65 <=? c) && (c <=? 90) then c + 32 else c.

(** An optional sign: whether it is [-], and the rest. *)
Definition take_sign (s : pystr) : bool * pystr :=
  match s with
  | c :: s' =>
    if c =? 45 then (true, s')
    else if c =? 43 then (false, s')
    else (false, s)
  | [] => (false, [])
  end.

(** The optional exponent part [e[+-]ddd] that ends the literal. *)
Definition parse_exponent (s : pystr) : option Z :=
  match s with
  | [] => Some 0
  | c :: s' =>
    if lower c =? 101 then
      let '(neg, s'') := take_sign s' in
      let '(ds, rest) := span_digits s'' in
      match ds, rest with
      | _ :: _, [] => Some (if neg then - digits_value ds else digits_value ds)
      | _, _ => None
      end
    else None
  end.

(** [s * n * 10^e10], correctly rounded. *)
Definition f64_of_decimal (s : bool) (n e10 : Z) : float :=
  if n =? 0 then S754_zero s
  else if 0 <=? e10 then round_q s (n * 10 ^ e10) 1
  else round_q s n (10 ^ (- e10)).

(** The literal proper, after whitespace and underscores are gone. *)
Definition parse_float_literal (s : pystr) : option float :=
  let '(neg, body) := take_sign s in
  let name := map lower body in
  if str_eqb name (u "inf") || str_eqb name (u "infinity")
  then Some (S754_infinity neg)
  else if str_eqb name (u "nan") then Some S754_nan
  else
    let '(ip, r1) := span_digits body in
    let '(fp, r2) :=
      match r1 with
      | c :: r => if c =? DOT then span_digits r else ([], r1)
      | [] => ([], [])
      end in
    match ip ++ fp with
    | [] => None
    | _ :: _ =>
      match parse_exponent r2 with
      | Some ex =>
        Some (f64_of_decimal neg (digits_value (ip ++ fp))
                (ex - Z.of_nat (length fp)))
      | None => None
      end
    end.

Section Float.

Variable nd : char -> option Z.

(** [_PyUnicode_TransformDecimalAndSpaceToASCII], one character. *)
Definition to_ascii (c : char) : char :=
  if c <? 128 then c
  else if isspace c then 32
  else match nd c with
       | Some d => digit_char d
       | None => 63
       end.

(** [float(s)] for a [str]. *)
Definition py_float (s : pystr) : result float :=
  match drop_underscores 0 (map to_ascii s) with
  | None => Raise ValueError
  | Some s1 =>
    match parse_float_literal (rev (lstrip_ascii (rev (lstrip_ascii s1)))) with
    | Some x => Ok x
    | None => Raise ValueError
    end
  end.

End Float.

(* ================================================================= *)
(** ** Session state

    [get_state_value] reads a slot of [st.session_state] or, failing that,
    of [_fallback_state].  The state is represented by its text slots;
    [None] is Python's [None]. *)

Record State := mkState {
  nome_extraido : option pystr;
  nit_extraido : option pystr;
  valor_recebido : option pystr
}.

Definition get_state_value (st : State) (key : pystr) : option pystr :=
  if str_eqb key (u "nome_extraido") then nome_extraido st
  else if str_eqb key (u "nit_extraido") then nit_extraido st
  else if str_eqb key (u "valor_recebido") then valor_recebido st
  else None.

(** [x or "0"] *)
Definition or_zero (x : option pystr) : pystr :=
  match x with
  | Some (c :: s) => c :: s
  | _ => u "0"
  end.

(* ================================================================= *)
(** ** [formatar_valor_brl] and [inserir_totais_na_coluna] *)

Definition marca_A : pystr := u "A = Valor Total (R$)".
Definition marca_B : pystr := u "B = Valor Recebido - Autor (a)".
Definition marca_indebito : pystr := u "Indébito (A-B)".
Definition marca_dobro : pystr := u "Indébito em dobro (R$)".

Definition linhas_especiais : list pystr :=
  [marca_A; marca_B; marca_indebito; marca_dobro].

(** [series.isin(xs)], one cell. *)
Definition isin (xs : list pystr) (x : value) : bool :=
  match x with
  | VStr s => str_in s xs
  | VNaN => false
  end.

(** [pd.DataFrame({col_valor: [v], "DESCRIÇÃO": [d]})]; a dict holds a key
    once, with the value given last. *)
Definition linha_de_total (col_valor v d : pystr) : DataFrame :=
  if str_eqb col_valor DESCRICAO
  then mkDF [DESCRICAO] [[VStr d]]
  else mkDF [col_valor; DESCRICAO] [[VStr v; VStr d]].

(** [df.loc[mask, c] = v] *)
Definition loc_set (df : DataFrame) (mask : list bool) (c : pystr) (v : value)
  : DataFrame :=
  mkDF (columns df)
       (map (fun br : bool * list value =>
               if fst br
               then map (fun cx : pystr * value =>
                           if str_eqb (fst cx) c then v else snd cx)
                        (combine (columns df) (snd br))
               else snd br)
            (combine mask (data df))).

(** [series.sum()] of a float64 column.  With [skipna] pandas puts 0.0 in
    the place of each NaN and hands the values to NumPy's [add.reduce],
    which adds a contiguous run of doubles pairwise
    ([DOUBLE_pairwise_sum]):
    - fewer than 8 values are added one after the other;
    - up to 128 values are added into eight partial sums, the value at
      place [i] into the sum of index [i mod 8], as long as a full group of
      eight remains; the partial sums are then added two by two, and the
      values left over are added to the result one after the other;
    - a longer run is cut in two at a multiple of 8 near its middle, and the
      sums of the two parts are added.
    The accumulation starts from -0.0 (from +0.0 before NumPy 1.24, which
    changes the sign of a sum that is zero and nothing else); the sum of no
    value is +0.0. *)

(** [r[j] += a[i + j]] for the eight partial sums. *)
Definition add_lanes (r bloco : list float) : list float :=
  map (fun p : float * float => f64_add (fst p) (snd p)) (combine r bloco).

(** The loop over the full groups of eight: the partial sums, and the
    values left over. *)
Fixpoint unrolled (r xs : list float) : list float * list float :=
  match xs with
  | a0 :: a1 :: a2 :: a3 :: a4 :: a5 :: a6 :: a7 :: rest =>
    unrolled (add_lanes r [a0; a1; a2; a3; a4; a5; a6; a7]) rest
  | _ => (r, xs)
  end.

(** [((r[0] + r[1]) + (r[2] + r[3])) + ((r[4] + r[5]) + (r[6] + r[7]))] *)
Definition combine_lanes (r : list float) : float :=
  match r with
  | [r0; r1; r2; r3; r4; r5; r6; r7] =>
    f64_add (f64_add (f64_add r0 r1) (f64_add r2 r3))
            (f64_add (f64_add r4 r5) (f64_add r6 r7))
  | _ => f64_zero
  end.

(** From 8 to 128 values. *)
Definition sum_unrolled (xs : list float) : float :=
  let '(r, rest) := unrolled (firstn 8 xs) (skipn 8 xs) in
  fold_left f64_add rest (combine_lanes r).

(** [DOUBLE_pairwise_sum].  [fuel] bounds the depth of the cuts; the number
    of values is enough. *)
Fixpoint pairwise_sum (fuel : nat) (xs : list float) : float :=
  let n := length xs in
  if Nat.ltb n 8 then fold_left f64_add xs (S754_zero true)
  else if Nat.leb n 128 then sum_unrolled xs
  else
    match fuel with
    | O => sum_unrolled xs
    | S fuel' =>
      let n2 := Nat.div n 2 in
      let n2 := Nat.sub n2 (Nat.modulo n2 8) in
      f64_add (pairwise_sum fuel' (firstn n2 xs))
              (pairwise_sum fuel' (skipn n2 xs))
    end.

(** [np.add.reduce] on a run of doubles. *)
Definition np_sum (xs : list float) : float :=
  match xs with
  | [] => f64_zero
  | _ :: _ => f64_add (S754_zero true) (pairwise_sum (length xs) xs)
  end.

(** [series.sum()]: each NaN counts as 0.0, then the values are added as
    above. *)
Definition series_sum (xs : list float) : float :=
  np_sum (map (fun x => if f64_isnan x then f64_zero else x) xs).

Section Calculator.

Variable nd : char -> option Z.

Definition formatar_valor_brl (valor : pystr) : pystr :=
  match py_float nd (replace DOT [] (replace COMMA [] valor)) with
  | Ok x =>
    let flt := f64_div x (f64_of_Z 100) in
    replace LETTER_X [DOT]
      (replace DOT [COMMA] (replace COMMA [LETTER_X] (format_2f flt)))
  | Raise _ => valor
  end.

(** The inner function of [inserir_totais_na_coluna]. *)
Definition _to_float (x : value) : float :=
  match py_float nd (strip (replace COMMA [DOT] (py_str x))) with
  | Ok f => f
  | Raise _ => f64_zero
  end.

Definition inserir_totais_na_coluna
  (st : State) (df : DataFrame) (col_valor : pystr) : result DataFrame :=
  valores <- getitem df col_valor ;;
  let soma := series_sum (map _to_float valores) in
  if f64_eq_zero soma then Ok df
  else
    let valor_recebido_str := or_zero (get_state_value st (u "valor_recebido")) in
    let valor_recebido_num :=
      match py_float nd (strip (replace COMMA [DOT] valor_recebido_str)) with
      | Ok f => f
      | Raise _ => f64_zero
      end in
    let indebito := f64_sub soma valor_recebido_num in
    let indebito_dobro := f64_mul (f64_of_Z 2) indebito in
    let A_str := format_2f soma in
    let B_str := strip valor_recebido_str in
    let indebito_str := format_2f indebito in
    let indebito_dobro_str := format_2f indebito_dobro in
    let df_novo := df in
    let df_novo := concat df_novo (linha_de_total col_valor A_str marca_A) in
    let df_novo := concat df_novo (linha_de_total col_valor B_str marca_B) in
    let df_novo :=
      concat df_novo (linha_de_total col_valor indebito_str marca_indebito) in
    let df_novo :=
      concat df_novo (linha_de_total col_valor indebito_dobro_str marca_dobro) in
    descricoes <- getitem df_novo DESCRICAO ;;
    let mask_especial := map (isin linhas_especiais) descricoes in
    Ok (fold_left
          (fun df_novo c =>
             if negb (str_in c [DESCRICAO; col_valor])
             then loc_set df_novo mask_especial c (VStr [])
             else df_novo)
          (columns df_novo) df_novo).

End Calculator.

(* ================================================================= *)
(** ** [PDFFinais]

    The part of FPDF the report uses: a cursor, the current font and
    colours, and the cells printed so far, each with the font and colour it
    was printed in.  Lengths are in millimetres; [h] is the page height. *)

Record Font := mkFont {
  family : pystr;
  style : pystr;
  size_pt : Z
}.

Definition Color : Type := Z * Z * Z.

Record PdfCell := mkCell {
  cell_w : Z;
  cell_h : Z;
  cell_txt : pystr;
  cell_align : pystr;
  cell_font : Font;
  cell_color : Color
}.

Record PDF := mkPDF {
  titulo : pystr;
  h : Z;
  y : Z;
  lasth : Z;
  font : Font;
  text_color : Color;
  fill_color : Color;
  printed : list PdfCell
}.

Definition set_font (pdf : PDF) (fam sty : pystr) (sz : Z) : PDF :=
  mkPDF (titulo pdf) (h pdf) (y pdf) (lasth pdf) (mkFont fam sty sz)
        (text_color pdf) (fill_color pdf) (printed pdf).

Definition set_text_color (pdf : PDF) (r g b : Z) : PDF :=
  mkPDF (titulo pdf) (h pdf) (y pdf) (lasth pdf) (font pdf)
        (r, g, b) (fill_color pdf) (printed pdf).

Definition set_fill_color (pdf : PDF) (r g b : Z) : PDF :=
  mkPDF (titulo pdf) (h pdf) (y pdf) (lasth pdf) (font pdf)
        (text_color pdf) (r, g, b) (printed pdf).

(** [self.cell(w, hh, txt, align=align, ln=ln)] *)
Definition pdf_cell (pdf : PDF) (w hh : Z) (txt align : pystr) (ln : bool) : PDF :=
  mkPDF (titulo pdf) (h pdf) (if ln then y pdf + hh else y pdf) hh (font pdf)
        (text_color pdf) (fill_color pdf)
        (printed pdf ++ [mkCell w hh txt align (font pdf) (text_color pdf)]).

(** [self.ln(hh)]; [self.ln()] is [pdf_ln pdf (lasth pdf)]. *)
Definition pdf_ln (pdf : PDF) (hh : Z) : PDF :=
  mkPDF (titulo pdf) (h pdf) (y pdf + hh) (lasth pdf) (font pdf)
        (text_color pdf) (fill_color pdf) (printed pdf).

Definition Arial : pystr := u "Arial".
Definition col_DESCONTOS : pystr := u "DESCONTOS".

(** [PDFFinais.header] *)
Definition header (pdf : PDF) : PDF :=
  let pdf := set_font pdf Arial (u "B") 12 in
  let pdf := pdf_cell pdf 0 10 (titulo pdf) (u "C") true in
  let pdf := pdf_ln pdf 5 in
  let pdf := set_font pdf Arial (u "B") 10 in
  set_fill_color pdf 200 220 255.

(** [FPDF.add_page]: the cursor goes to the top margin, [header] runs, and
    the font and colours in use before the call are restored. *)
Definition add_page (pdf : PDF) : PDF :=
  let pdf' := header (mkPDF (titulo pdf) (h pdf) 10 (lasth pdf) (font pdf)
                            (text_color pdf) (fill_color pdf) (printed pdf)) in
  mkPDF (titulo pdf') (h pdf') (y pdf') (lasth pdf') (font pdf)
        (text_color pdf) (fill_color pdf) (printed pdf').

(** [widths_map.get(col_h, 40)] *)
Definition widths_map_get (col_h : pystr) : Z :=
  if str_eqb col_h col_COD then 30
  else if str_eqb col_h DESCRICAO then 120
  else if str_eqb col_h col_DESCONTOS then 40
  else if str_eqb col_h col_DATA then 30
  else 40.

(** [PDFFinais.montar_cab] *)
Definition montar_cab (pdf : PDF) (col_names : list pystr) : PDF :=
  let pdf := set_font pdf Arial (u "B") 10 in
  let pdf := set_fill_color pdf 200 220 255 in
  let pdf :=
    fold_left (fun pdf col_h =>
                 pdf_cell pdf (widths_map_get col_h) 8 col_h (u "C") false)
              col_names pdf in
  pdf_ln pdf (lasth pdf).

Section Report.

Variable nd : char -> option Z.

(** [str.upper], from the interpreter's Unicode database. *)
Variable upper : pystr -> pystr.

(** [desc in [...]] for the cell [rowv["DESCRIÇÃO"]]. *)
Definition is_especial (desc : value) : bool := isin linhas_especiais desc.

(** One turn of the loop of [montar_tabela] over [df.iterrows()]. *)
Definition montar_linha (col_names : list pystr) (pdf : PDF) (rowv : list value)
  : result PDF :=
  let row_h := 7 in
  let pdf :=
    if h pdf <? y pdf + row_h + 15
    then montar_cab (add_page pdf) col_names
    else pdf in
  desc <- match index_of DESCRICAO col_names with
          | Some i => Ok (nth i rowv VNaN)
          | None => Raise KeyError
          end ;;
  let pdf :=
    if is_especial desc
    then set_text_color (set_font pdf Arial (u "B") 11) 255 0 0
    else set_text_color (set_font pdf Arial [] 9) 0 0 0 in
  let row_vals :=
    map (fun col_h =>
           let val := py_str (cell col_names rowv col_h) in
           if str_eqb col_h col_DESCONTOS && negb (Nat.eqb (length (strip val)) 0)
           then formatar_valor_brl nd val
           else val)
        col_names in
  let pdf :=
    fold_left (fun pdf (cv : pystr * pystr) =>
                 let align :=
                   if str_eqb (upper (fst cv)) DESCRICAO then u "L" else u "C" in
                 pdf_cell pdf (widths_map_get (fst cv)) row_h (snd cv) align false)
              (combine col_names row_vals) pdf in
  let pdf := pdf_ln pdf row_h in
  Ok (if is_especial desc
      then set_text_color (set_font pdf Arial [] 9) 0 0 0
      else pdf).

(** [PDFFinais.montar_tabela] *)
Definition montar_tabela (pdf : PDF) (df : DataFrame) : result PDF :=
  let col_names := columns df in
  let pdf := montar_cab pdf col_names in
  let pdf := set_font pdf Arial [] 9 in
  for_each (montar_linha col_names) (data df) pdf.

End Report.

(* ================================================================= *)
(** ** [carregar_glossario]

    The file system is what the function reads from: [ler path] is the text
    [open(path, "r", encoding="utf-8").read()] returns, or [None] when
    opening, reading or decoding raises.  The message shown by [st.error]
    is no part of the returned value. *)

(** The line boundaries of [str.splitlines]. *)
Definition is_linebreak (c : char) : bool :=
  ((10 <=? c) && (c <=? 13)) || ((28 <=? c) && (c <=? 30))
  || (c =? 133) || (c =? 8232) || (c =? 8233).

(** [s.splitlines()]: a carriage return followed by a line feed is one
    boundary; a boundary that ends the text opens no further line. *)
Fixpoint splitlines (s : pystr) : list pystr :=
  match s with
  | [] => []
  | c :: s' =>
    if is_linebreak c then
      [] :: match s' with
            | c' :: s'' =>
              if (c =? 13) && (c' =? 10) then splitlines s'' else splitlines s'
            | [] => []
            end
    else match splitlines s' with
         | l :: ls => (c :: l) :: ls
         | [] => [[c]]
         end
  end.

Definition GLOSSARY_PATH : pystr := u "Rubricas.txt".

Definition carregar_glossario (ler : pystr -> option pystr) (path : pystr)
  : list pystr :=
  match ler path with
  | Some texto => splitlines texto
  | None => []
  end.

Definition carregar_glossario_rubricas (ler : pystr -> option pystr)
  : list pystr :=
  carregar_glossario ler GLOSSARY_PATH.

(* ================================================================= *)
(** ** [get_state_value] and [set_state_value]

    The two stores behind the state: [st.session_state], which is absent
    when Streamlit provides none (every access to it then raises), and the
    module's dictionary [_fallback_state].  The record [State] above is the
    view of these stores that [inserir_totais_na_coluna] reads. *)

Module Sessao.

(** What the application keeps in its state. *)
Inductive obj :=
| Texto (s : pystr)
| Quadro (df : DataFrame)
| PyNone.

Definition dict := list (pystr * obj).

(** [d[k]]; [None] stands for [KeyError]. *)
Fixpoint dict_getitem (d : dict) (k : pystr) : option obj :=
  match d with
  | [] => None
  | (k', v) :: d' => if str_eqb k' k then Some v else dict_getitem d' k
  end.

(** [d[k] = v]: a key keeps its place, a new key goes last. *)
Fixpoint dict_setitem (d : dict) (k : pystr) (v : obj) : dict :=
  match d with
  | [] => [(k, v)]
  | (k', v') :: d' =>
    if str_eqb k' k then (k', v) :: d' else (k', v') :: dict_setitem d' k v
  end.

Record Store := mkStore {
  session_state : option dict;
  _fallback_state : dict
}.

(** The module-level dictionary as the source initialises it. *)
Definition fallback_inicial : dict :=
  [(u "df_contracheques", PyNone); (u "df_descontos", PyNone);
   (u "df_descontos_gloss", PyNone); (u "df_descontos_gloss_sel", PyNone);
   (u "nome_extraido", Texto []); (u "nit_extraido", Texto []);
   (u "valor_recebido", Texto [])].

(** [_fallback_state.get(key, None)] *)
Definition fallback_get (s : Store) (key : pystr) : obj :=
  match dict_getitem (_fallback_state s) key with
  | Some v => v
  | None => PyNone
  end.

Definition get_state_value (s : Store) (key : pystr) : obj :=
  match session_state s with
  | Some d =>
    match dict_getitem d key with
    | Some v => v
    | None => fallback_get s key
    end
  | None => fallback_get s key
  end.

Definition set_state_value (s : Store) (key : pystr) (value : obj) : Store :=
  match session_state s with
  | Some d => mkStore (Some (dict_setitem d key value)) (_fallback_state s)
  | None => mkStore None (dict_setitem (_fallback_state s) key value)
  end.

(** The text under a key, when it holds text. *)
Definition texto (v : obj) : option pystr :=
  match v with
  | Texto s => Some s
  | _ => None
  end.

(** The stores as [inserir_totais_na_coluna] sees them. *)
Definition visao (s : Store) : State :=
  mkState (texto (get_state_value s (u "nome_extraido")))
          (texto (get_state_value s (u "nit_extraido")))
          (texto (get_state_value s (u "valor_recebido"))).

End Sessao.

(* ================================================================= *)
(** ** [sanitizar_para_arquivo] *)

Section FileNames.

(** [str.isalnum] on a code point beyond ASCII, from the interpreter's
    Unicode database. *)
Variable alnum : char -> bool.

(** [\w] *)
Definition is_word (c : char) : bool :=
  if c <? 128
  then is_ascii_digit c || ((65 <=? c) && (c <=? 90))
       || ((97 <=? c) && (c <=? 122)) || (c =? UNDERSCORE)
  else alnum c.

(** The class [[\w\-_\.]] of the characters that are kept. *)
Definition mantido (c : char) : bool :=
  is_word c || (c =? MINUS) || (c =? UNDERSCORE) || (c =? DOT).

Definition sanitizar_para_arquivo (texto : pystr) : pystr :=
  let texto := replace 32 [UNDERSCORE] (strip texto) in
  filter mantido texto.

End FileNames.

(* ================================================================= *)
(** ** [extrair_nome_e_matricula]

    The PDF is represented by the text of its pages as pdfplumber extracts
    it ([page.extract_text() or ""]). *)

(** [p] is at the start of [s]. *)
Fixpoint startswith (p s : pystr) : bool :=
  match p, s with
  | [], _ => true
  | a :: p', b :: s' => char_eqb a b && startswith p' s'
  | _ :: _, [] => false
  end.

(** [p in s] for two strings. *)
Fixpoint contains (p s : pystr) : bool :=
  startswith p s
  || match s with
     | [] => false
     | _ :: s' => contains p s'
     end.

(** The longest prefix whose characters are all in a class. *)
Fixpoint takewhile (cls : char -> bool) (s : pystr) : pystr :=
  match s with
  | c :: s' => if cls c then c :: takewhile cls s' else []
  | [] => []
  end.

(** [[A-Z]] *)
Definition is_AZ (c : char) : bool := (65 <=? c) && (c <=? 90).

Section Identification.

Variable nd : char -> option Z.

(** [str.upper], from the interpreter's Unicode database. *)
Variable upper : pystr -> pystr.

(** [re.match] for the expression [[^\d]+], one group: group 1, the
    leading run of characters that are no digit, when there is one. *)
Definition match_nome (s : pystr) : option pystr :=
  match takewhile (fun c => negb (is_decimal nd c)) s with
  | [] => None
  | c :: m => Some (c :: m)
  end.

(** [\d{3}\.\d{3}-\d] *)
Definition matricula_pattern : pattern :=
  [is_decimal nd; is_decimal nd; is_decimal nd; char_eqb 46;
   is_decimal nd; is_decimal nd; is_decimal nd; char_eqb 45; is_decimal nd].

(** [re.search] for the expression [\d{3}\.\d{3}-\d\s*[A-Z]*], one group:
    group 1 of the leftmost match; the two starred classes take all they
    can. *)
Fixpoint search_matricula (s : pystr) : option pystr :=
  match match_here matricula_pattern s with
  | Some m =>
    let rest := skipn (length m) s in
    let sp := takewhile isspace rest in
    let az := takewhile is_AZ (skipn (length sp) rest) in
    Some (m ++ sp ++ az)
  | None =>
    match s with
    | [] => None
    | _ :: s' => search_matricula s'
    end
  end.

(** The loop over [enumerate(lines)]: a line acts on the line after it, and
    the last line on nothing. *)
Fixpoint percorrer_linhas (lines : list pystr) (nome matricula : pystr)
  : pystr * pystr :=
  match lines with
  | linha :: resto =>
    match resto with
    | seguinte :: _ =>
      let nome :=
        if contains (u "NOME") (upper linha) then
          match match_nome (strip seguinte) with
          | Some g => strip g
          | None => nome
          end
        else nome in
      let matricula :=
        if contains (u "MATRÍCULA-SEQ-DIG") (upper linha) then
          match search_matricula (strip seguinte) with
          | Some g => strip g
          | None => matricula
          end
        else matricula in
      percorrer_linhas resto nome matricula
    | [] => (nome, matricula)
    end
  | [] => (nome, matricula)
  end.

(** [x or "N/D"] *)
Definition or_ND (x : pystr) : pystr :=
  match x with
  | [] => ND
  | _ :: _ => x
  end.

Definition extrair_nome_e_matricula (paginas : list pystr) : pystr * pystr :=
  let '(nome, matricula) :=
    match paginas with
    | text :: _ => percorrer_linhas (split NL text) ND ND
    | [] => (ND, ND)
    end in
  (or_ND nome, or_ND matricula).

End Identification.

(* ================================================================= *)
(** ** [PDFRelatorioCamelot]

    The report of the extracted tables, on the same model of FPDF as
    [PDFFinais].  The footer of a page that ends is left out, as it is
    there. *)

Module Tabelas.

Record Relatorio := mkRelatorio {
  pdf : PDF;
  nome_user : pystr;
  nit_user : pystr;
  page_count : Z
}.

Definition header_cols : list (pystr * Z) :=
  [(col_COD, 30); (col_Descricao, 150); (col_TOTAL, 40); (col_DATA, 30)].

(** [PDFRelatorioCamelot._draw_header_line] *)
Definition _draw_header_line (p : PDF) : PDF :=
  let p := set_font p Arial (u "B") 10 in
  let p := set_fill_color p 200 220 255 in
  let p :=
    fold_left (fun p (col : pystr * Z) =>
                 pdf_cell p (snd col) 8 (fst col) (u "C") false)
              header_cols p in
  pdf_ln p (lasth p).

(** [PDFRelatorioCamelot.header] *)
Definition header (r : Relatorio) : Relatorio :=
  let page_count := page_count r + 1 in
  let p := set_font (pdf r) Arial (u "B") 12 in
  let titulo_str := titulo p ++ u " - " ++ nome_user r ++ u " - " ++ nit_user r in
  let p := pdf_cell p 0 10 titulo_str (u "C") true in
  let p := pdf_ln p 5 in
  mkRelatorio (_draw_header_line p) (nome_user r) (nit_user r) page_count.

(** [FPDF.add_page]: the cursor goes to the top margin, [header] runs, and
    the font and colours in use before the call are restored. *)
Definition add_page (r : Relatorio) : Relatorio :=
  let p := pdf r in
  let r' :=
    header (mkRelatorio
              (mkPDF (titulo p) (h p) 10 (lasth p) (font p) (text_color p)
                     (fill_color p) (printed p))
              (nome_user r) (nit_user r) (page_count r)) in
  let p' := pdf r' in
  mkRelatorio
    (mkPDF (titulo p') (h p') (y p') (lasth p') (font p) (text_color p)
           (fill_color p) (printed p'))
    (nome_user r') (nit_user r') (page_count r').

Section Rows.

Variable nd : char -> option Z.

(** [str(rowv[c])] *)
Definition rowv_str (cols : list pystr) (rowv : list value) (c : pystr)
  : result pystr :=
  match index_of c cols with
  | Some i => Ok (py_str (nth i rowv VNaN))
  | None => Raise KeyError
  end.

(** One turn of the loop of [montar_tabela] over [df.iterrows()]. *)
Definition montar_linha (cols : list pystr) (r : Relatorio) (rowv : list value)
  : result Relatorio :=
  let row_h := 7 in
  let r := if h (pdf r) <? y (pdf r) + row_h + 15 then add_page r else r in
  cod_s <- rowv_str cols rowv col_COD ;;
  desc_s <- rowv_str cols rowv col_Descricao ;;
  tot_s <- rowv_str cols rowv col_TOTAL ;;
  dat_s <- rowv_str cols rowv col_DATA ;;
  let tot_s :=
    if negb (Nat.eqb (length (strip tot_s)) 0)
    then formatar_valor_brl nd tot_s else tot_s in
  let p := pdf r in
  let p := pdf_cell p 30 row_h cod_s (u "C") false in
  let p := pdf_cell p 150 row_h desc_s (u "L") false in
  let p := pdf_cell p 40 row_h tot_s (u "R") false in
  let p := pdf_cell p 30 row_h dat_s (u "C") false in
  let p := pdf_ln p row_h in
  Ok (mkRelatorio p (nome_user r) (nit_user r) (page_count r)).

(** [PDFRelatorioCamelot.montar_tabela] *)
Definition montar_tabela (r : Relatorio) (df : DataFrame) : result Relatorio :=
  let r := mkRelatorio (set_font (pdf r) Arial [] 9)
                       (nome_user r) (nit_user r) (page_count r) in
  for_each (montar_linha (columns df)) (data df) r.

(** [PDFRelatorioCamelot.gerar_pdf], up to the writing of the file. *)
Definition gerar_pdf (r : Relatorio) (df : DataFrame) : result Relatorio :=
  montar_tabela (add_page r) df.

End Rows.

End Tabelas.

(* ================================================================= *)
(** ** [gerar_docx_finais]

    The document is represented by its heading and its table: the texts of
    the header cells (set in bold Arial of 10 points) and, for each row of
    the frame, the runs of text of its cells with their character format and
    the alignment of their paragraphs.  Column widths are left out. *)

(** [[A-Za-z]] *)
Definition is_letter (c : char) : bool :=
  ((65 <=? c) && (c <=? 90)) || ((97 <=? c) && (c <=? 122)).

Record Run := mkRun {
  run_text : pystr;
  run_name : pystr;
  run_bold : bool;
  run_size : Z;
  run_color : Color;
  para_left : bool
}.

Inductive Docx :=
| DocVazio (heading : pystr) (paragraph : pystr)
| DocTabela (heading : pystr) (hdr_cells : list pystr) (rows : list (list Run)).

Section FinalDocument.

Variable nd : char -> option Z.

(** [\d{3}-\d] *)
Definition sufixo_pattern : pattern :=
  [is_decimal nd; is_decimal nd; is_decimal nd; char_eqb 45; is_decimal nd].

(** The match of the expression [(\d+),(\d{3}-\d\s*[A-Za-z])] at the start
    of [s], if any: its two groups and what follows the match.  Each starred
    or plussed class takes all it can; taking less never helps, as the
    character after the run is not in the class. *)
Definition match_titulo (s : pystr) : option (pystr * pystr * pystr) :=
  match takewhile (is_decimal nd) s with
  | [] => None
  | c :: ds =>
    match skipn (length (c :: ds)) s with
    | sep :: r =>
      if char_eqb sep COMMA then
        match match_here sufixo_pattern r with
        | Some m =>
          let r2 := skipn (length m) r in
          let sp := takewhile isspace r2 in
          match skipn (length sp) r2 with
          | l :: r3 =>
            if is_letter l then Some (c :: ds, m ++ sp ++ [l], r3) else None
          | [] => None
          end
        | None => None
        end
      else None
    | [] => None
    end
  end.

(** [re.sub] with the replacement [\1.\2]: matches are looked for from left
    to right and do not overlap.  [fuel] bounds the number of steps; the
    length of the text is enough. *)
Fixpoint sub_titulo (fuel : nat) (s : pystr) : pystr :=
  match fuel with
  | O => s
  | S fuel' =>
    match match_titulo s with
    | Some (g1, g2, rest) => g1 ++ [DOT] ++ g2 ++ sub_titulo fuel' rest
    | None =>
      match s with
      | c :: s' => c :: sub_titulo fuel' s'
      | [] => []
      end
    end
  end.

Definition ajustar_titulo (titulo : pystr) : pystr :=
  sub_titulo (length titulo) titulo.

(** [rowv.get(col_h, "")] turned into text. *)
Definition rowv_get_str (cols : list pystr) (rowv : list value) (col_h : pystr)
  : pystr :=
  match index_of col_h cols with
  | Some i => py_str (nth i rowv VNaN)
  | None => []
  end.

(** One turn of the loop over [df.iterrows()]: the runs of a table row. *)
Definition docx_linha (cols : list pystr) (rowv : list value) : list Run :=
  let is_especial :=
    match index_of DESCRICAO cols with
    | Some i => isin linhas_especiais (nth i rowv VNaN)
    | None => false
    end in
  map (fun col_h =>
         let val := rowv_get_str cols rowv col_h in
         let val :=
           if str_eqb col_h col_DESCONTOS && negb (Nat.eqb (length (strip val)) 0)
           then formatar_valor_brl nd val
           else val in
         mkRun val Arial is_especial (if is_especial then 11 else 9)
               (if is_especial then (255, 0, 0) else (0, 0, 0))
               (str_eqb col_h DESCRICAO))
      [col_COD; DESCRICAO; col_DESCONTOS; col_DATA].

Definition gerar_docx_finais (df : DataFrame) (titulo : pystr) : Docx :=
  let titulo_ajust := ajustar_titulo titulo in
  if df_empty df
  then DocVazio titulo_ajust (u "DataFrame vazio - nenhum dado para exibir.")
  else DocTabela titulo_ajust [col_COD; DESCRICAO; col_DESCONTOS; col_DATA]
                 (map (docx_linha (columns df)) (data df)).

End FinalDocument.

(** The title [main] gives the final report. *)
Definition final_title (nome_user nit_user : pystr) : pystr :=
  u "Descontos Finais - " ++ nome_user ++ u " - " ++ nit_user.

(* ================================================================= *)
(** ** [main]: from the extracted items to the matcher

    The step of [main] that follows the button ["Filtrar com Rubricas"]:
    the columns are renamed and the items with a blank total are dropped.
    The columns of the frames at hand hold Python objects, so [.str.strip()]
    leaves NaN where a cell is no text, and NaN differs from [""]. *)

(** [df.rename(columns=m)] *)
Definition rename_columns (df : DataFrame) (m : list (pystr * pystr))
  : DataFrame :=
  mkDF (map (fun c => match find (fun kv => str_eqb (fst kv) c) m with
                      | Some kv => snd kv
                      | None => c
                      end)
            (columns df))
       (data df).

(** [series.str.strip() != ""], one cell. *)
Definition nao_vazio (x : value) : bool :=
  match x with
  | VStr s => negb (str_eqb (strip s) [])
  | VNaN => true
  end.

(** [df_aux] as [main] builds it from [df_contra]. *)
Definition preparar_descontos (df_contra : DataFrame) : result DataFrame :=
  let df_aux :=
    rename_columns df_contra
      [(col_Descricao, DESCRICAO); (col_TOTAL, col_DESCONTOS)] in
  totais <- getitem df_aux col_DESCONTOS ;;
  Ok (mkDF (columns df_aux)
           (map snd (filter (fun vr : value * list value => nao_vazio (fst vr))
                            (combine totais (data df_aux))))).

(* ================================================================= *)
(** ** [main]: the selection of descriptions

    The form ["form_inclusao_descontos"]: the descriptions of the matched
    rows are listed once each, in order, with the number of rows that carry
    them; the boxes ticked by the user are the input [marcados], one for
    each description listed. *)

(** [a < b] on [str]: by code point. *)
Fixpoint str_ltb (a b : pystr) : bool :=
  match a, b with
  | [], [] => false
  | [], _ :: _ => true
  | _ :: _, [] => false
  | x :: a', y :: b' =>
    if x <? y then true else if y <? x then false else str_ltb a' b'
  end.

(** [a < b] on cells: text against the float NaN raises. *)
Definition value_ltb (a b : value) : result bool :=
  match a, b with
  | VStr x, VStr y => Ok (str_ltb x y)
  | VNaN, VNaN => Ok false
  | _, _ => Raise TypeError
  end.

(** [sorted(xs)]: a stable sort that compares with [<] alone. *)
Fixpoint insert_sorted (x : value) (l : list value) : result (list value) :=
  match l with
  | [] => Ok [x]
  | y :: l' =>
    b <- value_ltb y x ;;
    if b then r <- insert_sorted x l' ;; Ok (y :: r)
    else Ok (x :: y :: l')
  end.

Fixpoint sorted (xs : list value) : result (list value) :=
  match xs with
  | [] => Ok []
  | x :: xs' => r <- sorted xs' ;; insert_sorted x r
  end.

(** Whether two cells are one value for the hash tables of pandas, where
    NaN is NaN. *)
Definition same_value (a b : value) : bool :=
  match a, b with
  | VStr x, VStr y => str_eqb x y
  | VNaN, VNaN => true
  | _, _ => false
  end.

(** [series.unique()] on a column that may hold NaN: the values in the
    order they first appear, NaN once.  (The matcher stops at a NaN before
    this matters to it.) *)
Fixpoint series_unique (xs : list value) : list value :=
  match xs with
  | [] => []
  | x :: xs' => x :: filter (fun y => negb (same_value x y)) (series_unique xs')
  end.

(** [series.isin(sel)], one cell. *)
Definition isin_values (sel : list value) (x : value) : bool :=
  existsb (same_value x) sel.

(** [valores_unicos] *)
Definition valores_unicos (df_sel : DataFrame) : result (list value) :=
  descricoes <- getitem df_sel DESCRICAO ;;
  sorted (series_unique descricoes).

(** [qtd] for one listed description. *)
Definition qtd (df_sel : DataFrame) (val_item : value) : result nat :=
  descricoes <- getitem df_sel DESCRICAO ;;
  Ok (length (filter (fun x => value_eqb x val_item) descricoes)).

(** What the button ["Confirmar Inclusão (Descontos)"] stores: the rows
    whose description is ticked, or nothing when no box is ticked. *)
Definition confirmar_inclusao (df_sel : DataFrame) (marcados : list bool)
  : result (option DataFrame) :=
  valores <- valores_unicos df_sel ;;
  let selected_descr := map snd (filter fst (combine marcados valores)) in
  match selected_descr with
  | [] => Ok None
  | _ :: _ =>
    descricoes <- getitem df_sel DESCRICAO ;;
    Ok (Some (mkDF (columns df_sel)
                   (map snd
                        (filter (fun xr : value * list value =>
                                   isin_values selected_descr (fst xr))
                                (combine descricoes (data df_sel))))))
  end.

(* ================================================================= *)
(** ** Statements of the specification, in its own words *)

(** "The first substring matching [MM/YYYY] (two digits, slash, four
    digits)". *)
Definition mm_yyyy (nd : char -> option Z) (m : pystr) : Prop :=
  exists d1 d2 d3 d4 d5 d6,
    m = [d1; d2; 47; d3; d4; d5; d6]
    /\ Forall (fun c => is_decimal nd c = true) [d1; d2; d3; d4; d5; d6].

(** A string matches a pattern class by class. *)
Definition matches (p : pattern) (m : pystr) : Prop :=
  Forall2 (fun (cls : char -> bool) c => cls c = true) p m.

(** [m] occurs in [text] at offset [i]. *)
Definition occurs_at (m text : pystr) (i : nat) : Prop :=
  exists pre post, text = pre ++ m ++ post /\ length pre = i.

(** The segments of a cell: the pieces between its line breaks. *)
Definition segmentos (x : value) : list pystr := split NL (py_str x).

(** "Let k = the maximum segment count across that row's cells.  Emit k
    output rows; for output row i, each column takes its i-th segment
    (trimmed) or empty string if that cell had fewer segments." *)
Definition linha_expandida (row : list value) (i : nat) : list value :=
  map (fun x => VStr (match nth_error (segmentos x) i with
                      | Some seg => strip seg
                      | None => []
                      end))
      row.

Definition max_segmentos (row : list value) : nat :=
  list_max (map (fun x => length (segmentos x)) row).

Definition linhas_expandidas (row : list value) : list (list value) :=
  map (linha_expandida row) (seq 0 (max_segmentos row)).

(** The inverse of [split]: the parts with the separator between them. *)
Fixpoint join (sep : char) (parts : list pystr) : pystr :=
  match parts with
  | [] => []
  | [p] => p
  | p :: ps => p ++ sep :: join sep ps
  end.

(** The rows one data row expands to, as the specification words them:
    [k] rows, [k] the greatest segment count of the row. *)
Definition expansao_de (row : list value) (bloco : list (list value)) : Prop :=
  let k := max_segmentos row in
  length bloco = k
  /\ (forall x, In x row -> (length (segmentos x) <= k)%nat)
  /\ (exists x, In x row /\ length (segmentos x) = k)
  /\ forall i, (i < k)%nat ->
       exists out,
         nth_error bloco i = Some out
         /\ length out = length row
         /\ forall j x, nth_error row j = Some x ->
              nth_error out j
              = Some (VStr (match nth_error (segmentos x) i with
                            | Some seg => strip seg
                            | None => []
                            end)).

(** "Project the result down to the four externally consumed fields: Code,
    Description, Total, Date": the item made from an expanded row whose six
    cells are, by position, Description, PVD, Code, Base, UnitValue, Total. *)
Definition item_de (d : pystr) (r : list value) : list value :=
  [nth 2 r VNaN; nth 0 r VNaN; nth 5 r VNaN; VStr d].

(** "The best approximate-similarity score against every vocabulary entry":
    the greatest [fuzz.ratio] of the description and an entry, both
    normalised. *)
Definition melhor_pontuacao
  (full_process : pystr -> pystr) (seq_ratio : pystr -> pystr -> Z)
  (rubricas : list pystr) (desc : pystr) : Z :=
  fold_right Z.max 0
    (map (fun r => fuzz_ratio seq_ratio (full_process desc) (full_process r))
         rubricas).

(** "A": the sum of the parsed totals.  "B": the parsed received amount. *)
Definition valor_A (nd : char -> option Z) (valores : list value) : float :=
  series_sum (map (_to_float nd) valores).

Definition texto_B (st : State) : pystr :=
  or_zero (get_state_value st (u "valor_recebido")).

Definition valor_B (nd : char -> option Z) (st : State) : float :=
  match py_float nd (strip (replace COMMA [DOT] (texto_B st))) with
  | Ok f => f
  | Raise _ => f64_zero
  end.

(** The columns of the frame [inserir_totais_na_coluna] builds: those of the
    input, and ["DESCRIÇÃO"] when the input lacks it. *)
Definition colunas_finais (df : DataFrame) : list pystr :=
  columns df ++ (if str_in DESCRICAO (columns df) then [] else [DESCRICAO]).

(** "Every field blank except description marker and formatted amount": a
    row laid out as [cols] that holds [marca] under ["DESCRIÇÃO"], [valor]
    under the amount column and the empty string everywhere else. *)
Definition linha_de_resumo (cols : list pystr) (col_valor marca valor : pystr)
  (r : list value) : Prop :=
  Forall2 (fun c x =>
             x = if str_eqb c col_valor then VStr valor
                 else if str_eqb c DESCRICAO then VStr marca
                 else VStr [])
          cols r.

(** The description of a row is one of the four marker strings. *)
Definition descricao_marcadora (cols : list pystr) (r : list value) : Prop :=
  exists s, cell cols r DESCRICAO = VStr s /\ In s linhas_especiais.

(** A data row whose description is one of the four markers keeps its
    description and its amount and loses every other field. *)
Definition linha_esvaziada (cols cols' : list pystr) (col_valor : pystr)
  (r r' : list value) : Prop :=
  Forall2 (fun c x =>
             x = if str_in c [DESCRICAO; col_valor] then cell cols r c
                 else VStr [])
          cols' r'.

(** A data row that passes through: each field of the output is the field
    of the input under the same label. *)
Definition linha_preservada (cols cols' : list pystr) (r r' : list value) : Prop :=
  Forall2 (fun c x => x = cell cols r c) cols' r'.

(** Style of a printed cell. *)
Definition estilo_resumo (c : PdfCell) : Prop :=
  cell_font c = mkFont Arial (u "B") 11 /\ cell_color c = (255, 0, 0).

Definition estilo_normal (c : PdfCell) : Prop :=
  cell_font c = mkFont Arial [] 9 /\ cell_color c = (0, 0, 0).

(** An ASCII decimal digit. *)
Definition digit (c : char) : Prop := 48 <= c <= 57.

(** A character of an unsigned decimal literal: a digit or the point. *)
Definition plain (c : char) : Prop := digit c \/ c = DOT.

(** "PT-BR convention: [.] as thousands separator, [,] as decimal separator,
    exactly two decimal places", for a non-negative number of hundredths. *)
Definition ptbr_canonico (cents : Z) : pystr := fmt_cents_with DOT COMMA cents.

(** How the program renders a number: [f"{x:,.2f}"] when the summary rows
    are built, then [formatar_valor_brl] when the report is printed. *)
Definition format_brl (nd : char -> option Z) (x : float) : pystr :=
  formatar_valor_brl nd (format_2f x).

(* ================================================================= *)
(** ** Notions used in the proofs *)

(** A frame whose rows are given field by field: the row of [f] holds [f c]
    under each label [c]. *)
Definition frame_of_fields (cols : list pystr) (fs : list (pystr -> value))
  : DataFrame :=
  mkDF cols (map (fun f => map f cols) fs).

(** The effect of [df.loc[mask, c] = ""] on the fields of a masked row. *)
Definition limpar_campo (c : pystr) (f : pystr -> value) : pystr -> value :=
  fun c' => if str_eqb c' c then VStr [] else f c'.

(** The effect of the clearing loop over the labels [l] on the fields of a
    masked row. *)
Definition limpar (col_valor : pystr) (l : list pystr) (f : pystr -> value)
  : pystr -> value :=
  fun c' =>
    if str_in c' l && negb (str_in c' [DESCRICAO; col_valor])
    then VStr [] else f c'.

(** The three replacements that end [formatar_valor_brl], on one
    character. *)
Definition trocar (c : char) : char :=
  let c1 := if char_eqb c COMMA then LETTER_X else c in
  let c2 := if char_eqb c1 DOT then COMMA else c1 in
  if char_eqb c2 LETTER_X then DOT else c2.

(* ================================================================= *)
(** ** Sample inputs *)

(** A Unicode table with no digit beyond ASCII. *)
Definition so_ascii : char -> option Z := fun _ => None.

Definition paginas_exemplo : list pystr :=
  [u "GOVERNO DO ESTADO  COMPETÊNCIA 03/2024  EMISSÃO 05/04/2024"].

Definition tabela_seis_colunas : Table :=
  mkTable
    [[u "SEAD"; u ""; u ""; u ""; u ""; u ""];
     [u "DESCRIÇÃO"; u "PVD"; u "COD"; u "BASE"; u "VALOR UNITÁRIO"; u "TOTAL"];
     [[69; 77; 80; 82; 10; 83; 69; 71]; u "D"; [49; 48; 49; 10; 50; 48; 50];
      u ""; u ""; [49; 48; 48; 44; 48; 48; 10; 53; 48; 44; 48; 48]]]
    1.

Definition tabela_sete_colunas : Table :=
  mkTable
    [[u "DESCRIÇÃO"; u "PVD"; u "COD"; u "BASE"; u "VALOR UNITÁRIO"; u "TOTAL";
      u "OBS"];
     [u "EMPRESTIMO"; u "D"; u "101"; u ""; u ""; u "100,00"; u ""]]
    1.

Definition descontos_exemplo : DataFrame :=
  mkDF [col_COD; DESCRICAO; col_DESCONTOS; col_DATA]
       [[VStr (u "101"); VStr (u "EMPRESTIMO"); VStr (u "100,00");
         VStr (u "01/2024")];
        [VStr (u "102"); VStr (u "Indébito (A-B)"); VStr (u "50,00");
         VStr (u "02/2024")]].

(** A selection whose only total carries a thousands separator. *)
Definition descontos_milhar : DataFrame :=
  mkDF [col_COD; DESCRICAO; col_DESCONTOS; col_DATA]
       [[VStr (u "101"); VStr (u "EMPRESTIMO"); VStr (u "1.234,56");
         VStr (u "01/2024")]].

(** Two selections of eight rows, the length from which the sum of a
    column is taken in partial sums. *)
Definition oito_linhas (totais : list pystr) : DataFrame :=
  mkDF [DESCRICAO; col_DESCONTOS]
       (map (fun t => [VStr (u "EMPRESTIMO"); VStr t]) totais).

Definition totais_residuo : list pystr :=
  [u "-1,1"; u "-0,7"; u "1,1"; u "-0,1"; u "0,7"; u "-0,7"; u "0,1"; u "0,7"].

Definition totais_anulados : list pystr :=
  [u "-0,3"; u "0,2"; u "0,4"; u "-1,1"; u "0,4"; u "-0,1"; u "0,7"; u "-0,2"].

Definition estado_exemplo : State :=
  mkState (Some (u "FULANO DE TAL")) (Some (u "014.642-0 C"))
          (Some (u "50,00")).

Definition pdf_exemplo : PDF :=
  mkPDF (u "Descontos Finais") 210 25 0 (mkFont Arial [] 9) (0, 0, 0)
        (200, 220, 255) [].

(** A stand-in for the similarity of two distinct non-empty strings. *)
Definition razao_exemplo (a b : pystr) : Z :=
  if Nat.eqb (length a) (length b) then 90 else 40.

(* ================================================================= *)
(** ** Further notions for the statements *)

(** A character of a monetary text: a digit, a point or a comma. *)
Definition numeral (c : char) : Prop := digit c \/ c = DOT \/ c = COMMA.

(** The digits of a text, in order. *)
Definition so_digitos (s : pystr) : pystr := filter is_ascii_digit s.

(** A cell as [_separar_linhas_multiplas] leaves it: text with no line break
    and no white space at either end. *)
Definition limpa (x : value) : Prop :=
  exists s, x = VStr s /\ ~ In NL s /\ strip s = s.

(** The rows of a table under its header row: those after the first row
    that holds ["DESCRIÇÃO"]. *)
Definition linhas_de_dados (t : Table) : list (list pystr) :=
  match first_row_with DESCRICAO (grid t) with
  | Ok idx_cab => skipn (idx_cab + 1) (grid t)
  | Raise _ => []
  end.

(** The items one table contributes: its data rows, expanded, each with the
    date found on the table's page. *)
Definition itens_da_tabela (nd : char -> option Z) (pages : list pystr)
  (t : Table) : list (list value) :=
  match extrair_data_da_pagina nd pages (page t) with
  | Ok d =>
    map (item_de d)
        (List.concat (map linhas_expandidas (map (map VStr) (linhas_de_dados t))))
  | Raise _ => []
  end.

(** The rows a table adds to [dados], laid out as the table's frame is. *)
Definition linhas_da_tabela (nd : char -> option Z) (pages : list pystr)
  (t : Table) : list (list value) :=
  match extrair_data_da_pagina nd pages (page t) with
  | Ok d =>
    map (fun row => VStr d :: row)
        (map (fun row => row ++ [VStr (u "Página " ++ str_of_int (page t))])
             (List.concat
                (map linhas_expandidas (map (map VStr) (linhas_de_dados t)))))
  | Raise _ => []
  end.

(** The heading of a document. *)
Definition titulo_do_documento (d : Docx) : pystr :=
  match d with
  | DocVazio t _ => t
  | DocTabela t _ _ => t
  end.

(** The four cells of the report of the tables for one item: code,
    description, total (formatted when not blank) and date, in the plain
    type of the table body. *)
Definition celulas_do_item (nd : char -> option Z) (cols : list pystr)
  (cor : Color) (rowv : list value) : list PdfCell :=
  let txt c := py_str (cell cols rowv c) in
  let tot := txt col_TOTAL in
  [mkCell 30 7 (txt col_COD) (u "C") (mkFont Arial [] 9) cor;
   mkCell 150 7 (txt col_Descricao) (u "L") (mkFont Arial [] 9) cor;
   mkCell 40 7
          (if negb (Nat.eqb (length (strip tot)) 0)
           then formatar_valor_brl nd tot else tot)
          (u "R") (mkFont Arial [] 9) cor;
   mkCell 30 7 (txt col_DATA) (u "C") (mkFont Arial [] 9) cor].

(** The cells of the table body: those of the height of a row. *)
Definition corpo (cells : list PdfCell) : list PdfCell :=
  filter (fun c => cell_h c =? 7) cells.

(** An item as the normaliser leaves it: code, description and total are
    clean text, and the date is ["N/D"] or of the form [dd/dddd]. *)
Definition item_bem_formado (nd : char -> option Z) (it : list value) : Prop :=
  exists cod desc total d,
    it = [cod; desc; total; VStr d]
    /\ limpa cod /\ limpa desc /\ limpa total
    /\ (d = ND \/ mm_yyyy nd d).

(** A glossary file written one entry a line, each line ended by a line
    feed. *)
Definition texto_de_linhas (ls : list pystr) : pystr :=
  flat_map (fun l => l ++ [NL]) ls.

(** A text a registration number may be: what the expression of
    [extrair_nome_e_matricula] matches, cut at white space on the right:
    [ddd.ddd-d], then spaces and capital letters. *)
Definition forma_de_matricula (nd : char -> option Z) (s : pystr) : Prop :=
  exists m cauda,
    s = m ++ cauda
    /\ matches (matricula_pattern nd) m
    /\ Forall (fun c => isspace c || is_AZ c = true) cauda.

(** What the loop keeps true of the name. *)
Definition nome_valido (nd : char -> option Z) (nome : pystr) : Prop :=
  nome <> [] /\ strip nome = nome
  /\ Forall (fun c => is_decimal nd c = false) nome.

(** An item all of whose four fields are text. *)
Definition item_de_texto (it : list value) : Prop :=
  exists cod desc total d, it = [VStr cod; VStr desc; VStr total; VStr d].

(** The first page of a pay slip. *)
Definition pagina_exemplo : pystr :=
  u "NOME" ++ [NL] ++ u "  FULANO DE TAL 123" ++ [NL]
  ++ u "MATRÍCULA-SEQ-DIG" ++ [NL] ++ u " 014.642-0 C  x".

(* ================================================================= *)
(** * Properties *)

(** ** Text *)

Lemma str_eqb_eq (a b : pystr) : str_eqb a b = true <-> a = b.
Proof.
  revert b; induction a as [|x a IH]; intros [|y b]; simpl; split;
    try congruence; try reflexivity.
  - intros H. apply andb_true_iff in H as [Hx Ha].
    apply Z.eqb_eq in Hx. apply IH in Ha. congruence.
  - intros H. injection H as -> ->. apply andb_true_iff. split.
    + apply Z.eqb_refl.
    + now apply IH.
Qed.

Lemma str_eqb_refl (a : pystr) : str_eqb a a = true.
Proof. now apply str_eqb_eq. Qed.

Lemma str_eqb_neq (a b : pystr) : str_eqb a b = false <-> a <> b.
Proof.
  split.
  - intros H E. apply str_eqb_eq in E. congruence.
  - intros H. destruct (str_eqb a b) eqn:E; [|reflexivity].
    apply str_eqb_eq in E. contradiction.
Qed.

Lemma str_eqb_sym (a b : pystr) : str_eqb a b = str_eqb b a.
Proof.
  destruct (str_eqb a b) eqn:E.
  - apply str_eqb_eq in E. subst. symmetry. apply str_eqb_refl.
  - apply str_eqb_neq in E. symmetry. apply str_eqb_neq. congruence.
Qed.

Lemma str_in_In (x : pystr) (xs : list pystr) : str_in x xs = true <-> In x xs.
Proof.
  unfold str_in. rewrite existsb_exists. split.
  - intros (y & Hy & E). apply str_eqb_eq in E. now subst.
  - intros H. exists x. split; [assumption | apply str_eqb_refl].
Qed.

(** ** PageDateResolver *)

Lemma match_here_some (p : pattern) (s m : pystr) :
  match_here p s = Some m -> matches p m /\ exists post, s = m ++ post.
Proof.
  revert s m; induction p as [|cls p IH]; intros s m; simpl.
  - intros [= <-]. split; [constructor | now exists s].
  - destruct s as [|c s]; [discriminate|].
    destruct (cls c) eqn:Hc; [|discriminate].
    destruct (match_here p s) as [m'|] eqn:Hm; [|discriminate].
    intros [= <-]. destruct (IH _ _ Hm) as [Hall [post ->]].
    split; [now constructor | now exists post].
Qed.

Lemma match_here_none (p : pattern) (s m post : pystr) :
  match_here p s = None -> s = m ++ post -> ~ matches p m.
Proof.
  revert s m; induction p as [|cls p IH]; intros s m; simpl.
  - discriminate.
  - intros Hnone -> Hm. inversion Hm as [|cls' c p' m' Hc Hrest]; subst.
    simpl in Hnone. rewrite Hc in Hnone.
    destruct (match_here p (m' ++ post)) eqn:E; [discriminate|].
    exact (IH _ _ E eq_refl Hrest).
Qed.

Lemma re_search_some (p : pattern) (s m : pystr) :
  re_search p s = Some m ->
  exists i, occurs_at m s i /\ matches p m
            /\ forall m' j, occurs_at m' s j -> matches p m' -> (i <= j)%nat.
Proof.
  induction s as [|c s IH]; simpl.
  - destruct (match_here p []) as [m0|] eqn:E; [|discriminate].
    intros [= <-]. destruct (match_here_some _ _ _ E) as [Hm [post Hs]].
    exists O. split; [|split].
    + exists [], post. now split.
    + assumption.
    + intros; lia.
  - destruct (match_here p (c :: s)) as [m0|] eqn:E.
    + intros [= <-]. destruct (match_here_some _ _ _ E) as [Hm [post Hs]].
      exists O. split; [|split].
      * exists [], post. now split.
      * assumption.
      * intros; lia.
    + intros H. destruct (IH H) as (i & (pre & post & Hs & Hlen) & Hm & Hmin).
      exists (S i). split; [|split].
      * exists (c :: pre), post. split; [now rewrite Hs | simpl; lia].
      * assumption.
      * intros m' j (pre' & post' & Hs' & Hlen') Hm'.
        destruct pre' as [|c' pre'].
        -- exfalso. exact (match_here_none _ _ m' post' E Hs' Hm').
        -- injection Hs' as -> Hs'. simpl in Hlen'.
           assert (i <= length pre')%nat.
           { apply (Hmin m'); [now exists pre', post' | assumption]. }
           lia.
Qed.

Lemma re_search_none (p : pattern) (s m : pystr) (i : nat) :
  re_search p s = None -> occurs_at m s i -> ~ matches p m.
Proof.
  revert i; induction s as [|c s IH]; intros i; simpl.
  - destruct (match_here p []) eqn:E; [discriminate|].
    intros _ (pre & post & Hs & _).
    destruct pre; [|discriminate]. exact (match_here_none _ _ m post E Hs).
  - destruct (match_here p (c :: s)) eqn:E; [discriminate|].
    intros H (pre & post & Hs & Hlen).
    destruct pre as [|c' pre].
    + exact (match_here_none _ _ m post E Hs).
    + injection Hs as -> Hs. apply (IH (length pre) H). now exists pre, post.
Qed.

Lemma matches_date_pattern (nd : char -> option Z) (m : pystr) :
  matches (date_pattern nd) m <-> mm_yyyy nd m.
Proof.
  unfold matches, date_pattern, mm_yyyy. split.
  - intros H.
    repeat match goal with
           | H : Forall2 _ (_ :: _) _ |- _ => inversion H; subst; clear H
           | H : Forall2 _ [] _ |- _ => inversion H; subst; clear H
           end.
    match goal with H : char_eqb 47 _ = true |- _ =>
      apply Z.eqb_eq in H; subst end.
    do 6 eexists. split; [reflexivity|].
    repeat constructor; assumption.
  - intros (d1 & d2 & d3 & d4 & d5 & d6 & -> & H).
    repeat match goal with
           | H : Forall _ (_ :: _) |- _ => inversion H; subst; clear H
           end.
    repeat constructor; assumption.
Qed.

Lemma py_index_nth {A} (xs : list A) (i : Z) (x : A) :
  0 <= i -> nth_error xs (Z.to_nat i) = Some x -> py_index xs i = Ok x.
Proof.
  intros Hi Hx. unfold py_index.
  assert (Z.to_nat i < length xs)%nat by (apply nth_error_Some; congruence).
  destruct (i <? 0) eqn:E; [apply Z.ltb_lt in E; lia|].
  replace ((0 <=? i) && (i <? Z.of_nat (length xs))) with true.
  - now rewrite Hx.
  - symmetry. apply andb_true_iff. split; [apply Z.leb_le | apply Z.ltb_lt]; lia.
Qed.

(** C9. For the text of a page of the document, [extrair_data_da_pagina]
    returns the leftmost substring of the text made of two digits, a slash
    and four digits; when the text has no such substring it returns the
    sentinel ["N/D"]. *)
Theorem extrair_data_primeira_ocorrencia
  (nd : char -> option Z) (pages : list pystr) (page_number : Z) (text : pystr) :
  1 <= page_number ->
  nth_error pages (Z.to_nat (page_number - 1)) = Some text ->
  (exists m i,
      extrair_data_da_pagina nd pages page_number = Ok m
      /\ mm_yyyy nd m /\ occurs_at m text i
      /\ forall m' j, occurs_at m' text j -> mm_yyyy nd m' -> (i <= j)%nat)
  \/ (extrair_data_da_pagina nd pages page_number = Ok (u "N/D")
      /\ forall m i, occurs_at m text i -> ~ mm_yyyy nd m).
Proof.
  intros Hp Hx. unfold extrair_data_da_pagina.
  assert (Z.to_nat (page_number - 1) < length pages)%nat
    by (apply nth_error_Some; congruence).
  replace (page_number - 1 <? Z.of_nat (length pages)) with true
    by (symmetry; apply Z.ltb_lt; lia).
  rewrite (py_index_nth pages (page_number - 1) text) by (assumption || lia).
  simpl. destruct (re_search (date_pattern nd) text) as [m|] eqn:E.
  - left. destruct (re_search_some _ _ _ E) as (i & Hocc & Hm & Hmin).
    exists m, i. repeat split; try assumption.
    + now apply matches_date_pattern.
    + intros m' j Hocc' Hm'. apply (Hmin m' j Hocc').
      now apply matches_date_pattern.
  - right. split; [reflexivity|].
    intros m i Hocc Hm. apply (re_search_none _ _ _ _ E Hocc).
    now apply matches_date_pattern.
Qed.

(** ** Multi-line expansion *)

Lemma split_nonempty (sep : char) (s : pystr) : split sep s <> [].
Proof.
  destruct s as [|c s]; simpl; [discriminate|].
  destruct (char_eqb c sep); [discriminate|].
  destruct (split sep s); discriminate.
Qed.

Lemma split_join (sep : char) (s : pystr) : join sep (split sep s) = s.
Proof.
  induction s as [|c s IH]; [reflexivity|].
  simpl. destruct (char_eqb c sep) eqn:E.
  - apply Z.eqb_eq in E. subst c.
    pose proof (split_nonempty sep s) as Hne.
    simpl. destruct (split sep s) as [|p ps]; [contradiction|].
    now rewrite <- IH.
  - destruct (split sep s) as [|p ps] eqn:Hs.
    + now destruct (split_nonempty sep s).
    + rewrite <- IH. destruct ps; reflexivity.
Qed.

Lemma split_no_sep (sep : char) (s : pystr) :
  Forall (fun seg => ~ In sep seg) (split sep s).
Proof.
  induction s as [|c s IH]; simpl.
  - constructor; [intros [] | constructor].
  - destruct (char_eqb c sep) eqn:E.
    + constructor; [intros [] | assumption].
    + destruct (split sep s) as [|p ps].
      * constructor; [|constructor]. intros [H|[]]. subst.
        unfold char_eqb in E. rewrite Z.eqb_refl in E. discriminate.
      * inversion IH; subst. constructor; [|assumption].
        intros [H|H]; [|contradiction]. subst.
        unfold char_eqb in E. rewrite Z.eqb_refl in E. discriminate.
Qed.

Lemma split_length (sep : char) (s : pystr) :
  length (split sep s) = S (count_occ Z.eq_dec s sep).
Proof.
  induction s as [|c s IH]; [reflexivity|].
  simpl. unfold char_eqb. destruct (Z.eq_dec c sep) as [->|Hne].
  - rewrite Z.eqb_refl. simpl. now rewrite IH.
  - replace (c =? sep) with false by (symmetry; now apply Z.eqb_neq).
    destruct (split sep s); simpl in *; congruence.
Qed.

Lemma fold_left_max (xs : list nat) (x : nat) :
  fold_left Nat.max xs x = Nat.max x (list_max xs).
Proof.
  revert x; induction xs as [|y xs IH]; intros x; simpl.
  - lia.
  - rewrite IH. lia.
Qed.

Lemma py_max_list_max (xs : list nat) :
  xs <> [] -> py_max xs = Ok (list_max xs).
Proof.
  destruct xs as [|x xs]; [congruence|]. intros _. simpl.
  now rewrite fold_left_max.
Qed.

Lemma list_max_In (xs : list nat) : xs <> [] -> In (list_max xs) xs.
Proof.
  induction xs as [|x xs IH]; [congruence|]. intros _.
  destruct xs as [|y xs].
  - left. simpl. lia.
  - change (list_max (x :: y :: xs)) with (Nat.max x (list_max (y :: xs))).
    destruct (Nat.max_spec x (list_max (y :: xs))) as [[_ ->]|[_ ->]].
    + right. apply IH. discriminate.
    + now left.
Qed.

Lemma expandir_linha_spec (row : list value) :
  row <> [] -> expandir_linha row = Ok (linhas_expandidas row).
Proof.
  intros Hne. unfold expandir_linha.
  rewrite py_max_list_max by (destruct row; [congruence | discriminate]).
  simpl. f_equal. unfold linhas_expandidas, max_segmentos, segmentos.
  rewrite map_map. apply map_ext. intros i.
  unfold linha_expandida, segmentos. rewrite map_map. apply map_ext. intros x.
  destruct (Nat.ltb_spec i (length (split NL (py_str x)))) as [E|E].
  - now rewrite (nth_error_nth' _ [] E).
  - apply nth_error_None in E. now rewrite E.
Qed.

Lemma separar_acc (rows : list (list value)) (acc : list (list value)) :
  Forall (fun row => row <> []) rows ->
  for_each (fun acc row => novas <- expandir_linha row ;; Ok (acc ++ novas))
           rows acc
  = Ok (acc ++ List.concat (map linhas_expandidas rows)).
Proof.
  revert acc; induction rows as [|row rows IH]; intros acc Hall; simpl.
  - now rewrite app_nil_r.
  - inversion Hall; subst. rewrite expandir_linha_spec by assumption.
    simpl. rewrite IH by assumption. now rewrite app_assoc.
Qed.

Lemma separar_linhas_multiplas_spec (df : DataFrame) :
  Forall (fun row => row <> []) (data df) ->
  _separar_linhas_multiplas df
  = Ok (frame_of_records (columns df)
          (List.concat (map linhas_expandidas (data df)))).
Proof.
  intros H. unfold _separar_linhas_multiplas.
  now rewrite separar_acc.
Qed.

Lemma linhas_expandidas_expansao (row : list value) :
  row <> [] -> expansao_de row (linhas_expandidas row).
Proof.
  intros Hne. unfold expansao_de, linhas_expandidas. repeat split.
  - now rewrite length_map, length_seq.
  - intros x Hx. unfold max_segmentos.
    assert (Forall (fun k => (k <= list_max (map (fun x => length (segmentos x)) row))%nat)
                   (map (fun x => length (segmentos x)) row)) as Hall
      by (apply list_max_le; lia).
    rewrite Forall_forall in Hall. apply Hall.
    apply in_map_iff. now exists x.
  - unfold max_segmentos.
    assert (In (list_max (map (fun x => length (segmentos x)) row))
               (map (fun x => length (segmentos x)) row)) as Hin
      by (apply list_max_In; destruct row; [congruence | discriminate]).
    apply in_map_iff in Hin. destruct Hin as (x & Hx & Hin). now exists x.
  - intros i Hi. exists (linha_expandida row i). split; [|split].
    + rewrite nth_error_map, nth_error_seq.
      apply Nat.ltb_lt in Hi. rewrite Hi. reflexivity.
    + unfold linha_expandida. now rewrite length_map.
    + intros j x Hx. unfold linha_expandida.
      rewrite nth_error_map, Hx. reflexivity.
Qed.

(** C4. Every data row expands to exactly [k] output rows, where [k] is the
    greatest number of line-break-separated segments among the row's cells;
    output row [i] holds, column by column, the [i]-th segment of the cell,
    trimmed, or the empty string when the cell has fewer than [i+1]
    segments; the blocks follow one another in the order of the data rows. *)
Theorem separar_linhas_multiplas_expande (df : DataFrame) :
  Forall (fun row => row <> []) (data df) ->
  exists blocos,
    _separar_linhas_multiplas df
    = Ok (frame_of_records (columns df) (List.concat blocos))
    /\ Forall2 expansao_de (data df) blocos.
Proof.
  intros H. exists (map linhas_expandidas (data df)). split.
  - now apply separar_linhas_multiplas_spec.
  - induction H as [|row rows Hrow Hrows IH]; simpl; constructor.
    + now apply linhas_expandidas_expansao.
    + assumption.
Qed.

(** The example of the specification: cells ["A\nB"] and ["1\n2"]. *)
Example expande_A_B :
  _separar_linhas_multiplas
    (mkDF [u "x"; u "y"] [[VStr [65; 10; 66]; VStr [49; 10; 50]]])
  = Ok (mkDF [u "x"; u "y"]
             [[VStr (u "A"); VStr (u "1")]; [VStr (u "B"); VStr (u "2")]]).
Proof. reflexivity. Qed.

(** ** RawTableNormalizer *)

Lemma isin_row_marker (x : pystr) (row : list pystr) :
  existsb (fun c => str_in c [x]) row = str_in x row.
Proof.
  unfold str_in. induction row as [|c row IH]; [reflexivity|].
  simpl in *. rewrite IH, orb_false_r. now rewrite (str_eqb_sym c x).
Qed.

Lemma in_values_app (x : pystr) (g1 g2 : list (list pystr)) :
  in_values x (g1 ++ g2) = in_values x g1 || in_values x g2.
Proof. unfold in_values. apply existsb_app. Qed.

Lemma first_row_with_header (x : pystr) (above : list (list pystr))
      (hdr : list pystr) (below : list (list pystr)) :
  in_values x above = false -> In x hdr ->
  first_row_with x (above ++ hdr :: below) = Ok (length above).
Proof.
  intros Habove Hhdr. induction above as [|row above IH];
    cbn [app first_row_with length].
  - rewrite isin_row_marker.
    now replace (str_in x hdr) with true by (symmetry; now apply str_in_In).
  - cbn [in_values existsb] in Habove.
    apply orb_false_iff in Habove as [Hrow Habove].
    rewrite isin_row_marker, Hrow. now rewrite IH.
Qed.

Lemma extrair_data_ok (nd : char -> option Z) (pages : list pystr) (p : Z) :
  1 <= p -> exists d, extrair_data_da_pagina nd pages p = Ok d.
Proof.
  intros Hp. unfold extrair_data_da_pagina.
  destruct (p - 1 <? Z.of_nat (length pages)) eqn:E; [|now exists ND].
  apply Z.ltb_lt in E.
  destruct (nth_error pages (Z.to_nat (p - 1))) as [text|] eqn:Hn.
  - rewrite (py_index_nth pages (p - 1) text) by (assumption || lia).
    simpl. destruct (re_search (date_pattern nd) text); eauto.
  - apply nth_error_None in Hn. lia.
Qed.

Lemma frame_of_grid_width (n : nat) (g : list (list pystr)) :
  length (columns (frame_of_grid n g)) = n.
Proof. unfold frame_of_grid. cbn [columns]. now rewrite length_map, length_seq. Qed.

(** A table none of whose cells equals ["DESCRIÇÃO"] is
    skipped: the turn of the loop leaves the accumulated items as they are
    and raises nothing. *)
Lemma tabela_sem_cabecalho (nd : char -> option Z) (pages : list pystr)
      (dados : DataFrame) (t : Table) :
  in_values DESCRICAO (grid t) = false ->
  processar_tabela nd pages dados t = Ok dados.
Proof. intros H. unfold processar_tabela. now rewrite H. Qed.

(** A table with the header and fewer than six columns is skipped too. *)
Lemma tabela_menos_de_seis_colunas (nd : char -> option Z) (pages : list pystr)
      (dados : DataFrame) (t : Table) :
  in_values DESCRICAO (grid t) = true ->
  (shape1 (grid t) < 6)%nat ->
  processar_tabela nd pages dados t = Ok dados.
Proof.
  intros H Hn. unfold processar_tabela. rewrite H.
  destruct (first_row_with DESCRICAO (grid t)) as [i|e] eqn:E.
  - cbn [bind]. rewrite frame_of_grid_width.
    now replace (Nat.leb 6 (shape1 (grid t))) with false
      by (symmetry; apply Nat.leb_gt; lia).
  - exfalso. clear - H E. induction (grid t) as [|row g IH]; [discriminate|].
    cbn [first_row_with in_values existsb] in *. rewrite isin_row_marker in E.
    destruct (str_in DESCRICAO row); [discriminate|].
    destruct (first_row_with DESCRICAO g); [discriminate|].
    now apply IH.
Qed.

(** A table with the header and more than six columns makes the turn of the
    loop raise: six names are assigned to a frame of more columns. *)
Lemma tabela_mais_de_seis_colunas (nd : char -> option Z) (pages : list pystr)
      (dados : DataFrame) (t : Table) :
  in_values DESCRICAO (grid t) = true ->
  (6 < shape1 (grid t))%nat ->
  exists e, processar_tabela nd pages dados t = Raise e.
Proof.
  intros H Hn. unfold processar_tabela. rewrite H.
  destruct (first_row_with DESCRICAO (grid t)) as [i|e] eqn:E; [|now exists e].
  cbn [bind]. rewrite frame_of_grid_width.
  replace (Nat.leb 6 (shape1 (grid t))) with true
    by (symmetry; apply Nat.leb_le; lia).
  unfold set_columns. rewrite frame_of_grid_width.
  rewrite length_firstn. change (length nomes_canonicos) with 6%nat.
  replace (Nat.eqb (Nat.min (shape1 (grid t)) 6) (shape1 (grid t))) with false
    by (symmetry; apply Nat.eqb_neq; lia).
  now exists ValueError.
Qed.

Lemma linhas_expandidas_length (row : list value) :
  Forall (fun r => length r = length row) (linhas_expandidas row).
Proof.
  unfold linhas_expandidas. apply Forall_forall. intros r Hr.
  apply in_map_iff in Hr as (i & <- & _).
  unfold linha_expandida. now rewrite length_map.
Qed.

Lemma linhas_expandidas_nonempty (row : list value) :
  row <> [] -> linhas_expandidas row <> [].
Proof.
  intros Hne. destruct row as [|x row]; [congruence|].
  unfold linhas_expandidas, max_segmentos. simpl map at 2.
  assert (1 <= length (segmentos x))%nat as Hx.
  { unfold segmentos. pose proof (split_nonempty NL (py_str x)).
    destruct (split NL (py_str x)); [congruence | simpl; lia]. }
  simpl list_max.
  destruct (Nat.max (length (segmentos x))
                    (list_max (map (fun x0 => length (segmentos x0)) row)))
    eqn:E; [lia | discriminate].
Qed.

Lemma concat_expandidas_length (n : nat) (rows : list (list value)) :
  Forall (fun row => length row = n) rows ->
  Forall (fun r => length r = n) (List.concat (map linhas_expandidas rows)).
Proof.
  induction 1 as [|row rows Hrow Hrows IH]; simpl; [constructor|].
  apply Forall_app. split; [|assumption].
  rewrite <- Hrow. apply linhas_expandidas_length.
Qed.

Lemma item_de_reindex (d pag : pystr) (r : list value) :
  length r = 6%nat ->
  reindex [col_COD; col_Descricao; col_TOTAL; col_DATA]
          [col_COD; col_Descricao; col_TOTAL; col_DATA]
    (reindex [col_DATA; col_COD; col_Descricao; col_TOTAL]
             [col_COD; col_Descricao; col_TOTAL; col_DATA]
             [VStr d; nth 2 r VNaN; nth 0 r VNaN; nth 5 r VNaN])
  = item_de d r.
Proof. intros _. reflexivity. Qed.

Lemma skipn_header {A} (above : list A) (hdr : A) (below : list A) :
  skipn (length above + 1) (above ++ hdr :: below) = below.
Proof.
  induction above as [|x above IH]; [reflexivity|]. simpl. exact IH.
Qed.

Lemma shape1_six (g : list (list pystr)) (row : list pystr) :
  Forall (fun r => length r = 6%nat) g -> In row g -> shape1 g = 6%nat.
Proof.
  intros Hall Hin. destruct g as [|r g]; [contradiction|].
  inversion Hall; subst. assumption.
Qed.

Lemma itens_projetados (d pag : pystr) (linhas : list (list value)) :
  Forall (fun r => length r = 6%nat) linhas ->
  map (reindex (columns dados_inicial) [col_COD; col_Descricao; col_TOTAL; col_DATA])
      (map (reindex (col_DATA :: nomes_canonicos ++ [col_Competencia])
                    (columns dados_inicial))
           (map (fun row => VStr d :: row)
                (map (fun row => row ++ [VStr pag]) linhas)))
  = map (item_de d) linhas.
Proof.
  intros Hall. rewrite !map_map. apply map_ext_in. intros r Hr.
  rewrite Forall_forall in Hall. specialize (Hall r Hr).
  destruct r as [|a [|b [|c [|e [|f [|g [|? ?]]]]]]]; try discriminate.
  reflexivity.
Qed.

Lemma concat_inicial (rows : list (list value)) :
  concat dados_inicial
         (mkDF (col_DATA :: nomes_canonicos ++ [col_Competencia]) rows)
  = mkDF (columns dados_inicial)
         (map (reindex (col_DATA :: nomes_canonicos ++ [col_Competencia])
                       (columns dados_inicial))
              rows).
Proof. reflexivity. Qed.

Lemma select_inicial (rows : list (list value)) :
  select (mkDF (columns dados_inicial) rows)
         [col_COD; col_Descricao; col_TOTAL; col_DATA]
  = Ok (mkDF [col_COD; col_Descricao; col_TOTAL; col_DATA]
             (map (reindex (columns dados_inicial)
                           [col_COD; col_Descricao; col_TOTAL; col_DATA])
                  rows)).
Proof. reflexivity. Qed.

Lemma tabelas_sem_cabecalho (nd : char -> option Z) (pages : list pystr)
      (tables : list Table) (dados : DataFrame) :
  Forall (fun t => in_values DESCRICAO (grid t) = false) tables ->
  for_each (processar_tabela nd pages) tables dados = Ok dados.
Proof.
  induction 1 as [|t tables Ht Hts IH]; [reflexivity|].
  cbn [for_each]. rewrite tabela_sem_cabecalho by assumption. exact IH.
Qed.

(** C8. The header is the first row with a cell equal to ["DESCRIÇÃO"]:
    that row and the rows above it give no item, and the items of the table
    are made from the rows below it.  A table (or a document of tables)
    without such a cell yields no items, and no error. *)
Theorem cabecalho_descricao (nd : char -> option Z) (pages : list pystr) :
  (forall dados t,
      in_values DESCRICAO (grid t) = false ->
      processar_tabela nd pages dados t = Ok dados)
  /\ (forall tables,
         Forall (fun t => in_values DESCRICAO (grid t) = false) tables ->
         processar_contracheques_camelot nd pages tables = Some dados_inicial)
  /\ (forall above hdr below p,
         Forall (fun row => length row = 6%nat) (above ++ hdr :: below) ->
         in_values DESCRICAO above = false ->
         In DESCRICAO hdr ->
         1 <= p ->
         exists d,
           extrair_data_da_pagina nd pages p = Ok d
           /\ processar_contracheques_camelot nd pages
                [mkTable (above ++ hdr :: below) p]
              = Some
                  match below with
                  | [] => dados_inicial
                  | _ :: _ =>
                    mkDF [col_COD; col_Descricao; col_TOTAL; col_DATA]
                         (map (item_de d)
                              (List.concat
                                 (map linhas_expandidas
                                      (map (map VStr) below))))
                  end).
Proof.
  split; [|split].
  - intros dados t H. now apply tabela_sem_cabecalho.
  - intros tables H. unfold processar_contracheques_camelot, processar_tabelas.
    now rewrite tabelas_sem_cabecalho.
  - intros above hdr below p Hrect Habove Hhdr Hp.
    destruct (extrair_data_ok nd pages p Hp) as [d Hd].
    exists d. split; [assumption|].
    assert (Forall (fun row : list value => length row = 6%nat)
                   (map (map VStr) below)) as Hbelow.
    { apply Forall_app in Hrect as [_ Hrect]. inversion Hrect; subst.
      apply Forall_forall. intros r Hr. apply in_map_iff in Hr as (r0 & <- & Hr0).
      rewrite length_map.
      match goal with H : Forall _ below |- _ =>
        rewrite Forall_forall in H; now apply H end. }
    unfold processar_contracheques_camelot, processar_tabelas.
    cbn [for_each]. unfold processar_tabela. cbn [grid page].
    rewrite in_values_app. cbn [in_values existsb].
    replace (str_in DESCRICAO hdr) with true by (symmetry; now apply str_in_In).
    rewrite orb_true_l, orb_true_r.
    rewrite first_row_with_header by assumption.
    cbn [bind]. rewrite skipn_header, frame_of_grid_width.
    rewrite (shape1_six (above ++ hdr :: below) hdr Hrect)
      by (apply in_or_app; right; now left).
    change (Nat.leb 6 6) with true. cbv iota.
    change (firstn 6 nomes_canonicos) with nomes_canonicos.
    unfold set_columns. rewrite frame_of_grid_width.
    change (Nat.eqb (length nomes_canonicos) 6) with true. cbv iota.
    cbn [bind]. unfold frame_of_grid at 1. cbn [data].
    rewrite separar_linhas_multiplas_spec.
    2:{ cbn [data]. eapply Forall_impl; [|exact Hbelow].
        intros r Hr E. rewrite E in Hr. discriminate. }
    cbn [bind data columns]. rewrite Hd. cbn [bind].
    destruct below as [|r below].
    + reflexivity.
    + pose proof (concat_expandidas_length _ _ Hbelow) as Hlen.
      assert (List.concat (map linhas_expandidas (map (map VStr) (r :: below)))
              <> []) as Hne.
      { cbn [map List.concat]. intros E. apply app_eq_nil in E as [E _].
        revert E. apply linhas_expandidas_nonempty.
        inversion Hbelow; subst. intros E.
        match goal with H : length (map VStr r) = 6%nat |- _ =>
          rewrite E in H; discriminate end. }
      destruct (List.concat (map linhas_expandidas (map (map VStr) (r :: below))))
        as [|l linhas] eqn:El; [congruence|].
      unfold frame_of_records.
      change (setitem_scalar (mkDF nomes_canonicos (l :: linhas)) col_Competencia
                (VStr (u "Página " ++ str_of_int p)))
        with (mkDF (nomes_canonicos ++ [col_Competencia])
                   (map (fun row => row ++ [VStr (u "Página " ++ str_of_int p)])
                        (l :: linhas))).
      change (insert0 (mkDF (nomes_canonicos ++ [col_Competencia])
                            (map (fun row => row ++ [VStr (u "Página " ++ str_of_int p)])
                                 (l :: linhas)))
                      col_DATA (VStr d))
        with (Ok (mkDF (col_DATA :: nomes_canonicos ++ [col_Competencia])
                       (map (fun row => VStr d :: row)
                            (map (fun row => row ++ [VStr (u "Página " ++ str_of_int p)])
                                 (l :: linhas))))).
      cbn [bind]. rewrite concat_inicial. cbn [map].
      change (negb (df_empty (mkDF (columns dados_inicial) (?[x] :: ?[xs]))))
        with true.
      cbv iota. rewrite select_inicial. do 2 f_equal.
      rewrite <- !map_cons.
      apply (itens_projetados d (u "Página " ++ str_of_int p) _ Hlen).
Qed.

(** The marker is compared exactly: a header cell in another letter case
    does not make a header row, and the table is skipped. *)
Example cabecalho_outra_caixa :
  processar_contracheques_camelot so_ascii paginas_exemplo
    [mkTable
       [[u "Descrição"; u "PVD"; u "COD"; u "BASE"; u "VALOR UNITÁRIO";
         u "TOTAL"];
        [u "EMPRESTIMO"; u "D"; u "101"; u ""; u ""; u "100,00"]]
       1]
  = Some dados_inicial.
Proof. vm_compute. reflexivity. Qed.

(** C5. A table with the header row and seven columns: the six canonical
    names are assigned to a frame of seven columns, which raises
    (length mismatch); the handler of [processar_contracheques_camelot]
    returns [None], and the items of a well-formed table read before it are
    lost with it.  The same table cut to six columns is normalised. *)
Theorem sete_colunas_interrompe :
  processar_contracheques_camelot so_ascii paginas_exemplo [tabela_sete_colunas]
  = None
  /\ processar_contracheques_camelot so_ascii paginas_exemplo
       [tabela_seis_colunas; tabela_sete_colunas]
     = None
  /\ processar_contracheques_camelot so_ascii paginas_exemplo
       [mkTable (map (firstn 6) (grid tabela_sete_colunas)) 1]
     = Some (mkDF [col_COD; col_Descricao; col_TOTAL; col_DATA]
                  [[VStr (u "101"); VStr (u "EMPRESTIMO"); VStr (u "100,00");
                    VStr (u "03/2024")]]).
Proof. repeat split; vm_compute; reflexivity. Qed.

(** ** RubricMatcher *)

Section RubricMatcherFacts.

Variable full_process : pystr -> pystr.
Variable seq_ratio : pystr -> pystr -> Z.
Hypothesis seq_ratio_range : forall a b, 0 <= seq_ratio a b <= 100.

Variable rubricas : list pystr.
Variable threshold : Z.

Local Abbreviation score desc r :=
  (fuzz_ratio seq_ratio (full_process desc) (full_process r)).

Local Abbreviation best := (melhor_pontuacao full_process seq_ratio rubricas).

Lemma fuzz_ratio_range (a b : pystr) : 0 <= fuzz_ratio seq_ratio a b <= 100.
Proof.
  unfold fuzz_ratio. destruct (str_eqb a b); [lia|].
  destruct (_ || _); [lia | apply seq_ratio_range].
Qed.

Lemma fuzz_ratio_same (a : pystr) : fuzz_ratio seq_ratio a a = 100.
Proof. unfold fuzz_ratio. now rewrite str_eqb_refl. Qed.

Lemma melhor_pontuacao_range (desc : pystr) : 0 <= best desc <= 100.
Proof.
  unfold melhor_pontuacao.
  induction rubricas as [|r rs IH]; cbn [map fold_right].
  - lia.
  - pose proof (fuzz_ratio_range (full_process desc) (full_process r)). lia.
Qed.

Lemma melhor_pontuacao_upper (desc r : pystr) :
  In r rubricas -> score desc r <= best desc.
Proof.
  unfold melhor_pontuacao.
  induction rubricas as [|r0 rs IH]; cbn [map fold_right In]; [contradiction|].
  intros [->|H]; [lia|]. specialize (IH H). lia.
Qed.

Lemma melhor_pontuacao_attained (desc : pystr) :
  rubricas <> [] -> exists r, In r rubricas /\ best desc = score desc r.
Proof.
  unfold melhor_pontuacao.
  induction rubricas as [|r0 rs IH]; [congruence|]. intros _.
  destruct rs as [|r1 rs'].
  - exists r0. split; [now left|]. cbn [map fold_right].
    pose proof (fuzz_ratio_range (full_process desc) (full_process r0)). lia.
  - destruct IH as (r & Hr & E); [discriminate|].
    cbn [map fold_right] in *.
    destruct (Z.max_spec
                (fuzz_ratio seq_ratio (full_process desc) (full_process r0))
                (Z.max (fuzz_ratio seq_ratio (full_process desc) (full_process r1))
                       (fold_right Z.max 0
                          (map (fun r2 => fuzz_ratio seq_ratio (full_process desc)
                                                     (full_process r2)) rs'))))
      as [[_ ->]|[_ ->]].
    + exists r. split; [now right | exact E].
    + exists r0. split; [now left | reflexivity].
Qed.

Lemma extractWithoutOrder_all (desc : pystr) :
  extractWithoutOrder full_process seq_ratio desc rubricas
  = map (fun r => (r, score desc r)) rubricas.
Proof.
  unfold extractWithoutOrder.
  induction rubricas as [|r rs IH]; [reflexivity|].
  cbn [map filter snd].
  pose proof (fuzz_ratio_range (full_process desc) (full_process r)) as Hr.
  replace (0 <=? fuzz_ratio seq_ratio (full_process desc) (full_process r))
    with true by (symmetry; apply Z.leb_le; lia).
  now rewrite IH.
Qed.

Lemma max_by_score_fold (xs : list (pystr * Z)) (x : pystr * Z) :
  0 <= snd x ->
  snd (fold_left (fun best y => if snd best <? snd y then y else best) xs x)
  = Z.max (snd x) (fold_right Z.max 0 (map snd xs)).
Proof.
  revert x; induction xs as [|y xs IH]; intros x Hx; cbn [fold_left map fold_right].
  - lia.
  - destruct (Z.ltb_spec (snd x) (snd y)).
    + rewrite IH by lia. lia.
    + rewrite IH by lia. lia.
Qed.

Lemma extractOne_best (desc : pystr) :
  rubricas <> [] ->
  exists r, extractOne full_process seq_ratio desc rubricas = Some (r, best desc).
Proof.
  intros Hne. unfold extractOne. rewrite extractWithoutOrder_all.
  unfold melhor_pontuacao.
  destruct rubricas as [|r0 rs]; [congruence|].
  cbn [map max_by_score].
  match goal with
  | |- exists r, Some ?f = _ => exists (fst f); destruct f as [c sc] eqn:E
  end.
  cbn [fst]. do 2 f_equal.
  assert (sc = snd (c, sc)) as -> by reflexivity. rewrite <- E.
  rewrite max_by_score_fold.
  - cbn [snd fold_right]. rewrite map_map. cbn [snd]. reflexivity.
  - cbn [snd]. apply fuzz_ratio_range.
Qed.

(** Whether the matcher keeps a description. *)
Local Abbreviation aceita := (fun desc => threshold <=? best desc).

Lemma unique_keeps_strings (vs : list value) (d : pystr) :
  In (VStr d) vs -> In (VStr d) (unique vs).
Proof.
  induction vs as [|x vs IH]; [contradiction|].
  intros [->|H]; [now left|]. cbn [unique].
  destruct x as [s|].
  - destruct (str_eqb s d) eqn:E.
    + apply str_eqb_eq in E. subst. now left.
    + right. apply filter_In. split; [now apply IH|].
      cbn [value_eqb]. now rewrite E.
  - right. apply filter_In. split; [now apply IH | reflexivity].
Qed.

Lemma unique_strings (ds : list pystr) :
  exists us, unique (map VStr ds) = map VStr us.
Proof.
  induction ds as [|d ds [us IH]]; [now exists []|].
  cbn [map unique]. rewrite IH.
  exists (d :: filter (fun y => negb (str_eqb d y)) us).
  cbn [map]. f_equal. clear. induction us as [|x us IH]; [reflexivity|].
  cbn [map filter value_eqb]. destruct (str_eqb d x); cbn [negb map].
  - exact IH.
  - f_equal. exact IH.
Qed.

Lemma mapping_built (us : list pystr) (acc : list (pystr * bool)) :
  rubricas <> [] ->
  for_each (fun mapping x =>
              match x with
              | VStr desc =>
                let result := extractOne full_process seq_ratio desc rubricas in
                Ok (mapping ++
                    [(desc, match result with
                            | Some r => threshold <=? snd r
                            | None => false
                            end)])
              | VNaN => Raise TypeError
              end)
           (map VStr us) acc
  = Ok (acc ++ map (fun d => (d, aceita d)) us).
Proof.
  intros Hne. revert acc; induction us as [|d us IH]; intros acc.
  - cbn. now rewrite app_nil_r.
  - cbn [map for_each bind]. destruct (extractOne_best d Hne) as [r ->].
    cbn [snd]. rewrite IH. now rewrite <- app_assoc.
Qed.

Lemma lookup_mapping (us : list pystr) (d : pystr) :
  In d us -> lookup (map (fun d => (d, aceita d)) us) d = Ok (aceita d).
Proof.
  induction us as [|x us IH]; [contradiction|].
  intros Hin. cbn [map lookup]. destruct (str_eqb x d) eqn:E.
  - apply str_eqb_eq in E. now subst.
  - apply IH. destruct Hin as [->|H]; [|assumption].
    rewrite str_eqb_refl in E. discriminate.
Qed.

Lemma mask_built (us ds : list pystr) (acc : list bool) :
  (forall d, In d ds -> In d us) ->
  for_each (fun mask x =>
              match x with
              | VStr desc =>
                b <- lookup (map (fun d => (d, aceita d)) us) desc ;;
                Ok (mask ++ [b])
              | VNaN => Raise TypeError
              end)
           (map VStr ds) acc
  = Ok (acc ++ map aceita ds).
Proof.
  revert acc; induction ds as [|d ds IH]; intros acc Hin.
  - cbn. now rewrite app_nil_r.
  - cbn [map for_each]. rewrite lookup_mapping by (apply Hin; now left).
    cbn [bind]. rewrite IH by (intros; apply Hin; now right).
    now rewrite <- app_assoc.
Qed.

Lemma filter_by_mask {A} (f : pystr -> bool) (ds : list pystr) (rows : list A) :
  map snd (filter fst (combine (map f ds) rows))
  = map snd (filter (fun dr => f (fst dr)) (combine ds rows)).
Proof.
  revert rows; induction ds as [|d ds IH]; intros [|row rows]; try reflexivity.
  cbn [map combine filter fst]. destruct (f d); cbn [map snd]; now rewrite IH.
Qed.

Lemma cruzar_filtra (df : DataFrame) (descricoes : list pystr) :
  df_empty df = false ->
  rubricas <> [] ->
  getitem df DESCRICAO = Ok (map VStr descricoes) ->
  cruzar_descontos_com_rubricas full_process seq_ratio df rubricas threshold
  = Ok (mkDF (columns df)
             (map snd (filter (fun dr => aceita (fst dr))
                              (combine descricoes (data df))))).
Proof.
  intros Hdf Hne Hget. unfold cruzar_descontos_com_rubricas.
  rewrite Hdf. destruct rubricas as [|r0 rs] eqn:Er; [congruence|].
  cbn [length Nat.eqb orb]. rewrite <- Er in *. rewrite Hget. cbn [bind].
  destruct (unique_strings descricoes) as [us Hus]. rewrite Hus.
  rewrite mapping_built by assumption. cbn [bind app].
  rewrite mask_built.
  - cbn [bind app]. now rewrite filter_by_mask.
  - intros d Hd.
    assert (In (VStr d) (map VStr us)) as H.
    { rewrite <- Hus. apply unique_keeps_strings. now apply in_map. }
    apply in_map_iff in H as (d' & [= ->] & H). exact H.
Qed.

End RubricMatcherFacts.

(** C6. For a non-empty collection whose descriptions are text and a
    non-empty vocabulary, the matcher scores each description by the best
    similarity ratio (an integer from 0 to 100) over all vocabulary entries,
    and keeps exactly the rows whose description scores at least the
    threshold, in their order: the decision depends on the description
    alone.  A description equal to a vocabulary entry is kept for every
    threshold up to 100. *)
Theorem cruzar_aceita_por_descricao
  (full_process : pystr -> pystr) (seq_ratio : pystr -> pystr -> Z)
  (df : DataFrame) (rubricas : list pystr) (threshold : Z)
  (descricoes : list pystr) :
  (forall a b, 0 <= seq_ratio a b <= 100) ->
  data df <> [] ->
  rubricas <> [] ->
  getitem df DESCRICAO = Ok (map VStr descricoes) ->
  let best := melhor_pontuacao full_process seq_ratio rubricas in
  (forall desc,
      0 <= best desc <= 100
      /\ (exists r, In r rubricas
                    /\ best desc
                       = fuzz_ratio seq_ratio (full_process desc) (full_process r))
      /\ (forall r, In r rubricas ->
                    fuzz_ratio seq_ratio (full_process desc) (full_process r)
                    <= best desc))
  /\ cruzar_descontos_com_rubricas full_process seq_ratio df rubricas threshold
     = Ok (mkDF (columns df)
                (map snd (filter (fun dr => threshold <=? best (fst dr))
                                 (combine descricoes (data df)))))
  /\ (forall desc, In desc rubricas -> threshold <= 100 ->
                   (threshold <=? best desc) = true).
Proof.
  intros Hrange Hdata Hrub Hget best. subst best. split; [|split].
  - intros desc. split; [|split].
    + now apply melhor_pontuacao_range.
    + now apply melhor_pontuacao_attained.
    + intros r Hr. now apply melhor_pontuacao_upper.
  - apply cruzar_filtra; try assumption.
    unfold df_empty. unfold getitem in Hget.
    destruct (columns df); [discriminate|].
    destruct (data df); [congruence | reflexivity].
  - intros desc Hin Ht. apply Z.leb_le.
    pose proof (melhor_pontuacao_upper full_process seq_ratio rubricas
                  desc desc Hin) as H.
    rewrite fuzz_ratio_same in H. lia.
Qed.

(** C7. With an empty collection or an empty vocabulary the matcher returns
    the empty frame, whatever the threshold, and raises nothing. *)
Theorem cruzar_entradas_vazias
  (full_process : pystr -> pystr) (seq_ratio : pystr -> pystr -> Z)
  (df : DataFrame) (rubricas : list pystr) (threshold : Z) :
  data df = [] \/ rubricas = [] ->
  cruzar_descontos_com_rubricas full_process seq_ratio df rubricas threshold
  = Ok empty_frame.
Proof.
  intros [H| ->]; unfold cruzar_descontos_com_rubricas.
  - unfold df_empty. rewrite H. now destruct (columns df).
  - now rewrite orb_true_r.
Qed.

(** ** Frames *)

Lemma index_of_nth (c : pystr) (cols : list pystr) (i : nat) :
  index_of c cols = Some i -> nth_error cols i = Some c.
Proof.
  revert i; induction cols as [|c' cols IH]; intros i; cbn [index_of].
  - discriminate.
  - destruct (str_eqb c c') eqn:E.
    + intros [= <-]. apply str_eqb_eq in E. now subst.
    + destruct (index_of c cols) as [j|]; [|discriminate].
      intros [= <-]. now apply IH.
Qed.

Lemma index_of_In (c : pystr) (cols : list pystr) :
  In c cols -> exists i, index_of c cols = Some i.
Proof.
  induction cols as [|c' cols IH]; [contradiction|].
  intros Hin. cbn [index_of]. destruct (str_eqb c c') eqn:E; [now exists O|].
  destruct Hin as [->|Hin]; [rewrite str_eqb_refl in E; discriminate|].
  destruct (IH Hin) as [i ->]. now exists (S i).
Qed.

Lemma index_of_notin (c : pystr) (cols : list pystr) :
  ~ In c cols -> index_of c cols = None.
Proof.
  induction cols as [|c' cols IH]; [reflexivity|].
  intros Hnin. cbn [index_of]. destruct (str_eqb c c') eqn:E.
  - apply str_eqb_eq in E. subst. exfalso. apply Hnin. now left.
  - rewrite IH; [reflexivity|]. intros H. apply Hnin. now right.
Qed.

(** Looking a label up in a row computed label by label. *)
Lemma cell_map (f : pystr -> value) (cols : list pystr) (c : pystr) :
  In c cols -> cell cols (map f cols) c = f c.
Proof.
  unfold cell. induction cols as [|c' cols IH]; [contradiction|].
  intros Hin. cbn [index_of]. destruct (str_eqb c c') eqn:E.
  - apply str_eqb_eq in E. now subst.
  - destruct Hin as [->|Hin]; [rewrite str_eqb_refl in E; discriminate|].
    specialize (IH Hin). destruct (index_of c cols) as [i|] eqn:Ei.
    + exact IH.
    + destruct (index_of_In c cols Hin) as [i Hi]. congruence.
Qed.

Lemma reindex_map (f : pystr -> value) (cols : list pystr) :
  reindex cols cols (map f cols) = map f cols.
Proof.
  unfold reindex. apply map_ext_in. intros c Hc. now apply cell_map.
Qed.

Lemma getitem_map_rows (cols : list pystr) (fs : list (pystr -> value))
      (c : pystr) :
  In c cols ->
  getitem (frame_of_fields cols fs) c = Ok (map (fun f => f c) fs).
Proof.
  intros Hin. unfold getitem, frame_of_fields. cbn [columns data].
  destruct (index_of_In c cols Hin) as [i Hi]. rewrite Hi.
  f_equal. rewrite map_map. apply map_ext. intros f.
  pose proof (cell_map f cols c Hin) as H. unfold cell in H.
  now rewrite Hi in H.
Qed.

Lemma combine_map_l {A B} (f : A -> B) (xs : list A) :
  combine xs (map f xs) = map (fun x => (x, f x)) xs.
Proof. induction xs as [|x xs IH]; [reflexivity|]. cbn. now rewrite IH. Qed.

Lemma combine_map_r {A B} (f : A -> B) (xs : list A) :
  combine (map f xs) xs = map (fun x => (f x, x)) xs.
Proof. induction xs as [|x xs IH]; [reflexivity|]. cbn. now rewrite IH. Qed.

(** ** SelectionCalculator *)

Section CalculatorFacts.

Variable col_valor : pystr.
Hypothesis col_valor_not_desc : col_valor <> DESCRICAO.

Variable cols' : list pystr.
Hypothesis desc_in : In DESCRICAO cols'.
Hypothesis valor_in : In col_valor cols'.

Lemma concat_linha_de_total (fs : list (pystr -> value)) (v d : pystr) :
  concat (frame_of_fields cols' fs) (linha_de_total col_valor v d)
  = frame_of_fields cols' (fs ++ [cell [col_valor; DESCRICAO] [VStr v; VStr d]]).
Proof.
  unfold concat, linha_de_total, frame_of_fields.
  replace (str_eqb col_valor DESCRICAO) with false
    by (symmetry; now apply str_eqb_neq).
  cbn [columns data filter].
  replace (str_in col_valor cols') with true by (symmetry; now apply str_in_In).
  replace (str_in DESCRICAO cols') with true by (symmetry; now apply str_in_In).
  cbn [negb]. rewrite app_nil_r. f_equal.
  rewrite map_app, map_map. f_equal.
  apply map_ext. intros f. apply reindex_map.
Qed.

Lemma loc_set_fields (fs : list (pystr -> value)) (mask : list bool) (c : pystr) :
  length mask = length fs ->
  loc_set (frame_of_fields cols' fs) mask c (VStr [])
  = frame_of_fields cols'
      (map (fun bf : bool * (pystr -> value) =>
              if fst bf then limpar_campo c (snd bf) else snd bf)
           (combine mask fs)).
Proof.
  intros Hlen. unfold loc_set, frame_of_fields. cbn [columns data]. f_equal.
  revert mask Hlen. induction fs as [|f fs IH]; intros [|b mask] Hlen;
    try discriminate; [reflexivity|].
  cbn [map combine fst snd]. f_equal.
  - destruct b; [|reflexivity].
    rewrite combine_map_l, map_map. apply map_ext. intros c'.
    reflexivity.
  - apply IH. now injection Hlen.
Qed.

Lemma frame_of_fields_ext (fs gs : list (pystr -> value)) :
  Forall2 (fun f g => forall c, f c = g c) fs gs ->
  frame_of_fields cols' fs = frame_of_fields cols' gs.
Proof.
  intros H. unfold frame_of_fields. f_equal.
  induction H as [|f g fs gs Hfg Hrest IH]; [reflexivity|].
  cbn [map]. f_equal; [|exact IH]. apply map_ext. exact Hfg.
Qed.

Lemma limpar_step (c : pystr) (l : list pystr) (b : bool) (f : pystr -> value)
      (c' : pystr) :
  (if b
   then limpar col_valor l (if negb (str_in c [DESCRICAO; col_valor])
                  then (if b then limpar_campo c f else f) else f)
   else (if negb (str_in c [DESCRICAO; col_valor])
         then (if b then limpar_campo c f else f) else f)) c'
  = (if b then limpar col_valor (c :: l) f else f) c'.
Proof.
  destruct b; [|now destruct (negb (str_in c [DESCRICAO; col_valor]))].
  destruct (negb (str_in c [DESCRICAO; col_valor])) eqn:Ek;
    unfold limpar, limpar_campo; cbn [str_in existsb] in *;
    destruct (str_eqb c' c) eqn:Ec; cbn [orb]; try reflexivity.
  - apply str_eqb_eq in Ec. subst c'. rewrite Ek.
    now destruct (str_in c l && true).
  - apply str_eqb_eq in Ec. subst c'.
    apply negb_false_iff in Ek. rewrite Ek. cbn [negb].
    now rewrite !andb_false_r.
Qed.

Lemma limpar_loop (l : list pystr) (fs : list (pystr -> value))
      (mask : list bool) :
  length mask = length fs ->
  fold_left
    (fun df_novo c =>
       if negb (str_in c [DESCRICAO; col_valor])
       then loc_set df_novo mask c (VStr [])
       else df_novo)
    l (frame_of_fields cols' fs)
  = frame_of_fields cols'
      (map (fun bf : bool * (pystr -> value) =>
              if fst bf then limpar col_valor l (snd bf) else snd bf)
           (combine mask fs)).
Proof.
  revert fs. induction l as [|c l IH]; intros fs Hlen.
  - cbn [fold_left]. apply frame_of_fields_ext.
    clear - Hlen. revert mask Hlen.
    induction fs as [|f fs IHf]; intros [|b mask] Hlen; try discriminate;
      cbn [combine map]; constructor.
    + intros c'. cbn [fst snd]. now destruct b.
    + apply IHf. now injection Hlen.
  - cbn [fold_left].
    assert (fold_left
              (fun df_novo c0 =>
                 if negb (str_in c0 [DESCRICAO; col_valor])
                 then loc_set df_novo mask c0 (VStr [])
                 else df_novo)
              l
              (if negb (str_in c [DESCRICAO; col_valor])
               then loc_set (frame_of_fields cols' fs) mask c (VStr [])
               else frame_of_fields cols' fs)
            = fold_left
                (fun df_novo c0 =>
                   if negb (str_in c0 [DESCRICAO; col_valor])
                   then loc_set df_novo mask c0 (VStr [])
                   else df_novo)
                l
                (frame_of_fields cols'
                   (map (fun bf : bool * (pystr -> value) =>
                           if negb (str_in c [DESCRICAO; col_valor])
                           then (if fst bf then limpar_campo c (snd bf)
                                 else snd bf)
                           else snd bf)
                        (combine mask fs)))) as ->.
    { f_equal. destruct (negb (str_in c [DESCRICAO; col_valor])).
      - now apply loc_set_fields.
      - f_equal. clear - Hlen. revert mask Hlen.
        induction fs as [|f fs IHf]; intros [|b mask] Hlen; try discriminate;
          [reflexivity|].
        cbn [combine map snd]. f_equal. apply IHf. now injection Hlen. }
    rewrite IH by (rewrite length_map, length_combine; lia).
    apply frame_of_fields_ext.
    clear - Hlen. revert mask Hlen.
    induction fs as [|f fs IHf]; intros [|b mask] Hlen; try discriminate;
      cbn [combine map]; constructor.
    + intros c'. cbn [fst snd]. apply limpar_step.
    + apply IHf. now injection Hlen.
Qed.

End CalculatorFacts.

Lemma getitem_In (df : DataFrame) (c : pystr) (xs : list value) :
  getitem df c = Ok xs -> In c (columns df).
Proof.
  unfold getitem. destruct (index_of c (columns df)) as [i|] eqn:E;
    [|discriminate].
  intros _. apply index_of_nth in E. eapply nth_error_In. exact E.
Qed.

Lemma colunas_finais_desc (df : DataFrame) : In DESCRICAO (colunas_finais df).
Proof.
  unfold colunas_finais. destruct (str_in DESCRICAO (columns df)) eqn:E.
  - rewrite app_nil_r. now apply str_in_In.
  - apply in_or_app. right. now left.
Qed.

Lemma colunas_finais_incl (df : DataFrame) (c : pystr) :
  In c (columns df) -> In c (colunas_finais df).
Proof. intros H. unfold colunas_finais. apply in_or_app. now left. Qed.

Lemma concat_primeira_linha (df : DataFrame) (col_valor v d : pystr) :
  In col_valor (columns df) -> col_valor <> DESCRICAO ->
  concat df (linha_de_total col_valor v d)
  = frame_of_fields (colunas_finais df)
      (map (cell (columns df)) (data df)
       ++ [cell [col_valor; DESCRICAO] [VStr v; VStr d]]).
Proof.
  intros Hin Hne. unfold concat, linha_de_total, frame_of_fields.
  replace (str_eqb col_valor DESCRICAO) with false
    by (symmetry; now apply str_eqb_neq).
  cbn [columns data filter].
  replace (str_in col_valor (columns df)) with true
    by (symmetry; now apply str_in_In).
  cbn [negb]. unfold colunas_finais.
  destruct (str_in DESCRICAO (columns df)); cbn [negb];
    now rewrite map_app, map_map.
Qed.

Lemma summary_field_desc (col_valor v d : pystr) :
  col_valor <> DESCRICAO ->
  cell [col_valor; DESCRICAO] [VStr v; VStr d] DESCRICAO = VStr d.
Proof.
  intros Hne. unfold cell. cbn [index_of].
  replace (str_eqb DESCRICAO col_valor) with false
    by (symmetry; apply str_eqb_neq; congruence).
  now rewrite str_eqb_refl.
Qed.

Lemma summary_field_valor (col_valor v d : pystr) :
  cell [col_valor; DESCRICAO] [VStr v; VStr d] col_valor = VStr v.
Proof. unfold cell. cbn [index_of]. now rewrite str_eqb_refl. Qed.

Lemma summary_field_other (col_valor v d c : pystr) :
  c <> col_valor -> c <> DESCRICAO ->
  cell [col_valor; DESCRICAO] [VStr v; VStr d] c = VNaN.
Proof.
  intros H1 H2. unfold cell. cbn [index_of].
  replace (str_eqb c col_valor) with false by (symmetry; now apply str_eqb_neq).
  now replace (str_eqb c DESCRICAO) with false
    by (symmetry; now apply str_eqb_neq).
Qed.

(** The frame built when the sum is not zero, row by row and field by
    field. *)
Lemma inserir_totais_forma
  (nd : char -> option Z) (st : State) (df : DataFrame) (col_valor : pystr)
  (valores : list value) :
  getitem df col_valor = Ok valores ->
  col_valor <> DESCRICAO ->
  f64_eq_zero (valor_A nd valores) = false ->
  let indebito := f64_sub (valor_A nd valores) (valor_B nd st) in
  inserir_totais_na_coluna nd st df col_valor
  = Ok (frame_of_fields (colunas_finais df)
          (map (fun f => if isin linhas_especiais (f DESCRICAO)
                         then limpar col_valor (colunas_finais df) f else f)
               (map (cell (columns df)) (data df)
                ++ [cell [col_valor; DESCRICAO]
                         [VStr (format_2f (valor_A nd valores)); VStr marca_A];
                    cell [col_valor; DESCRICAO]
                         [VStr (strip (texto_B st)); VStr marca_B];
                    cell [col_valor; DESCRICAO]
                         [VStr (format_2f indebito); VStr marca_indebito];
                    cell [col_valor; DESCRICAO]
                         [VStr (format_2f (f64_mul (f64_of_Z 2) indebito));
                          VStr marca_dobro]]))).
Proof.
  intros Hget Hne Hzero indebito.
  pose proof (getitem_In _ _ _ Hget) as Hin.
  pose proof (colunas_finais_desc df) as Hdesc.
  pose proof (colunas_finais_incl df _ Hin) as Hval.
  unfold inserir_totais_na_coluna. rewrite Hget. cbn [bind].
  fold (valor_A nd valores). rewrite Hzero. cbv zeta.
  fold (texto_B st). fold (valor_B nd st). fold indebito.
  rewrite (concat_primeira_linha df col_valor _ _ Hin Hne).
  rewrite !(concat_linha_de_total col_valor Hne (colunas_finais df) Hdesc Hval).
  rewrite <- !app_assoc. cbn [app].
  rewrite getitem_map_rows by assumption. cbn [bind].
  change (columns (frame_of_fields (colunas_finais df) ?[fs]))
    with (colunas_finais df).
  rewrite limpar_loop by (now rewrite !length_map).
  do 2 f_equal. rewrite map_map, combine_map_r, map_map. reflexivity.
Qed.

(** The number of values is fuel enough: more fuel changes nothing. *)
Lemma pairwise_sum_fuel (f1 f2 : nat) (xs : list float) :
  (length xs <= f1)%nat -> (length xs <= f2)%nat ->
  pairwise_sum f1 xs = pairwise_sum f2 xs.
Proof.
  revert f2 xs. induction f1 as [|f1 IH]; intros f2 xs H1 H2.
  - destruct xs; [|cbn [length] in H1; lia]. now destruct f2.
  - destruct f2 as [|f2].
    + destruct xs; [reflexivity | cbn [length] in H2; lia].
    + cbn [pairwise_sum].
      destruct (Nat.ltb_spec (length xs) 8) as [|H8]; [reflexivity|].
      destruct (Nat.leb_spec (length xs) 128) as [|H128]; [reflexivity|].
      pose proof (Nat.Div0.mod_le (length xs / 2) 8) as Hm.
      assert ((length xs / 2) mod 8 < 8)%nat as Hm8
        by (apply Nat.mod_upper_bound; lia).
      assert (64 <= length xs / 2)%nat as H64
        by (apply Nat.div_le_lower_bound; lia).
      assert (length xs / 2 < length xs)%nat as Hlt
        by (apply Nat.div_lt; lia).
      f_equal; apply IH; rewrite ?length_firstn, ?length_skipn; lia.
Qed.

Lemma all_zero_repeat (xs : list float) :
  Forall (fun x => x = f64_zero) xs -> xs = repeat f64_zero (length xs).
Proof.
  induction 1 as [|x xs -> _ IH]; [reflexivity|]. cbn [length repeat].
  now f_equal.
Qed.

Lemma fold_add_zeros (xs : list float) :
  Forall (fun x => x = f64_zero) xs ->
  fold_left f64_add xs f64_zero = f64_zero.
Proof.
  induction 1 as [|x xs -> _ IH]; [reflexivity|]. exact IH.
Qed.

Lemma unrolled_zeros (xs : list float) :
  Forall (fun x => x = f64_zero) xs ->
  exists rest,
    unrolled (repeat f64_zero 8) xs = (repeat f64_zero 8, rest)
    /\ Forall (fun x => x = f64_zero) rest.
Proof.
  assert (forall n xs, (length xs <= n)%nat ->
            Forall (fun x => x = f64_zero) xs ->
            exists rest,
              unrolled (repeat f64_zero 8) xs = (repeat f64_zero 8, rest)
              /\ Forall (fun x => x = f64_zero) rest) as H.
  { clear. induction n as [|n IH]; intros xs Hn Hz.
    - destruct xs; [|cbn [length] in Hn; lia]. exists []. now split.
    - destruct xs as [|a0 [|a1 [|a2 [|a3 [|a4 [|a5 [|a6 [|a7 rest]]]]]]]];
        try (eexists; split; [reflexivity | assumption]).
      cbn [unrolled]. cbn [length] in Hn.
      do 8 (let E := fresh "E" in inversion Hz as [|? ? E Hz']; subst;
            clear Hz; rename Hz' into Hz).
      change (add_lanes (repeat f64_zero 8)
                [f64_zero; f64_zero; f64_zero; f64_zero;
                 f64_zero; f64_zero; f64_zero; f64_zero])
        with (repeat f64_zero 8).
      apply IH; [lia | assumption]. }
  now apply (H (length xs)).
Qed.

Lemma sum_unrolled_zeros (xs : list float) :
  (8 <= length xs)%nat -> Forall (fun x => x = f64_zero) xs ->
  sum_unrolled xs = f64_zero.
Proof.
  intros Hn Hz. unfold sum_unrolled.
  assert (firstn 8 xs = repeat f64_zero 8) as ->.
  { rewrite (all_zero_repeat (firstn 8 xs)).
    - rewrite length_firstn. now replace (Nat.min 8 (length xs)) with 8%nat by lia.
    - rewrite <- (firstn_skipn 8 xs) in Hz. now apply Forall_app in Hz as [Hz _]. }
  destruct (unrolled_zeros (skipn 8 xs)) as (rest & -> & Hrest).
  { rewrite <- (firstn_skipn 8 xs) in Hz. now apply Forall_app in Hz as [_ Hz]. }
  change (combine_lanes (repeat f64_zero 8)) with f64_zero.
  now apply fold_add_zeros.
Qed.

Lemma pairwise_sum_zeros (fuel : nat) (xs : list float) :
  xs <> [] -> Forall (fun x => x = f64_zero) xs ->
  pairwise_sum fuel xs = f64_zero.
Proof.
  revert xs. induction fuel as [|fuel IH]; intros xs Hne Hz.
  - cbn [pairwise_sum].
    destruct (Nat.ltb_spec (length xs) 8) as [|H8].
    + destruct Hz as [|x xs -> Hz]; [congruence|]. cbn [fold_left].
      change (f64_add (S754_zero true) f64_zero) with f64_zero.
      now apply fold_add_zeros.
    + destruct (Nat.leb (length xs) 128); now apply sum_unrolled_zeros.
  - cbn [pairwise_sum].
    destruct (Nat.ltb_spec (length xs) 8) as [|H8].
    + destruct Hz as [|x xs -> Hz]; [congruence|]. cbn [fold_left].
      change (f64_add (S754_zero true) f64_zero) with f64_zero.
      now apply fold_add_zeros.
    + destruct (Nat.leb_spec (length xs) 128) as [|H128];
        [now apply sum_unrolled_zeros|].
      pose proof (Nat.Div0.mod_le (length xs / 2) 8) as Hm.
      assert ((length xs / 2) mod 8 < 8)%nat as Hm8
        by (apply Nat.mod_upper_bound; lia).
      assert (length xs / 2 <= length xs)%nat as Hd
        by (apply Nat.Div0.div_le_upper_bound; lia).
      assert (64 <= length xs / 2)%nat as H64
        by (apply Nat.div_le_lower_bound; lia).
      assert (length xs / 2 < length xs)%nat as Hlt
        by (apply Nat.div_lt; lia).
      set (n2 := (length xs / 2 - (length xs / 2) mod 8)%nat) in *.
      rewrite <- (firstn_skipn n2 xs) in Hz. apply Forall_app in Hz as [Hz1 Hz2].
      rewrite (IH (firstn n2 xs)), (IH (skipn n2 xs)); try assumption.
      * reflexivity.
      * intros E. apply (f_equal (@length float)) in E.
        rewrite length_skipn in E. cbn [length] in E. lia.
      * intros E. apply (f_equal (@length float)) in E.
        rewrite length_firstn in E. cbn [length] in E. lia.
Qed.

Lemma series_sum_zeros (xs : list float) :
  Forall (fun x => x = f64_zero) xs -> series_sum xs = f64_zero.
Proof.
  intros H. unfold series_sum.
  assert (map (fun x => if f64_isnan x then f64_zero else x) xs = xs) as ->.
  { induction H as [|x xs -> _ IH]; [reflexivity|]. cbn [map]. now f_equal. }
  unfold np_sum. destruct xs as [|x xs]; [reflexivity|].
  rewrite pairwise_sum_zeros by (assumption || discriminate). reflexivity.
Qed.

Lemma to_float_invalid (nd : char -> option Z) (x : value) (e : exn) :
  py_float nd (strip (replace COMMA [DOT] (py_str x))) = Raise e ->
  _to_float nd x = f64_zero.
Proof. intros H. unfold _to_float. now rewrite H. Qed.

(** C3. When the sum of the parsed totals is zero the calculator returns its
    input as it is, with no summary row.  A total that does not parse counts
    as 0.0, so a collection none of whose totals parses is returned as it
    is. *)
Theorem soma_zero_devolve_entrada
  (nd : char -> option Z) (st : State) (df : DataFrame) (col_valor : pystr)
  (valores : list value) :
  getitem df col_valor = Ok valores ->
  (f64_eq_zero (valor_A nd valores) = true ->
   inserir_totais_na_coluna nd st df col_valor = Ok df)
  /\ (forall x e,
         py_float nd (strip (replace COMMA [DOT] (py_str x))) = Raise e ->
         _to_float nd x = f64_zero)
  /\ ((forall x, In x valores ->
         exists e, py_float nd (strip (replace COMMA [DOT] (py_str x))) = Raise e) ->
      inserir_totais_na_coluna nd st df col_valor = Ok df).
Proof.
  intros Hget.
  assert (f64_eq_zero (valor_A nd valores) = true ->
          inserir_totais_na_coluna nd st df col_valor = Ok df) as Hzero.
  { intros H. unfold inserir_totais_na_coluna. rewrite Hget. cbn [bind].
    fold (valor_A nd valores). now rewrite H. }
  split; [exact Hzero|]. split; [apply to_float_invalid|].
  intros Hall. apply Hzero. unfold valor_A. rewrite series_sum_zeros.
  - reflexivity.
  - apply Forall_forall. intros f Hf. apply in_map_iff in Hf as (x & <- & Hx).
    destruct (Hall x Hx) as [e He]. now apply (to_float_invalid nd x e).
Qed.

Lemma format_2f_negative (x : float) :
  f64_lt_zero x = true -> exists t, format_2f x = MINUS :: t.
Proof.
  destruct x as [s|s| |s m e]; cbn [f64_lt_zero]; try discriminate.
  - intros ->. now eexists.
  - intros ->. unfold format_2f. destruct (frac_of false m e). now eexists.
Qed.

Lemma resumo_row (cols' : list pystr) (col_valor v d : pystr) :
  col_valor <> DESCRICAO ->
  In DESCRICAO cols' ->
  linha_de_resumo cols' col_valor d v
    (map (limpar col_valor cols' (cell [col_valor; DESCRICAO] [VStr v; VStr d]))
         cols').
Proof.
  intros Hne _. unfold linha_de_resumo.
  assert (forall l, incl l cols' ->
            Forall2 (fun c x =>
                       x = if str_eqb c col_valor then VStr v
                           else if str_eqb c DESCRICAO then VStr d
                           else VStr [])
                    l
                    (map (limpar col_valor cols'
                            (cell [col_valor; DESCRICAO] [VStr v; VStr d])) l))
    as H.
  { induction l as [|c l IH]; intros Hincl; cbn [map]; constructor.
    - unfold limpar.
      replace (str_in c cols') with true
        by (symmetry; apply str_in_In; apply Hincl; now left).
      unfold str_in. cbn [existsb andb].
      destruct (str_eqb c col_valor) eqn:E1.
      + apply str_eqb_eq in E1. subst c.
        rewrite orb_true_r. cbn [negb orb]. apply summary_field_valor.
      + destruct (str_eqb c DESCRICAO) eqn:E2.
        * apply str_eqb_eq in E2. subst c. cbn [orb negb].
          now apply summary_field_desc.
        * reflexivity.
    - apply IH. intros x Hx. apply Hincl. now right. }
  apply H. apply incl_refl.
Qed.

Lemma esvaziada_row (cols cols' : list pystr) (col_valor : pystr)
      (r : list value) :
  linha_esvaziada cols cols' col_valor r
    (map (limpar col_valor cols' (cell cols r)) cols').
Proof.
  unfold linha_esvaziada.
  assert (forall l, incl l cols' ->
            Forall2 (fun c x =>
                       x = if str_in c [DESCRICAO; col_valor] then cell cols r c
                           else VStr [])
                    l (map (limpar col_valor cols' (cell cols r)) l)) as H.
  { induction l as [|c l IH]; intros Hincl; cbn [map]; constructor.
    - unfold limpar.
      replace (str_in c cols') with true
        by (symmetry; apply str_in_In; apply Hincl; now left).
      now destruct (str_in c [DESCRICAO; col_valor]).
    - apply IH. intros x Hx. apply Hincl. now right. }
  apply H. apply incl_refl.
Qed.

Lemma preservada_row (cols cols' : list pystr) (r : list value) :
  linha_preservada cols cols' r (map (cell cols r) cols').
Proof.
  unfold linha_preservada. induction cols' as [|c l IH]; cbn [map]; now constructor.
Qed.

Lemma marcas_sao_especiais :
  Forall (fun m => str_in m linhas_especiais = true) linhas_especiais.
Proof. repeat constructor. Qed.

(** C2. When the totals sum to a non-zero [A], the calculator returns the
    data rows followed by exactly four rows, in the order A, B, Indébito,
    Indébito em dobro.  The Indébito row holds [A - B], the dobro row
    [2 * (A - B)], each as formatted, a negative value with its minus sign;
    every other field of the four rows is the empty string. *)
Theorem quatro_linhas_de_resumo
  (nd : char -> option Z) (st : State) (df : DataFrame) (col_valor : pystr)
  (valores : list value) :
  getitem df col_valor = Ok valores ->
  col_valor <> DESCRICAO ->
  f64_eq_zero (valor_A nd valores) = false ->
  let A := valor_A nd valores in
  let B := valor_B nd st in
  let indebito := f64_sub A B in
  let indebito_dobro := f64_mul (f64_of_Z 2) indebito in
  let cols' := colunas_finais df in
  exists linhas rA rB rI rD,
    inserir_totais_na_coluna nd st df col_valor
    = Ok (mkDF cols' (linhas ++ [rA; rB; rI; rD]))
    /\ length linhas = length (data df)
    /\ linha_de_resumo cols' col_valor marca_A (format_2f A) rA
    /\ linha_de_resumo cols' col_valor marca_B (strip (texto_B st)) rB
    /\ linha_de_resumo cols' col_valor marca_indebito (format_2f indebito) rI
    /\ linha_de_resumo cols' col_valor marca_dobro (format_2f indebito_dobro) rD
    /\ (f64_lt_zero indebito = true ->
        exists t, format_2f indebito = MINUS :: t)
    /\ (f64_lt_zero indebito_dobro = true ->
        exists t, format_2f indebito_dobro = MINUS :: t).
Proof.
  intros Hget Hne Hzero A B indebito indebito_dobro cols'.
  pose proof (colunas_finais_desc df) as Hdesc.
  rewrite (inserir_totais_forma nd st df col_valor valores Hget Hne Hzero).
  fold A B indebito indebito_dobro cols'.
  unfold frame_of_fields. rewrite map_map, map_app. cbn [map].
  rewrite !summary_field_desc by assumption.
  change (isin linhas_especiais (VStr marca_A)) with true.
  change (isin linhas_especiais (VStr marca_B)) with true.
  change (isin linhas_especiais (VStr marca_indebito)) with true.
  change (isin linhas_especiais (VStr marca_dobro)) with true.
  cbv iota.
  do 5 eexists. split; [reflexivity|].
  split; [now rewrite !length_map|].
  repeat split; try (now apply resumo_row); apply format_2f_negative.
Qed.

(** ** Rendering of a row *)

Lemma cells_printed (w : pystr -> Z) (al : pystr -> pystr) (hh : Z)
      (cvs : list (pystr * pystr)) (pdf : PDF) :
  let pdf' :=
    fold_left (fun pdf (cv : pystr * pystr) =>
                 pdf_cell pdf (w (fst cv)) hh (snd cv) (al (fst cv)) false)
              cvs pdf in
  printed pdf'
  = printed pdf
    ++ map (fun cv : pystr * pystr =>
              mkCell (w (fst cv)) hh (snd cv) (al (fst cv))
                     (font pdf) (text_color pdf))
           cvs
  /\ font pdf' = font pdf /\ text_color pdf' = text_color pdf.
Proof.
  revert pdf; induction cvs as [|cv cvs IH]; intros pdf; cbn [fold_left map].
  - now rewrite app_nil_r.
  - destruct (IH (pdf_cell pdf (w (fst cv)) hh (snd cv) (al (fst cv)) false))
      as (Hp & Hf & Hc).
    cbn zeta in *. rewrite Hp, Hf, Hc. cbn [pdf_cell printed font text_color].
    now rewrite <- app_assoc.
Qed.

Lemma page_break_printed (col_names : list pystr) (pdf : PDF) :
  exists pre,
    printed (if h pdf <? y pdf + 7 + 15
             then montar_cab (add_page pdf) col_names else pdf)
    = printed pdf ++ pre.
Proof.
  destruct (h pdf <? y pdf + 7 + 15).
  - unfold montar_cab.
    destruct (cells_printed widths_map_get (fun _ => u "C") 8
                (combine col_names col_names)
                (set_fill_color (set_font (add_page pdf) Arial (u "B") 10)
                                200 220 255)) as (Hp & _ & _).
    cbn zeta in Hp.
    assert (forall p0,
              fold_left (fun pdf col_h =>
                           pdf_cell pdf (widths_map_get col_h) 8 col_h (u "C") false)
                        col_names p0
              = fold_left (fun pdf (cv : pystr * pystr) =>
                             pdf_cell pdf (widths_map_get (fst cv)) 8 (snd cv)
                                      (u "C") false)
                          (combine col_names col_names) p0) as Hfold.
    { clear. induction col_names as [|c l IH]; intros p0; [reflexivity|].
      cbn [fold_left combine fst snd]. apply IH. }
    rewrite Hfold. cbn [pdf_ln printed]. rewrite Hp.
    cbn [set_fill_color set_font add_page header pdf_cell pdf_ln printed
         titulo h y lasth font text_color fill_color].
    rewrite <- app_assoc. now eexists.
  - exists []. now rewrite app_nil_r.
Qed.

Lemma montar_linha_estilo
  (nd : char -> option Z) (upper : pystr -> pystr)
  (col_names : list pystr) (pdf : PDF) (rowv : list value) :
  In DESCRICAO col_names ->
  exists pdf' pre cells,
    montar_linha nd upper col_names pdf rowv = Ok pdf'
    /\ printed pdf' = printed pdf ++ pre ++ cells
    /\ length cells = length col_names
    /\ Forall (if is_especial (cell col_names rowv DESCRICAO)
               then estilo_resumo else estilo_normal) cells.
Proof.
  intros Hin. unfold montar_linha. cbv zeta.
  destruct (index_of_In DESCRICAO col_names Hin) as [i Hi].
  assert (cell col_names rowv DESCRICAO = nth i rowv VNaN) as ->
    by (unfold cell; now rewrite Hi).
  rewrite Hi. cbn [bind].
  destruct (page_break_printed col_names pdf) as [pre Hpre].
  set (pdf0 := if h pdf <? y pdf + 7 + 15
               then montar_cab (add_page pdf) col_names else pdf) in *.
  set (row_vals := map _ col_names).
  set (styled := if is_especial (nth i rowv VNaN)
                 then set_text_color (set_font pdf0 Arial (u "B") 11) 255 0 0
                 else set_text_color (set_font pdf0 Arial [] 9) 0 0 0).
  destruct (cells_printed widths_map_get
              (fun c => if str_eqb (upper c) DESCRICAO then u "L" else u "C")
              7 (combine col_names row_vals) styled) as (Hp & _ & _).
  cbn zeta in Hp.
  eexists. exists pre. eexists. split; [reflexivity|].
  split; [|split].
  - assert (printed styled = printed pdf ++ pre) as Hs.
    { unfold styled. destruct (is_especial (nth i rowv VNaN)); exact Hpre. }
    destruct (is_especial (nth i rowv VNaN));
      cbn [set_text_color set_font pdf_ln printed];
      rewrite Hp, Hs, <- app_assoc; reflexivity.
  - rewrite length_map, length_combine. unfold row_vals.
    rewrite length_map. lia.
  - apply Forall_forall. intros c Hc. apply in_map_iff in Hc as (cv & <- & _).
    unfold styled. destruct (is_especial (nth i rowv VNaN));
      cbv iota; split; reflexivity.
Qed.

(** The membership test of the code is equality with one of the markers. *)
Lemma isin_marcadora (cols : list pystr) (r : list value) :
  isin linhas_especiais (cell cols r DESCRICAO) = true
  <-> descricao_marcadora cols r.
Proof.
  unfold descricao_marcadora.
  destruct (cell cols r DESCRICAO) as [s|]; cbn [isin]; split.
  - intros H. exists s. split; [reflexivity | now apply str_in_In].
  - intros (s' & E & Hin). injection E as ->. now apply str_in_In.
  - discriminate.
  - intros (s' & E & _). discriminate.
Qed.

(** C10. Summary rows are recognised by their description alone.  When the
    four summary rows are appended, a data row whose description already
    equals one of the four markers keeps its description and its amount, has
    every other field replaced by the empty string, and is printed in the
    summary style; every other data row keeps all its fields. *)
Theorem linhas_marcadoras_preexistentes
  (nd : char -> option Z) (upper : pystr -> pystr)
  (st : State) (df : DataFrame) (col_valor : pystr) (valores : list value) :
  getitem df col_valor = Ok valores ->
  col_valor <> DESCRICAO ->
  f64_eq_zero (valor_A nd valores) = false ->
  let cols := columns df in
  let cols' := colunas_finais df in
  exists linhas resumo,
    inserir_totais_na_coluna nd st df col_valor
    = Ok (mkDF cols' (linhas ++ resumo))
    /\ length resumo = 4%nat
    /\ Forall2
         (fun r r' =>
            (descricao_marcadora cols r ->
             linha_esvaziada cols cols' col_valor r r'
             /\ forall pdf,
                  exists pdf' pre cells,
                    montar_linha nd upper cols' pdf r' = Ok pdf'
                    /\ printed pdf' = printed pdf ++ pre ++ cells
                    /\ length cells = length cols'
                    /\ Forall estilo_resumo cells)
            /\ (~ descricao_marcadora cols r ->
                linha_preservada cols cols' r r'))
         (data df) linhas.
Proof.
  intros Hget Hne Hzero cols cols'.
  pose proof (colunas_finais_desc df) as Hdesc. fold cols' in Hdesc.
  rewrite (inserir_totais_forma nd st df col_valor valores Hget Hne Hzero).
  fold cols cols'. unfold frame_of_fields. rewrite map_map, map_app.
  do 2 eexists. split; [reflexivity|]. split; [reflexivity|].
  rewrite map_map. induction (data df) as [|r rows IH]; cbn [map]; constructor;
    [|exact IH].
  pose proof (isin_marcadora cols r) as Hm.
  destruct (isin linhas_especiais (cell cols r DESCRICAO)) eqn:E.
  - split; [intros _ | intros Hn; exfalso; apply Hn; now apply Hm].
    split; [apply esvaziada_row|].
    intros pdf.
    destruct (montar_linha_estilo nd upper cols' pdf
                (map (limpar col_valor cols' (cell cols r)) cols') Hdesc)
      as (pdf' & pre & cells & H1 & H2 & H3 & H4).
    exists pdf', pre, cells. repeat split; try assumption.
    rewrite cell_map in H4 by assumption.
    unfold limpar in H4. cbn [str_in existsb] in H4.
    rewrite str_eqb_refl in H4. cbn [orb negb] in H4.
    rewrite andb_false_r in H4. unfold is_especial in H4.
    now rewrite E in H4.
  - split; [intros H; apply Hm in H; discriminate | intros _].
    apply preservada_row.
Qed.

(** The report of the sample selection: the four header cells, the cells of
    the ordinary data row in the normal style, then the cells of the data
    row that reads ["Indébito (A-B)"] and of the four summary rows, all in
    the summary style. *)
Example relatorio_exemplo :
  match inserir_totais_na_coluna so_ascii estado_exemplo descontos_exemplo
          col_DESCONTOS with
  | Ok df =>
    match montar_tabela so_ascii (fun s => s) pdf_exemplo df with
    | Ok pdf => map (fun c => (size_pt (cell_font c), cell_color c)) (printed pdf)
    | Raise _ => []
    end
  | Raise _ => []
  end
  = repeat (10, (0, 0, 0)) 4 ++ repeat (9, (0, 0, 0)) 4
    ++ repeat (11, (255, 0, 0)) 20.
Proof. vm_compute. reflexivity. Qed.

(** ** Rounding *)

Lemma div_half_even_spec (x y : Z) :
  0 <= x -> 0 < y ->
  0 <= div_half_even x y /\ 2 * Z.abs (div_half_even x y * y - x) <= y.
Proof.
  intros Hx Hy. unfold div_half_even.
  pose proof (Z.div_mod x y ltac:(lia)) as Hdm.
  pose proof (Z.mod_pos_bound x y Hy) as Hr.
  assert (0 <= x / y) as Hq by (apply Z.div_pos; lia).
  set (q := x / y) in *. set (r := x mod y) in *.
  destruct (Z.ltb_spec (2 * r) y); [split; [lia | nia]|].
  destruct (Z.ltb_spec y (2 * r)); [split; [lia | nia]|].
  destruct (Z.even q); split; try lia; nia.
Qed.

Lemma div_half_even_unique (x y k : Z) :
  0 <= x -> 0 < y -> 2 * Z.abs (k * y - x) < y -> div_half_even x y = k.
Proof.
  intros Hx Hy Hk. unfold div_half_even.
  pose proof (Z.div_mod x y ltac:(lia)) as Hdm.
  pose proof (Z.mod_pos_bound x y Hy) as Hr.
  set (q := x / y) in *. set (r := x mod y) in *.
  assert (k = q \/ k = q + 1) as [-> | ->] by nia.
  - destruct (Z.ltb_spec (2 * r) y); [reflexivity | nia].
  - destruct (Z.ltb_spec (2 * r) y); [nia|].
    destruct (Z.ltb_spec y (2 * r)); [reflexivity | nia].
Qed.

Lemma div_half_even_exact (k y : Z) :
  0 <= k -> 0 < y -> div_half_even (k * y) y = k.
Proof.
  intros Hk Hy. apply div_half_even_unique; nia.
Qed.

(** [ilog2_q a b] is the exponent of the power of two just below [a / b]. *)
Lemma ilog2_q_spec (a b : Z) :
  0 < a -> 0 < b ->
  let l := ilog2_q a b in
  (0 <= l -> b * 2 ^ l <= a /\ a < b * 2 ^ (l + 1))
  /\ (l < 0 -> b <= a * 2 ^ (- l) /\ a * 2 ^ (- l) < 2 * b).
Proof.
  intros Ha Hb.
  pose proof (Z.log2_spec a Ha) as [Ha1 Ha2].
  pose proof (Z.log2_spec b Hb) as [Hb1 Hb2].
  pose proof (Z.log2_nonneg a) as Hla. pose proof (Z.log2_nonneg b) as Hlb.
  unfold ilog2_q, ge_pow2.
  set (la := Z.log2 a) in *. set (lb := Z.log2 b) in *.
  rewrite Z.pow_succ_r in Ha2, Hb2 by assumption.
  assert (0 < 2 ^ la) as Hpa by (apply Z.pow_pos_nonneg; lia).
  assert (0 < 2 ^ lb) as Hpb by (apply Z.pow_pos_nonneg; lia).
  destruct (Z.leb_spec 0 (la - lb)) as [Hl|Hl].
  - (* la >= lb *)
    assert (2 ^ la = 2 ^ lb * 2 ^ (la - lb)) as Hpow
      by (rewrite <- Z.pow_add_r by lia; f_equal; lia).
    assert (0 < 2 ^ (la - lb)) as Hpl by (apply Z.pow_pos_nonneg; lia).
    destruct (Z.leb_spec (b * 2 ^ (la - lb)) a) as [Hge|Hlt]; cbv zeta.
    + split; [|lia]. intros _. split; [assumption|].
      rewrite Z.pow_add_r by lia. change (2 ^ 1) with 2. nia.
    + split.
      * intros H0.
        assert (2 ^ (la - lb) = 2 * 2 ^ (la - lb - 1)) as Hp2
          by (rewrite <- Z.pow_succ_r by lia; f_equal; lia).
        replace (la - lb - 1 + 1) with (la - lb) by lia.
        split; [nia | assumption].
      * intros Hneg. assert (la - lb = 0) as E0 by lia.
        rewrite E0 in *. change (- (0 - 1)) with 1. change (2 ^ 1) with 2.
        change (2 ^ 0) with 1 in *. nia.
  - (* la < lb *)
    assert (2 ^ lb = 2 ^ la * 2 ^ (- (la - lb))) as Hpow
      by (rewrite <- Z.pow_add_r by lia; f_equal; lia).
    assert (0 < 2 ^ (- (la - lb))) as Hpl by (apply Z.pow_pos_nonneg; lia).
    destruct (Z.leb_spec b (a * 2 ^ (- (la - lb)))) as [Hge|Hlt]; cbv zeta.
    + split; [lia|]. intros _. split; [assumption | nia].
    + split; [lia|]. intros _.
      replace (- (la - lb - 1)) with (Z.succ (- (la - lb))) by lia.
      rewrite Z.pow_succ_r by lia. split; nia.
Qed.

(** The binade of [a / b], scaled so that the significand has 53 bits. *)
Lemma ilog2_q_scaled (a b : Z) :
  0 < a -> 0 < b -> ilog2_q a b <= 52 ->
  let e := ilog2_q a b - 52 in
  2 ^ 52 * b <= a * 2 ^ (- e) /\ a * 2 ^ (- e) < 2 ^ 53 * b.
Proof.
  intros Ha Hb Hl. pose proof (ilog2_q_spec a b Ha Hb) as [Hpos Hneg].
  cbv zeta in *. set (l := ilog2_q a b) in *.
  replace (- (l - 52)) with (52 - l) by lia.
  destruct (Z.leb_spec 0 l) as [H0|H0].
  - destruct (Hpos H0) as [H1 H2].
    assert (2 ^ 52 = 2 ^ l * 2 ^ (52 - l)) as Hp
      by (rewrite <- Z.pow_add_r by lia; f_equal; lia).
    assert (0 < 2 ^ (52 - l)) by (apply Z.pow_pos_nonneg; lia).
    assert (0 < 2 ^ l) by (apply Z.pow_pos_nonneg; lia).
    rewrite Z.pow_add_r in H2 by lia. change (2 ^ 1) with 2 in H2.
    change (2 ^ 53) with (2 * 2 ^ 52). rewrite Hp. split; nia.
  - destruct (Hneg H0) as [H1 H2].
    assert (2 ^ (52 - l) = 2 ^ 52 * 2 ^ (- l)) as Hp
      by (rewrite <- Z.pow_add_r by lia; f_equal; lia).
    assert (0 < 2 ^ (- l)) by (apply Z.pow_pos_nonneg; lia).
    change (2 ^ 53) with (2 * 2 ^ 52). rewrite Hp.
    assert (0 < 2 ^ 52) by reflexivity. split; nia.
Qed.

Lemma frac_of_pos_neg_exp (m e : Z) :
  0 < m -> e < 0 -> frac_of false (Z.to_pos m) e = (m, 2 ^ (- e)).
Proof.
  intros Hm He. unfold frac_of.
  replace (0 <=? e) with false by (symmetry; apply Z.leb_gt; lia).
  now rewrite Z2Pos.id.
Qed.

(** The exponent chosen for a quotient [a / b = N / 100] of at most 52
    bits of hundredths. *)
Lemma ilog2_q_cents (a b N : Z) :
  0 < a -> 0 < b -> 100 * a = N * b -> 1 <= N < 2 ^ 52 ->
  -7 <= ilog2_q a b <= 45.
Proof.
  intros Ha Hb Hab HN. pose proof (ilog2_q_spec a b Ha Hb) as [Hpos Hneg].
  cbv zeta in *. set (l := ilog2_q a b) in *.
  assert (2 ^ 52 = 4503599627370496) as H52 by reflexivity.
  split.
  - destruct (Z.ltb_spec l (-7)) as [Hl|Hl]; [|assumption]. exfalso.
    destruct (Hneg ltac:(lia)) as [_ H2].
    assert (2 ^ 8 <= 2 ^ (- l)) as Hp by (apply Z.pow_le_mono_r; lia).
    change (2 ^ 8) with 256 in Hp. nia.
  - destruct (Z.ltb_spec 45 l) as [Hl|Hl]; [|assumption]. exfalso.
    destruct (Hpos ltac:(lia)) as [H1 _].
    assert (2 ^ 46 <= 2 ^ l) as Hp by (apply Z.pow_le_mono_r; lia).
    change (2 ^ 46) with 70368744177664 in Hp. nia.
Qed.

(** Rounding [a / b = N / 100] to binary64 moves it by less than half a
    hundredth. *)
Lemma round_q_cents (a b N : Z) :
  0 < a -> 0 < b -> 100 * a = N * b -> 1 <= N < 2 ^ 52 ->
  exists m e n d,
    round_q false a b = S754_finite false m e
    /\ frac_of false m e = (n, d)
    /\ 0 <= n /\ 0 < d /\ 2 * Z.abs (N * d - 100 * n) < d.
Proof.
  intros Ha Hb Hab HN.
  pose proof (ilog2_q_cents a b N Ha Hb Hab HN) as Hl.
  pose proof (ilog2_q_scaled a b Ha Hb ltac:(lia)) as Hsc. cbv zeta in Hsc.
  unfold round_q. set (l := ilog2_q a b) in *.
  replace (Z.max (l - 52) (-1074)) with (l - 52) by lia.
  replace (0 <=? l - 52) with false by (symmetry; apply Z.leb_gt; lia).
  set (e := l - 52) in *.
  assert (2 ^ 7 <= 2 ^ (- e)) as Hd by (apply Z.pow_le_mono_r; lia).
  change (2 ^ 7) with 128 in Hd.
  pose proof (div_half_even_spec (a * 2 ^ (- e)) b ltac:(nia) Hb) as [Hm0 Hm].
  set (m := div_half_even (a * 2 ^ (- e)) b) in *.
  change (2 ^ 52) with 4503599627370496 in *.
  change (2 ^ 53) with 9007199254740992 in *.
  assert (4503599627370496 <= m <= 9007199254740992) as Hmb by nia.
  replace (m =? 0) with false by (symmetry; apply Z.eqb_neq; lia).
  destruct (Z.eqb_spec m 9007199254740992) as [E|E].
  - replace (971 <? e + 1) with false by (symmetry; apply Z.ltb_ge; lia).
    exists (Z.to_pos 4503599627370496), (e + 1), 4503599627370496,
           (2 ^ (- (e + 1))).
    split; [reflexivity|]. split; [apply frac_of_pos_neg_exp; lia|].
    assert (2 ^ (- e) = 2 * 2 ^ (- (e + 1))) as Hp
      by (rewrite <- Z.pow_succ_r by lia; f_equal; lia).
    assert (0 < 2 ^ (- (e + 1))) by (apply Z.pow_pos_nonneg; lia).
    set (d := 2 ^ (- (e + 1))) in *. rewrite Hp in *. rewrite E in Hm.
    split; [lia|]. split; [lia|]. nia.
  - replace (971 <? e) with false by (symmetry; apply Z.ltb_ge; lia).
    exists (Z.to_pos m), e, m, (2 ^ (- e)).
    split; [reflexivity|]. split; [apply frac_of_pos_neg_exp; lia|].
    set (d := 2 ^ (- e)) in *.
    split; [lia|]. split; [lia|]. nia.
Qed.

Lemma format_round_q_cents (a b N : Z) :
  0 < a -> 0 < b -> 100 * a = N * b -> 1 <= N < 2 ^ 52 ->
  format_2f (round_q false a b) = fmt_cents N.
Proof.
  intros Ha Hb Hab HN.
  destruct (round_q_cents a b N Ha Hb Hab HN)
    as (m & e & n & d & -> & Hf & Hn & Hd & Herr).
  unfold format_2f. rewrite Hf. cbn [app]. f_equal.
  apply div_half_even_unique; lia.
Qed.

(** An integer below [2^52] is a binary64 number. *)
Lemma round_q_integer (N : Z) :
  1 <= N < 2 ^ 52 ->
  exists m e d,
    round_q false N 1 = S754_finite false m e
    /\ frac_of false m e = (N * d, d) /\ 0 < d.
Proof.
  intros HN.
  pose proof (ilog2_q_spec N 1 ltac:(lia) ltac:(lia)) as [Hpos Hneg].
  cbv zeta in *. set (l := ilog2_q N 1) in *.
  assert (0 <= l <= 51) as Hl.
  { split.
    - destruct (Z.ltb_spec l 0) as [H|H]; [|assumption]. exfalso.
      destruct (Hneg H) as [_ H2].
      assert (2 ^ 1 <= 2 ^ (- l)) as Hp by (apply Z.pow_le_mono_r; lia).
      change (2 ^ 1) with 2 in Hp. nia.
    - destruct (Z.ltb_spec 51 l) as [H|H]; [|assumption]. exfalso.
      destruct (Hpos ltac:(lia)) as [H1 _].
      assert (2 ^ 52 <= 2 ^ l) as Hp by (apply Z.pow_le_mono_r; lia).
      lia. }
  pose proof (ilog2_q_scaled N 1 ltac:(lia) ltac:(lia) ltac:(fold l; lia)) as Hsc.
  cbv zeta in Hsc. fold l in Hsc.
  unfold round_q. fold l.
  replace (Z.max (l - 52) (-1074)) with (l - 52) by lia.
  replace (0 <=? l - 52) with false by (symmetry; apply Z.leb_gt; lia).
  set (e := l - 52) in *.
  assert (0 < 2 ^ (- e)) as Hd by (apply Z.pow_pos_nonneg; lia).
  replace (div_half_even (N * 2 ^ (- e)) 1) with (N * 2 ^ (- e))
    by (symmetry; apply div_half_even_unique; lia).
  change (2 ^ 52) with 4503599627370496 in *.
  change (2 ^ 53) with 9007199254740992 in *.
  replace (N * 2 ^ (- e) =? 0) with false by (symmetry; apply Z.eqb_neq; lia).
  replace (N * 2 ^ (- e) =? 9007199254740992) with false
    by (symmetry; apply Z.eqb_neq; lia).
  replace (971 <? e) with false by (symmetry; apply Z.ltb_ge; lia).
  exists (Z.to_pos (N * 2 ^ (- e))), e, (2 ^ (- e)).
  split; [reflexivity|]. split; [apply frac_of_pos_neg_exp; lia | assumption].
Qed.

Lemma f64_of_Z_100 : f64_of_Z 100 = S754_finite false 7036874417766400 (-46).
Proof. vm_compute. reflexivity. Qed.

(** Dividing the float of an integer [N] of hundredths by 100 and printing
    it with two decimals gives [N / 100] to the hundredth. *)
Lemma format_div_100 (N : Z) :
  1 <= N < 2 ^ 52 ->
  format_2f (f64_div (round_q false N 1) (f64_of_Z 100)) = fmt_cents N.
Proof.
  intros HN. destruct (round_q_integer N HN) as (m & e & d & -> & Hf & Hd).
  rewrite f64_of_Z_100. unfold f64_div. rewrite Hf.
  change (frac_of false 7036874417766400 (-46))
    with (7036874417766400, 70368744177664).
  cbn [xorb]. apply format_round_q_cents; nia.
Qed.

(** ** Decimal digits *)

Lemma is_ascii_digit_iff (c : char) : is_ascii_digit c = true <-> digit c.
Proof.
  unfold is_ascii_digit, digit. rewrite andb_true_iff, !Z.leb_le. tauto.
Qed.

Lemma digit_char_digit (d : Z) : 0 <= d <= 9 -> digit (digit_char d).
Proof. unfold digit, digit_char. lia. Qed.

Lemma digits_value_app (ds : pystr) (c : char) :
  digits_value (ds ++ [c]) = 10 * digits_value ds + (c - 48).
Proof. unfold digits_value. now rewrite fold_left_app. Qed.

Lemma digits_fuel_spec (fuel : nat) (n : Z) (acc : pystr) :
  (0 < fuel)%nat -> 0 <= n < 2 ^ Z.of_nat fuel ->
  exists ds,
    digits_fuel fuel n acc = ds ++ acc
    /\ ds <> [] /\ Forall digit ds /\ digits_value ds = n.
Proof.
  revert n acc. induction fuel as [|f IH]; intros n acc Hf Hn; [lia|].
  cbn [digits_fuel].
  pose proof (Z.mod_pos_bound n 10 ltac:(lia)) as Hmod.
  destruct (Z.ltb_spec n 10) as [Hlt|Hge].
  - exists [digit_char (n mod 10)]. split; [reflexivity|].
    split; [discriminate|]. split.
    + constructor; [apply digit_char_digit; lia | constructor].
    + unfold digits_value, digit_char. cbn [fold_left].
      rewrite Z.mod_small by lia. lia.
  - rewrite Nat2Z.inj_succ, Z.pow_succ_r in Hn by lia.
    assert (0 < f)%nat as Hf'.
    { destruct f; [|lia]. change (2 ^ Z.of_nat 0) with 1 in Hn. lia. }
    assert (0 <= n / 10 < 2 ^ Z.of_nat f) as Hn'.
    { split; [apply Z.div_pos; lia|].
      apply Z.div_lt_upper_bound; lia. }
    destruct (IH (n / 10) (digit_char (n mod 10) :: acc) Hf' Hn')
      as (ds & Hds & Hne & Hall & Hval).
    exists (ds ++ [digit_char (n mod 10)]). split; [|split; [|split]].
    + rewrite Hds. now rewrite <- app_assoc.
    + destruct ds; discriminate.
    + apply Forall_app. split; [assumption|].
      constructor; [apply digit_char_digit; lia | constructor].
    + rewrite digits_value_app, Hval. unfold digit_char.
      pose proof (Z.div_mod n 10 ltac:(lia)). lia.
Qed.

Lemma str_of_nonneg_spec (n : Z) :
  0 <= n ->
  str_of_nonneg n <> [] /\ Forall digit (str_of_nonneg n)
  /\ digits_value (str_of_nonneg n) = n.
Proof.
  intros Hn. unfold str_of_nonneg.
  destruct (digits_fuel_spec (S (Z.to_nat (Z.log2 n))) n [])
    as (ds & Hds & Hne & Hall & Hval).
  - lia.
  - split; [assumption|]. rewrite Nat2Z.inj_succ, Z2Nat.id by apply Z.log2_nonneg.
    destruct (Z.eq_dec n 0) as [->|Hnz]; [reflexivity|].
    apply Z.log2_spec. lia.
  - rewrite Hds, app_nil_r. auto.
Qed.

(** ** [str.replace] with a one-character pattern *)

Lemma replace_char (old new : char) (s : pystr) :
  replace old [new] s = map (fun c => if char_eqb c old then new else c) s.
Proof.
  unfold replace. induction s as [|c s IH]; [reflexivity|].
  cbn [flat_map map]. rewrite IH. now destruct (char_eqb c old).
Qed.

Lemma replace_delete (old : char) (s : pystr) :
  replace old [] s = filter (fun c => negb (char_eqb c old)) s.
Proof.
  unfold replace. induction s as [|c s IH]; [reflexivity|].
  cbn [flat_map filter]. rewrite IH. now destruct (char_eqb c old).
Qed.

Lemma filter_digits (sep : char) (ds : pystr) :
  ~ digit sep -> Forall digit ds ->
  filter (fun c => negb (char_eqb c sep)) ds = ds.
Proof.
  intros Hsep Hall. induction Hall as [|c ds Hc Hds IH]; [reflexivity|].
  cbn [filter]. unfold char_eqb at 1.
  destruct (Z.eqb_spec c sep) as [->|_]; [contradiction|].
  cbn [negb]. now rewrite IH.
Qed.

Lemma map_digits (g : char -> char) (ds : pystr) :
  (forall c, digit c -> g c = c) -> Forall digit ds -> map g ds = ds.
Proof.
  intros Hg Hall. induction Hall as [|c ds Hc Hds IH]; [reflexivity|].
  cbn [map]. now rewrite Hg, IH.
Qed.

(** ** Grouping by thousands *)

Lemma filter_group3 (sep : char) (ds : pystr) (k : nat) (acc : pystr) :
  ~ digit sep -> Forall digit ds ->
  filter (fun c => negb (char_eqb c sep)) (group3 sep ds k acc)
  = rev ds ++ filter (fun c => negb (char_eqb c sep)) acc.
Proof.
  intros Hsep Hall. revert k acc.
  induction Hall as [|d ds Hd Hds IH]; intros k acc; [reflexivity|].
  assert (negb (char_eqb d sep) = true) as Hd'.
  { unfold char_eqb. destruct (Z.eqb_spec d sep) as [->|_];
      [contradiction | reflexivity]. }
  cbn [group3 rev]. destruct (Nat.eqb k 3); rewrite IH; cbn [filter];
    rewrite Hd'; unfold char_eqb; rewrite ?Z.eqb_refl; cbn [negb];
    now rewrite <- app_assoc.
Qed.

Lemma map_group3 (g : char -> char) (sep : char) (ds : pystr) (k : nat)
      (acc : pystr) :
  map g (group3 sep ds k acc) = group3 (g sep) (map g ds) k (map g acc).
Proof.
  revert k acc. induction ds as [|d ds IH]; intros k acc; [reflexivity|].
  cbn [group3 map]. destruct (Nat.eqb k 3); now rewrite IH.
Qed.

Lemma trocar_digit (c : char) : digit c -> trocar c = c.
Proof.
  unfold digit, trocar, char_eqb, COMMA, DOT, LETTER_X. intros H.
  destruct (Z.eqb_spec c 44); [lia|]. destruct (Z.eqb_spec c 46); [lia|].
  destruct (Z.eqb_spec c 88); [lia | reflexivity].
Qed.

Lemma replace_chain (s : pystr) :
  replace LETTER_X [DOT] (replace DOT [COMMA] (replace COMMA [LETTER_X] s))
  = map trocar s.
Proof. rewrite !replace_char, !map_map. reflexivity. Qed.

Lemma trocar_fmt_cents (N : Z) :
  0 <= N -> map trocar (fmt_cents N) = ptbr_canonico N.
Proof.
  intros HN. unfold fmt_cents, ptbr_canonico, fmt_cents_with, with_sep.
  destruct (str_of_nonneg_spec (N / 100) ltac:(apply Z.div_pos; lia))
    as (_ & Hall & _).
  rewrite map_app, map_group3. cbn [map].
  change (trocar COMMA) with DOT. change (trocar DOT) with COMMA.
  rewrite (map_digits trocar (rev (str_of_nonneg (N / 100))) trocar_digit)
    by (now apply Forall_rev).
  rewrite !trocar_digit
    by (apply digit_char_digit;
        match goal with
        | |- 0 <= ?x mod 10 <= 9 =>
          pose proof (Z.mod_pos_bound x 10 ltac:(lia)); lia
        end).
  reflexivity.
Qed.

Lemma digit_not_sep (sep c : char) :
  ~ digit sep -> digit c -> negb (char_eqb c sep) = true.
Proof.
  intros Hsep Hc. unfold char_eqb.
  destruct (Z.eqb_spec c sep) as [->|_]; [contradiction | reflexivity].
Qed.

Lemma delete_separators_fmt_cents (N : Z) :
  0 <= N ->
  replace DOT [] (replace COMMA [] (fmt_cents N))
  = str_of_nonneg (N / 100)
    ++ [digit_char ((N / 10) mod 10); digit_char (N mod 10)].
Proof.
  intros HN. unfold fmt_cents, fmt_cents_with, with_sep.
  destruct (str_of_nonneg_spec (N / 100) ltac:(apply Z.div_pos; lia))
    as (_ & Hall & _).
  pose proof (Z.mod_pos_bound (N / 10) 10 ltac:(lia)) as Hm1.
  pose proof (Z.mod_pos_bound N 10 ltac:(lia)) as Hm0.
  pose proof (digit_char_digit ((N / 10) mod 10) ltac:(lia)) as H1.
  pose proof (digit_char_digit (N mod 10) ltac:(lia)) as H0.
  assert (~ digit COMMA) as HC by (unfold digit, COMMA; lia).
  assert (~ digit DOT) as HD by (unfold digit, DOT; lia).
  set (d1 := digit_char ((N / 10) mod 10)) in *.
  set (d0 := digit_char (N mod 10)) in *.
  rewrite !replace_delete, filter_app.
  rewrite filter_group3 by (try assumption; now apply Forall_rev).
  rewrite rev_involutive.
  assert (filter (fun c => negb (char_eqb c COMMA)) [DOT; d1; d0] = [DOT; d1; d0])
    as ->.
  { cbn [filter].
    rewrite (digit_not_sep COMMA d1), (digit_not_sep COMMA d0) by assumption.
    reflexivity. }
  cbn [filter]. rewrite app_nil_r, filter_app.
  rewrite (filter_digits DOT (str_of_nonneg (N / 100))) by assumption.
  f_equal. cbn [filter].
  rewrite (digit_not_sep DOT d1), (digit_not_sep DOT d0) by assumption.
  reflexivity.
Qed.

Lemma digits_value_cents (N : Z) :
  0 <= N ->
  digits_value (str_of_nonneg (N / 100)
                ++ [digit_char ((N / 10) mod 10); digit_char (N mod 10)])
  = N.
Proof.
  intros HN.
  destruct (str_of_nonneg_spec (N / 100) ltac:(apply Z.div_pos; lia))
    as (_ & _ & Hval).
  change [digit_char ((N / 10) mod 10); digit_char (N mod 10)]
    with ([digit_char ((N / 10) mod 10)] ++ [digit_char (N mod 10)]).
  rewrite app_assoc, !digits_value_app, Hval. unfold digit_char.
  pose proof (Z.div_mod N 10 ltac:(lia)).
  pose proof (Z.div_mod (N / 10) 10 ltac:(lia)).
  rewrite Z.div_div in * by lia. change (10 * 10) with 100 in *. lia.
Qed.

(** ** [float()] on an unsigned decimal literal *)

Ltac bool_lia :=
  repeat match goal with
         | |- context [?a <=? ?b] => destruct (Z.leb_spec a b)
         | |- context [?a <? ?b] => destruct (Z.ltb_spec a b)
         | |- context [?a =? ?b] => destruct (Z.eqb_spec a b)
         end;
  cbn [andb orb negb]; try reflexivity; try lia.

Lemma plain_ascii (c : char) : plain c -> c < 128.
Proof. unfold plain, digit, DOT. lia. Qed.

Lemma plain_not_space (c : char) : plain c -> isspace c = false.
Proof. unfold plain, digit, DOT, isspace. intros H. bool_lia. Qed.

Lemma plain_not_space_ascii (c : char) : plain c -> py_isspace_ascii c = false.
Proof. unfold plain, digit, DOT, py_isspace_ascii. intros H. bool_lia. Qed.

Lemma digits_plain (ds : pystr) : Forall digit ds -> Forall plain ds.
Proof. apply Forall_impl. intros c H. now left. Qed.

Lemma to_ascii_plain (nd : char -> option Z) (s : pystr) :
  Forall plain s -> map (to_ascii nd) s = s.
Proof.
  induction 1 as [|c s Hc Hs IH]; [reflexivity|].
  cbn [map]. rewrite IH. unfold to_ascii.
  apply plain_ascii in Hc.
  now replace (c <? 128) with true by (symmetry; apply Z.ltb_lt; lia).
Qed.

Lemma drop_underscores_plain (prev : char) (s : pystr) :
  prev <> UNDERSCORE -> Forall plain s -> drop_underscores prev s = Some s.
Proof.
  intros Hprev Hs. revert prev Hprev.
  induction Hs as [|c s Hc Hs IH]; intros prev Hprev; cbn [drop_underscores].
  - unfold char_eqb. now destruct (Z.eqb_spec prev UNDERSCORE).
  - assert (c <> UNDERSCORE) as Hcu
      by (unfold plain, digit, DOT, UNDERSCORE in *; lia).
    unfold char_eqb.
    destruct (Z.eqb_spec c UNDERSCORE); [contradiction|].
    destruct (Z.eqb_spec prev UNDERSCORE); [contradiction|].
    cbn [andb]. now rewrite IH.
Qed.

Lemma lstrip_ascii_plain (s : pystr) : Forall plain s -> lstrip_ascii s = s.
Proof.
  destruct 1 as [|c s Hc Hs]; [reflexivity|].
  cbn [lstrip_ascii]. now rewrite plain_not_space_ascii.
Qed.

Lemma lstrip_plain (s : pystr) : Forall plain s -> lstrip s = s.
Proof.
  destruct 1 as [|c s Hc Hs]; [reflexivity|].
  cbn [lstrip]. now rewrite plain_not_space.
Qed.

Lemma strip_plain (s : pystr) : Forall plain s -> strip s = s.
Proof.
  intros H. unfold strip, rstrip. rewrite (lstrip_plain s H).
  rewrite lstrip_plain by (now apply Forall_rev). apply rev_involutive.
Qed.

Lemma span_digits_app (ds r : pystr) :
  Forall digit ds ->
  match r with
  | c :: _ => is_ascii_digit c = false
  | [] => True
  end ->
  span_digits (ds ++ r) = (ds, r).
Proof.
  intros Hds Hr. induction Hds as [|d ds Hd Hds IH]; cbn [app span_digits].
  - destruct r as [|c r]; [reflexivity|]. cbn [span_digits]. now rewrite Hr.
  - apply is_ascii_digit_iff in Hd. now rewrite Hd, IH.
Qed.

Lemma parse_unsigned (c : char) (ip' r : pystr) (fp : pystr) :
  digit c -> Forall digit ip' -> Forall digit fp ->
  r = [] /\ fp = [] \/ r = DOT :: fp ->
  parse_float_literal ((c :: ip') ++ r)
  = Some (f64_of_decimal false (digits_value ((c :: ip') ++ fp))
            (0 - Z.of_nat (length fp))).
Proof.
  intros Hc Hip Hfp Hr. unfold parse_float_literal.
  assert (take_sign ((c :: ip') ++ r) = (false, (c :: ip') ++ r)) as ->.
  { cbn [app take_sign]. unfold digit in Hc. bool_lia. }
  assert (lower c = c) as Hlow by (unfold lower, digit in *; bool_lia).
  cbn [app map]. rewrite Hlow.
  change (u "inf") with [105; 110; 102].
  change (u "infinity") with [105; 110; 102; 105; 110; 105; 116; 121].
  change (u "nan") with [110; 97; 110].
  cbn [str_eqb]. unfold char_eqb.
  replace (c =? 105) with false
    by (symmetry; apply Z.eqb_neq; unfold digit in Hc; lia).
  replace (c =? 110) with false
    by (symmetry; apply Z.eqb_neq; unfold digit in Hc; lia).
  cbn [andb orb].
  change (c :: ip' ++ r) with ((c :: ip') ++ r).
  rewrite (span_digits_app (c :: ip') r).
  - destruct Hr as [[-> ->] | ->].
    + cbn [app parse_exponent length Z.of_nat]. reflexivity.
    + unfold DOT at 1. change (46 =? DOT) with true. cbv iota.
      rewrite <- (app_nil_r fp) at 1.
      rewrite (span_digits_app fp []) by (assumption || exact I).
      cbn [app parse_exponent]. reflexivity.
  - now constructor.
  - destruct Hr as [[-> _] | ->]; [exact I | reflexivity].
Qed.

Lemma py_float_unsigned (nd : char -> option Z) (ip r fp : pystr) :
  ip <> [] -> Forall digit ip -> Forall digit fp ->
  r = [] /\ fp = [] \/ r = DOT :: fp ->
  py_float nd (ip ++ r)
  = Ok (f64_of_decimal false (digits_value (ip ++ fp))
          (0 - Z.of_nat (length fp))).
Proof.
  intros Hne Hip Hfp Hr.
  assert (Forall plain (ip ++ r)) as Hplain.
  { apply Forall_app. split; [now apply digits_plain|].
    destruct Hr as [[-> _] | ->]; [constructor|].
    constructor; [now right | now apply digits_plain]. }
  unfold py_float. rewrite to_ascii_plain by assumption.
  rewrite drop_underscores_plain by (assumption || discriminate).
  rewrite (lstrip_ascii_plain (ip ++ r)) by assumption.
  rewrite lstrip_ascii_plain by (now apply Forall_rev).
  rewrite rev_involutive.
  destruct ip as [|c ip']; [congruence|].
  inversion Hip; subst.
  now rewrite (parse_unsigned c ip' r fp).
Qed.

(** ** The rendering of a number of hundredths *)

Lemma formatar_fmt_cents (nd : char -> option Z) (N : Z) :
  0 <= N < 2 ^ 52 -> formatar_valor_brl nd (fmt_cents N) = ptbr_canonico N.
Proof.
  intros HN. unfold formatar_valor_brl.
  rewrite delete_separators_fmt_cents by lia.
  destruct (str_of_nonneg_spec (N / 100) ltac:(apply Z.div_pos; lia))
    as (Hne & Hall & _).
  pose proof (Z.mod_pos_bound (N / 10) 10 ltac:(lia)) as Hm1.
  pose proof (Z.mod_pos_bound N 10 ltac:(lia)) as Hm0.
  rewrite <- (app_nil_r (str_of_nonneg (N / 100) ++ _)).
  rewrite (py_float_unsigned nd _ [] []).
  - rewrite app_nil_r, digits_value_cents by lia.
    cbn [length Z.of_nat Z.sub]. unfold f64_of_decimal.
    destruct (Z.eqb_spec N 0) as [->|Hnz].
    + rewrite <- trocar_fmt_cents, <- replace_chain by lia. reflexivity.
    + change (0 <=? 0 - 0) with true. cbv iota.
      change (10 ^ (0 - 0)) with 1. rewrite Z.mul_1_r.
      rewrite format_div_100 by lia.
      rewrite replace_chain. apply trocar_fmt_cents. lia.
  - destruct (str_of_nonneg (N / 100)); [congruence | discriminate].
  - apply Forall_app. split; [assumption|].
    repeat constructor; apply digit_char_digit; lia.
  - constructor.
  - now left.
Qed.

Lemma format_of_decimal (n k N : Z) :
  0 <= n -> 0 <= k <= 2 -> N = n * 10 ^ (2 - k) -> N < 2 ^ 52 ->
  format_2f (f64_of_decimal false n (0 - k)) = fmt_cents N.
Proof.
  intros Hn Hk -> HN. unfold f64_of_decimal.
  destruct (Z.eqb_spec n 0) as [->|Hnz]; [reflexivity|].
  assert (k = 0 \/ k = 1 \/ k = 2) as [-> | [-> | ->]] by lia.
  - change (0 <=? 0 - 0) with true. cbv iota.
    change (10 ^ (0 - 0)) with 1. change (10 ^ (2 - 0)) with 100 in *.
    apply format_round_q_cents; lia.
  - change (0 <=? 0 - 1) with false. cbv iota.
    change (10 ^ (- (0 - 1))) with 10. change (10 ^ (2 - 1)) with 10 in *.
    apply format_round_q_cents; lia.
  - change (0 <=? 0 - 2) with false. cbv iota.
    change (10 ^ (- (0 - 2))) with 100. change (10 ^ (2 - 2)) with 1 in *.
    apply format_round_q_cents; lia.
Qed.

Lemma digits_value_nonneg (ds : pystr) : Forall digit ds -> 0 <= digits_value ds.
Proof.
  intros H. unfold digits_value.
  assert (forall acc, 0 <= acc ->
            0 <= fold_left (fun acc c => 10 * acc + (c - 48)) ds acc) as Hf.
  { induction H as [|c ds Hc Hds IH]; intros acc Hacc; [assumption|].
    cbn [fold_left]. apply IH. unfold digit in Hc. lia. }
  apply Hf. lia.
Qed.

Lemma to_float_unsigned (nd : char -> option Z) (ip fp : pystr) :
  ip <> [] -> Forall digit ip -> Forall digit fp ->
  _to_float nd (VStr (ip ++ COMMA :: fp))
  = f64_of_decimal false (digits_value (ip ++ fp)) (0 - Z.of_nat (length fp))
  /\ _to_float nd (VStr ip)
     = f64_of_decimal false (digits_value ip) 0.
Proof.
  intros Hne Hip Hfp.
  assert (forall ds, Forall digit ds -> replace COMMA [DOT] ds = ds) as Hrep.
  { intros ds Hds. rewrite replace_char. apply map_digits; [|assumption].
    intros c Hc. unfold char_eqb, COMMA. unfold digit in Hc.
    destruct (Z.eqb_spec c 44); [lia | reflexivity]. }
  unfold _to_float. cbn [py_str]. split.
  - assert (replace COMMA [DOT] (ip ++ COMMA :: fp) = ip ++ DOT :: fp) as ->.
    { unfold replace in *. rewrite flat_map_app. cbn [flat_map].
      rewrite (Hrep ip Hip), (Hrep fp Hfp).
      change (char_eqb COMMA COMMA) with true. reflexivity. }
    rewrite strip_plain.
    + now rewrite (py_float_unsigned nd ip (DOT :: fp) fp) by auto.
    + apply Forall_app. split; [now apply digits_plain|].
      constructor; [now right | now apply digits_plain].
  - rewrite (Hrep ip Hip), strip_plain by (now apply digits_plain).
    rewrite <- (app_nil_r ip) at 1.
    rewrite (py_float_unsigned nd ip [] []) by auto.
    now rewrite app_nil_r.
Qed.

(** C1, as the program has it.  For an amount written without thousands
    separators (digits, then optionally a comma and at most two decimals)
    and worth less than [10^15] hundredths, parsing it the arithmetic way
    and rendering the number gives its canonical PT-BR notation. *)
Theorem ida_e_volta_sem_milhar
  (nd : char -> option Z) (ip fp : pystr) :
  ip <> [] -> Forall digit ip -> Forall digit fp -> (length fp <= 2)%nat ->
  let cents := digits_value (ip ++ fp) * 10 ^ (2 - Z.of_nat (length fp)) in
  cents < 10 ^ 15 ->
  format_brl nd (_to_float nd (VStr (ip ++ COMMA :: fp))) = ptbr_canonico cents
  /\ (fp = [] ->
      format_brl nd (_to_float nd (VStr ip)) = ptbr_canonico cents).
Proof.
  intros Hne Hip Hfp Hlen cents Hc.
  destruct (to_float_unsigned nd ip fp Hne Hip Hfp) as [E1 E2].
  assert (0 <= digits_value (ip ++ fp)) as Hn
    by (apply digits_value_nonneg, Forall_app; now split).
  assert (0 <= cents) as Hc0.
  { unfold cents. apply Z.mul_nonneg_nonneg; [assumption|].
    apply Z.pow_nonneg. lia. }
  assert (cents < 2 ^ 52) as Hc52.
  { change (10 ^ 15) with 1000000000000000 in Hc.
    change (2 ^ 52) with 4503599627370496. lia. }
  unfold format_brl. split.
  - rewrite E1.
    rewrite (format_of_decimal (digits_value (ip ++ fp))
               (Z.of_nat (length fp)) cents) by (try assumption; lia || reflexivity).
    apply formatar_fmt_cents. lia.
  - intros ->. rewrite E2. subst cents.
    rewrite app_nil_r in *. cbn [length Z.of_nat] in *.
    change (f64_of_decimal false (digits_value ip) 0)
      with (f64_of_decimal false (digits_value ip) (0 - 0)).
    rewrite (format_of_decimal (digits_value ip) 0
               (digits_value ip * 10 ^ (2 - 0)))
      by (try assumption; lia || reflexivity).
    apply formatar_fmt_cents. lia.
Qed.

(** C1 as stated fails on the amount of the specification's example,
    written with its thousands separator: the arithmetic parse turns the
    comma into a second point,
    [float] rejects the text, the parse yields 0.0 and the rendering is
    ["0,00"], not ["1.234,56"]. *)
Lemma ida_e_volta_com_milhar :
  py_float so_ascii (strip (replace COMMA [DOT] (u "1.234,56")))
  = Raise ValueError
  /\ _to_float so_ascii (VStr (u "1.234,56")) = f64_zero
  /\ format_brl so_ascii (_to_float so_ascii (VStr (u "1.234,56"))) = u "0,00"
  /\ ptbr_canonico 123456 = u "1.234,56"
  /\ format_brl so_ascii (_to_float so_ascii (VStr (u "1.234,56")))
     <> u "1.234,56".
Proof.
  repeat split; try (vm_compute; reflexivity).
  vm_compute. discriminate.
Qed.

Lemma ida_e_volta_sem_milhar_witness :
  let ip := [49; 50; 51; 52] in
  let fp := [53; 54] in
  let cents := digits_value (ip ++ fp) * 10 ^ (2 - Z.of_nat (length fp)) in
  ip <> [] /\ Forall digit ip /\ Forall digit fp /\ (length fp <= 2)%nat
  /\ cents < 10 ^ 15
  /\ format_brl so_ascii (_to_float so_ascii (VStr (ip ++ COMMA :: fp)))
     = ptbr_canonico cents
  /\ (fp = [] ->
      format_brl so_ascii (_to_float so_ascii (VStr ip)) = ptbr_canonico cents).
Proof.
  intros ip fp cents.
  assert (ip <> []) as H1 by discriminate.
  assert (Forall digit ip) as H2 by (repeat constructor; unfold digit; lia).
  assert (Forall digit fp) as H3 by (repeat constructor; unfold digit; lia).
  assert (length fp <= 2)%nat as H4 by (simpl; lia).
  assert (cents < 10 ^ 15) as H5 by (vm_compute; reflexivity).
  repeat (split; [assumption|]).
  exact (ida_e_volta_sem_milhar so_ascii ip fp H1 H2 H3 H4 H5).
Defined.

(** The same amount without the thousands separator does round-trip. *)
Example ida_e_volta_1234_56 :
  format_brl so_ascii (_to_float so_ascii (VStr (u "1234,56"))) = u "1.234,56".
Proof. vm_compute. reflexivity. Qed.

(** ** The float model against the machine's binary64

    On sample operands the operations of the model give the numbers the
    primitive floats of Rocq give. *)

Example f64_parse_agrees :
  _to_float so_ascii (VStr (u "0,1")) = Prim2SF 0x1.999999999999ap-4%float
  /\ _to_float so_ascii (VStr (u "1234,56")) = Prim2SF 0x1.34a3d70a3d70ap+10%float.
Proof. split; vm_compute; reflexivity. Qed.

Example f64_operations_agree :
  let x := _to_float so_ascii (VStr (u "1234,56")) in
  let y := _to_float so_ascii (VStr (u "0,1")) in
  f64_add x y = Prim2SF (SF2Prim x + SF2Prim y)%float
  /\ f64_sub y x = Prim2SF (SF2Prim y - SF2Prim x)%float
  /\ f64_mul x y = Prim2SF (SF2Prim x * SF2Prim y)%float
  /\ f64_div x (f64_of_Z 100) = Prim2SF (SF2Prim x / SF2Prim (f64_of_Z 100))%float
  /\ f64_add x y = SFadd prec emax x y
  /\ f64_sub y x = SFsub prec emax y x
  /\ f64_mul x y = SFmul prec emax x y
  /\ f64_div x (f64_of_Z 100) = SFdiv prec emax x (f64_of_Z 100).
Proof. repeat split; vm_compute; reflexivity. Qed.

(** ** Instances *)

Lemma extrair_data_primeira_ocorrencia_witness :
  1 <= 1
  /\ nth_error paginas_exemplo (Z.to_nat (1 - 1))
     = Some (u "GOVERNO DO ESTADO  COMPETÊNCIA 03/2024  EMISSÃO 05/04/2024")
  /\ ((exists m i,
          extrair_data_da_pagina so_ascii paginas_exemplo 1 = Ok m
          /\ mm_yyyy so_ascii m
          /\ occurs_at m
               (u "GOVERNO DO ESTADO  COMPETÊNCIA 03/2024  EMISSÃO 05/04/2024") i
          /\ forall m' j,
               occurs_at m'
                 (u "GOVERNO DO ESTADO  COMPETÊNCIA 03/2024  EMISSÃO 05/04/2024") j ->
               mm_yyyy so_ascii m' -> (i <= j)%nat)
      \/ (extrair_data_da_pagina so_ascii paginas_exemplo 1 = Ok (u "N/D")
          /\ forall m i,
               occurs_at m
                 (u "GOVERNO DO ESTADO  COMPETÊNCIA 03/2024  EMISSÃO 05/04/2024") i ->
               ~ mm_yyyy so_ascii m)).
Proof.
  split; [lia|]. split; [reflexivity|].
  apply (extrair_data_primeira_ocorrencia so_ascii paginas_exemplo 1);
    [lia | reflexivity].
Defined.

Lemma separar_linhas_multiplas_expande_witness :
  Forall (fun row : list value => row <> [])
         [[VStr [65; 10; 66]; VStr [49; 10; 50]]]
  /\ exists blocos,
       _separar_linhas_multiplas
         (mkDF [u "x"; u "y"] [[VStr [65; 10; 66]; VStr [49; 10; 50]]])
       = Ok (frame_of_records [u "x"; u "y"] (List.concat blocos))
       /\ Forall2 expansao_de [[VStr [65; 10; 66]; VStr [49; 10; 50]]] blocos.
Proof.
  assert (Forall (fun row : list value => row <> [])
                 [[VStr [65; 10; 66]; VStr [49; 10; 50]]]) as H
    by (constructor; [discriminate | constructor]).
  split; [exact H|].
  exact (separar_linhas_multiplas_expande
           (mkDF [u "x"; u "y"] [[VStr [65; 10; 66]; VStr [49; 10; 50]]]) H).
Defined.

Lemma cabecalho_descricao_witness :
  exists d,
    extrair_data_da_pagina so_ascii paginas_exemplo 1 = Ok d
    /\ processar_contracheques_camelot so_ascii paginas_exemplo
         [tabela_seis_colunas]
       = Some
           (mkDF [col_COD; col_Descricao; col_TOTAL; col_DATA]
                 (map (item_de d)
                      (List.concat
                         (map linhas_expandidas
                              (map (map VStr)
                                   [[[69; 77; 80; 82; 10; 83; 69; 71]; u "D";
                                     [49; 48; 49; 10; 50; 48; 50]; u ""; u "";
                                     [49; 48; 48; 44; 48; 48; 10; 53; 48; 44; 48; 48]]]))))).
Proof.
  destruct (cabecalho_descricao so_ascii paginas_exemplo) as (_ & _ & H).
  apply (H [[u "SEAD"; u ""; u ""; u ""; u ""; u ""]]
           [u "DESCRIÇÃO"; u "PVD"; u "COD"; u "BASE"; u "VALOR UNITÁRIO";
            u "TOTAL"]
           [[[69; 77; 80; 82; 10; 83; 69; 71]; u "D";
             [49; 48; 49; 10; 50; 48; 50]; u ""; u "";
             [49; 48; 48; 44; 48; 48; 10; 53; 48; 44; 48; 48]]] 1).
  - repeat constructor.
  - reflexivity.
  - vm_compute. now left.
  - lia.
Defined.

Lemma cruzar_aceita_por_descricao_witness :
  let best := melhor_pontuacao lstrip razao_exemplo [u "EMPRESTIMO"; u "SEGURO"] in
  (forall desc,
      0 <= best desc <= 100
      /\ (exists r, In r [u "EMPRESTIMO"; u "SEGURO"]
                    /\ best desc = fuzz_ratio razao_exemplo (lstrip desc) (lstrip r))
      /\ (forall r, In r [u "EMPRESTIMO"; u "SEGURO"] ->
                    fuzz_ratio razao_exemplo (lstrip desc) (lstrip r) <= best desc))
  /\ cruzar_descontos_com_rubricas lstrip razao_exemplo descontos_exemplo
       [u "EMPRESTIMO"; u "SEGURO"] 85
     = Ok (mkDF (columns descontos_exemplo)
                (map snd
                     (filter (fun dr => 85 <=? best (fst dr))
                             (combine [u "EMPRESTIMO"; u "Indébito (A-B)"]
                                      (data descontos_exemplo)))))
  /\ (forall desc, In desc [u "EMPRESTIMO"; u "SEGURO"] -> 85 <= 100 ->
                   (85 <=? best desc) = true).
Proof.
  apply (cruzar_aceita_por_descricao lstrip razao_exemplo descontos_exemplo
           [u "EMPRESTIMO"; u "SEGURO"] 85
           [u "EMPRESTIMO"; u "Indébito (A-B)"]).
  - intros a b. unfold razao_exemplo.
    destruct (Nat.eqb (length a) (length b)); lia.
  - discriminate.
  - discriminate.
  - reflexivity.
Defined.

Lemma cruzar_entradas_vazias_witness :
  (data descontos_exemplo = [] \/ @nil pystr = [])
  /\ cruzar_descontos_com_rubricas lstrip razao_exemplo descontos_exemplo [] 85
     = Ok empty_frame.
Proof.
  split; [now right|].
  apply (cruzar_entradas_vazias lstrip razao_exemplo descontos_exemplo [] 85).
  now right.
Defined.

Lemma soma_zero_devolve_entrada_witness :
  getitem descontos_milhar col_DESCONTOS = Ok [VStr (u "1.234,56")]
  /\ (f64_eq_zero (valor_A so_ascii [VStr (u "1.234,56")]) = true ->
      inserir_totais_na_coluna so_ascii estado_exemplo descontos_milhar
        col_DESCONTOS
      = Ok descontos_milhar)
  /\ (forall x e,
         py_float so_ascii (strip (replace COMMA [DOT] (py_str x))) = Raise e ->
         _to_float so_ascii x = f64_zero)
  /\ ((forall x, In x [VStr (u "1.234,56")] ->
         exists e,
           py_float so_ascii (strip (replace COMMA [DOT] (py_str x))) = Raise e) ->
      inserir_totais_na_coluna so_ascii estado_exemplo descontos_milhar
        col_DESCONTOS
      = Ok descontos_milhar).
Proof.
  split; [reflexivity|].
  apply (soma_zero_devolve_entrada so_ascii estado_exemplo descontos_milhar
           col_DESCONTOS [VStr (u "1.234,56")]).
  reflexivity.
Defined.

Lemma col_DESCONTOS_not_desc : col_DESCONTOS <> DESCRICAO.
Proof. intros H. vm_compute in H. discriminate. Qed.

Lemma quatro_linhas_de_resumo_witness :
  let valores := [VStr (u "100,00"); VStr (u "50,00")] in
  let A := valor_A so_ascii valores in
  let B := valor_B so_ascii estado_exemplo in
  let indebito := f64_sub A B in
  let indebito_dobro := f64_mul (f64_of_Z 2) indebito in
  let cols' := colunas_finais descontos_exemplo in
  getitem descontos_exemplo col_DESCONTOS = Ok valores
  /\ f64_eq_zero A = false
  /\ exists linhas rA rB rI rD,
       inserir_totais_na_coluna so_ascii estado_exemplo descontos_exemplo
         col_DESCONTOS
       = Ok (mkDF cols' (linhas ++ [rA; rB; rI; rD]))
       /\ length linhas = length (data descontos_exemplo)
       /\ linha_de_resumo cols' col_DESCONTOS marca_A (format_2f A) rA
       /\ linha_de_resumo cols' col_DESCONTOS marca_B
            (strip (texto_B estado_exemplo)) rB
       /\ linha_de_resumo cols' col_DESCONTOS marca_indebito
            (format_2f indebito) rI
       /\ linha_de_resumo cols' col_DESCONTOS marca_dobro
            (format_2f indebito_dobro) rD
       /\ (f64_lt_zero indebito = true ->
           exists t, format_2f indebito = MINUS :: t)
       /\ (f64_lt_zero indebito_dobro = true ->
           exists t, format_2f indebito_dobro = MINUS :: t).
Proof.
  intros valores A B indebito indebito_dobro cols'.
  split; [reflexivity|]. split; [vm_compute; reflexivity|].
  apply (quatro_linhas_de_resumo so_ascii estado_exemplo descontos_exemplo
           col_DESCONTOS valores).
  - reflexivity.
  - intros H. vm_compute in H. discriminate.
  - vm_compute. reflexivity.
Defined.

Lemma linhas_marcadoras_preexistentes_witness :
  let valores := [VStr (u "100,00"); VStr (u "50,00")] in
  let cols := columns descontos_exemplo in
  let cols' := colunas_finais descontos_exemplo in
  getitem descontos_exemplo col_DESCONTOS = Ok valores
  /\ f64_eq_zero (valor_A so_ascii valores) = false
  /\ exists linhas resumo,
       inserir_totais_na_coluna so_ascii estado_exemplo descontos_exemplo
         col_DESCONTOS
       = Ok (mkDF cols' (linhas ++ resumo))
       /\ length resumo = 4%nat
       /\ Forall2
            (fun r r' =>
               (descricao_marcadora cols r ->
                linha_esvaziada cols cols' col_DESCONTOS r r'
                /\ forall pdf,
                     exists pdf' pre cells,
                       montar_linha so_ascii (fun s => s) cols' pdf r' = Ok pdf'
                       /\ printed pdf' = printed pdf ++ pre ++ cells
                       /\ length cells = length cols'
                       /\ Forall estilo_resumo cells)
               /\ (~ descricao_marcadora cols r ->
                   linha_preservada cols cols' r r'))
            (data descontos_exemplo) linhas.
Proof.
  intros valores cols cols'.
  split; [reflexivity|]. split; [vm_compute; reflexivity|].
  apply (linhas_marcadoras_preexistentes so_ascii (fun s => s) estado_exemplo
           descontos_exemplo col_DESCONTOS valores).
  - reflexivity.
  - intros H. vm_compute in H. discriminate.
  - vm_compute. reflexivity.
Defined.

(** The totals 100,00 and 50,00 with 50,00 received: A = 150.00, the
    indébito 100.00 and its double 200.00; the data row that already reads
    ["Indébito (A-B)"] loses its code and its date. *)
Example inserir_totais_exemplo :
  inserir_totais_na_coluna so_ascii estado_exemplo descontos_exemplo col_DESCONTOS
  = Ok (mkDF [col_COD; DESCRICAO; col_DESCONTOS; col_DATA]
          [[VStr (u "101"); VStr (u "EMPRESTIMO"); VStr (u "100,00");
            VStr (u "01/2024")];
           [VStr []; VStr (u "Indébito (A-B)"); VStr (u "50,00"); VStr []];
           [VStr []; VStr marca_A; VStr (u "150.00"); VStr []];
           [VStr []; VStr marca_B; VStr (u "50,00"); VStr []];
           [VStr []; VStr marca_indebito; VStr (u "100.00"); VStr []];
           [VStr []; VStr marca_dobro; VStr (u "200.00"); VStr []]]).
Proof. vm_compute. reflexivity. Qed.

(** A received amount above the total: the negative values are kept. *)
Example inserir_totais_negativo :
  inserir_totais_na_coluna so_ascii (mkState None None (Some (u "250,5")))
    descontos_exemplo col_DESCONTOS
  = Ok (mkDF [col_COD; DESCRICAO; col_DESCONTOS; col_DATA]
          [[VStr (u "101"); VStr (u "EMPRESTIMO"); VStr (u "100,00");
            VStr (u "01/2024")];
           [VStr []; VStr (u "Indébito (A-B)"); VStr (u "50,00"); VStr []];
           [VStr []; VStr marca_A; VStr (u "150.00"); VStr []];
           [VStr []; VStr marca_B; VStr (u "250,5"); VStr []];
           [VStr []; VStr marca_indebito; VStr (u "-100.50"); VStr []];
           [VStr []; VStr marca_dobro; VStr (u "-201.00"); VStr []]]).
Proof. vm_compute. reflexivity. Qed.

(** Fewer than eight totals are added one after the other. *)
Lemma series_sum_curta (xs : list float) :
  (length xs < 8)%nat -> Forall (fun x => f64_isnan x = false) xs ->
  xs <> [] ->
  series_sum xs = f64_add (S754_zero true) (fold_left f64_add xs (S754_zero true)).
Proof.
  intros Hn Hnan Hne. unfold series_sum.
  assert (map (fun x => if f64_isnan x then f64_zero else x) xs = xs) as ->.
  { clear Hn Hne. induction Hnan as [|x l Hx _ IH]; [reflexivity|].
    cbn [map]. now rewrite Hx, IH. }
  destruct xs as [|x xs]; [congruence|]. unfold np_sum.
  destruct (length (x :: xs)) as [|n] eqn:E; [discriminate|].
  cbn [pairwise_sum]. rewrite E.
  now replace (Nat.ltb (S n) 8) with true by (symmetry; apply Nat.ltb_lt; lia).
Qed.

(** Eight totals are added in eight partial sums.  The column
    -1,1 -0,7 1,1 -0,1 0,7 -0,7 0,1 0,7 has the sum -2^-53, where adding the
    totals one after the other gives 0.0: four rows are appended, and A is
    printed as -0.00. *)
Example soma_de_oito_linhas :
  valor_A so_ascii (map VStr totais_residuo)
  = Prim2SF (-0x1p-53)%float
  /\ fold_left f64_add (map (_to_float so_ascii) (map VStr totais_residuo))
       f64_zero
     = f64_zero
  /\ inserir_totais_na_coluna so_ascii estado_exemplo
       (oito_linhas totais_residuo) col_DESCONTOS
     = Ok (mkDF [DESCRICAO; col_DESCONTOS]
             (data (oito_linhas totais_residuo)
              ++ [[VStr marca_A; VStr (u "-0.00")];
                  [VStr marca_B; VStr (u "50,00")];
                  [VStr marca_indebito; VStr (u "-50.00")];
                  [VStr marca_dobro; VStr (u "-100.00")]])).
Proof. repeat split; vm_compute; reflexivity. Qed.

(** The column -0,3 0,2 0,4 -1,1 0,4 -0,1 0,7 -0,2 has the sum 0.0, where
    adding the totals one after the other gives -2^-54: the selection is
    returned as it is. *)
Example soma_nula_de_oito_linhas :
  f64_eq_zero (valor_A so_ascii (map VStr totais_anulados)) = true
  /\ fold_left f64_add (map (_to_float so_ascii) (map VStr totais_anulados))
       f64_zero
     = Prim2SF (-0x1p-54)%float
  /\ inserir_totais_na_coluna so_ascii estado_exemplo
       (oito_linhas totais_anulados) col_DESCONTOS
     = Ok (oito_linhas totais_anulados).
Proof. repeat split; vm_compute; reflexivity. Qed.

(** More than 128 values are cut in two: 200 times 0.1 is cut at 96, and the
    sum is 20.0, where adding one after the other gives 20.000000000000014. *)
Example soma_de_duzentas_linhas :
  series_sum (repeat (Prim2SF 0.1%float) 200) = Prim2SF 20%float
  /\ fold_left f64_add (repeat (Prim2SF 0.1%float) 200) f64_zero
     = Prim2SF 0x1.4000000000004p+4%float.
Proof. split; vm_compute; reflexivity. Qed.

(* ================================================================= *)
(** * Further properties of the code *)

(** Decide a property of every character of a literal text. *)
Ltac each_char tac :=
  match goal with
  | |- Forall _ ?s =>
    let s' := eval vm_compute in s in
    change s with s';
    repeat (apply Forall_cons; [tac|]); apply Forall_nil
  end.

Ltac is_digit := unfold digit; lia.
Ltac is_numeral :=
  first [left; unfold digit; lia | right; left; reflexivity
        | right; right; reflexivity].

(** ** [formatar_valor_brl] reads digits as hundredths *)

Lemma delete_separators_numeral (s : pystr) :
  Forall numeral s -> replace DOT [] (replace COMMA [] s) = so_digitos s.
Proof.
  intros H. rewrite !replace_delete. unfold so_digitos.
  induction H as [|c s Hc Hs IH]; [reflexivity|].
  cbn [filter]. unfold char_eqb at 2.
  destruct Hc as [Hd | [-> | ->]].
  - pose proof Hd as Hd'. apply is_ascii_digit_iff in Hd'. rewrite Hd'.
    unfold digit, COMMA, DOT in *.
    destruct (Z.eqb_spec c 44); [lia|]. cbn [negb filter].
    unfold char_eqb at 1. destruct (Z.eqb_spec c 46); [lia|].
    cbn [negb]. now rewrite IH.
  - change (DOT =? COMMA) with false. cbn [negb filter].
    change (negb (char_eqb DOT DOT)) with false.
    change (is_ascii_digit DOT) with false. cbv iota. exact IH.
  - change (COMMA =? COMMA) with true. cbn [negb].
    change (is_ascii_digit COMMA) with false. cbv iota. exact IH.
Qed.

Lemma so_digitos_digits (s : pystr) : Forall digit (so_digitos s).
Proof.
  unfold so_digitos. apply Forall_forall. intros c Hc.
  apply filter_In in Hc as [_ Hc]. now apply is_ascii_digit_iff.
Qed.

(** A text whose separators, once deleted, leave the digits [ds] is rendered
    as the number of hundredths [ds] writes. *)
Lemma formatar_of_digits (nd : char -> option Z) (valor ds : pystr) :
  replace DOT [] (replace COMMA [] valor) = ds ->
  ds <> [] -> Forall digit ds -> digits_value ds < 2 ^ 52 ->
  formatar_valor_brl nd valor = ptbr_canonico (digits_value ds).
Proof.
  intros Hdel Hne Hds HN. unfold formatar_valor_brl. rewrite Hdel.
  pose proof (digits_value_nonneg ds Hds) as H0.
  rewrite <- (app_nil_r ds) at 1.
  rewrite (py_float_unsigned nd ds [] []) by auto.
  rewrite app_nil_r. cbn [length Z.of_nat Z.sub]. unfold f64_of_decimal.
  destruct (Z.eqb_spec (digits_value ds) 0) as [E|Hnz].
  - rewrite E. rewrite <- trocar_fmt_cents, <- replace_chain by lia. reflexivity.
  - change (0 <=? 0 - 0) with true. cbv iota.
    change (10 ^ (0 - 0)) with 1. rewrite Z.mul_1_r.
    rewrite format_div_100 by lia.
    rewrite replace_chain. apply trocar_fmt_cents. lia.
Qed.

Lemma ptbr_canonico_numeral (N : Z) : 0 <= N -> Forall numeral (ptbr_canonico N).
Proof.
  intros HN. unfold ptbr_canonico, fmt_cents_with, with_sep.
  destruct (str_of_nonneg_spec (N / 100) ltac:(apply Z.div_pos; lia))
    as (_ & Hall & _).
  pose proof (Z.mod_pos_bound (N / 10) 10 ltac:(lia)) as Hm1.
  pose proof (Z.mod_pos_bound N 10 ltac:(lia)) as Hm0.
  assert (forall ds k acc, Forall digit ds -> Forall numeral acc ->
            Forall numeral (group3 DOT ds k acc)) as Hg.
  { induction ds as [|d ds IH]; intros k acc Hds Hacc; [assumption|].
    inversion Hds as [|? ? Hd Hds']; subst. cbn [group3].
    destruct (Nat.eqb k 3); apply IH; try assumption.
    - apply Forall_cons; [now left|].
      apply Forall_cons; [right; left; reflexivity | assumption].
    - apply Forall_cons; [now left | assumption]. }
  apply Forall_app. split.
  - apply Hg; [now apply Forall_rev | apply Forall_nil].
  - apply Forall_cons; [right; right; reflexivity|].
    apply Forall_cons; [left; apply digit_char_digit; lia|].
    apply Forall_cons; [left; apply digit_char_digit; lia | apply Forall_nil].
Qed.

Lemma so_digitos_ptbr (N : Z) :
  0 <= N ->
  so_digitos (ptbr_canonico N)
  = str_of_nonneg (N / 100)
    ++ [digit_char ((N / 10) mod 10); digit_char (N mod 10)].
Proof.
  intros HN. unfold ptbr_canonico, fmt_cents_with, with_sep, so_digitos.
  destruct (str_of_nonneg_spec (N / 100) ltac:(apply Z.div_pos; lia))
    as (_ & Hall & _).
  pose proof (Z.mod_pos_bound (N / 10) 10 ltac:(lia)) as Hm1.
  pose proof (Z.mod_pos_bound N 10 ltac:(lia)) as Hm0.
  assert (forall ds k acc, Forall digit ds ->
            filter is_ascii_digit (group3 DOT ds k acc)
            = rev ds ++ filter is_ascii_digit acc) as Hg.
  { induction ds as [|d ds IH]; intros k acc Hds; [reflexivity|].
    inversion Hds as [|? ? Hd Hds']; subst. apply is_ascii_digit_iff in Hd.
    cbn [group3 rev]. destruct (Nat.eqb k 3); rewrite IH by assumption;
      cbn [filter]; rewrite Hd; change (is_ascii_digit DOT) with false;
      cbv iota; now rewrite <- app_assoc. }
  rewrite filter_app, Hg by (now apply Forall_rev).
  rewrite rev_involutive. cbn [filter]. rewrite app_nil_r.
  change (is_ascii_digit COMMA) with false. cbv iota.
  pose proof (digit_char_digit ((N / 10) mod 10) ltac:(lia)) as H1.
  pose proof (digit_char_digit (N mod 10) ltac:(lia)) as H0.
  apply is_ascii_digit_iff in H1, H0. now rewrite H1, H0.
Qed.

(** X1. Whatever the places of its points and commas, a text made of digits,
    points and commas is rendered as the number of hundredths that its
    digits write: ["12"] as ["0,12"], ["100,5"] as ["10,05"]. *)
Theorem formatar_le_centavos (nd : char -> option Z) (s : pystr) :
  Forall numeral s -> so_digitos s <> [] ->
  digits_value (so_digitos s) < 2 ^ 52 ->
  formatar_valor_brl nd s = ptbr_canonico (digits_value (so_digitos s)).
Proof.
  intros Hs Hne HN. apply formatar_of_digits; try assumption.
  - now apply delete_separators_numeral.
  - apply so_digitos_digits.
Qed.

(** X2. Rendering is idempotent on monetary texts: a text already rendered
    is left as it is by a second rendering. *)
Theorem formatar_idempotente (nd : char -> option Z) (s : pystr) :
  Forall numeral s -> so_digitos s <> [] ->
  digits_value (so_digitos s) < 2 ^ 52 ->
  formatar_valor_brl nd (formatar_valor_brl nd s) = formatar_valor_brl nd s.
Proof.
  intros Hs Hne HN.
  pose proof (digits_value_nonneg _ (so_digitos_digits s)) as H0.
  rewrite (formatar_of_digits nd s (so_digitos s)
             (delete_separators_numeral s Hs) Hne (so_digitos_digits s) HN).
  set (N := digits_value (so_digitos s)) in *.
  rewrite (formatar_of_digits nd (ptbr_canonico N)
             (so_digitos (ptbr_canonico N))).
  - now rewrite so_digitos_ptbr, digits_value_cents by assumption.
  - apply delete_separators_numeral. now apply ptbr_canonico_numeral.
  - rewrite so_digitos_ptbr by assumption.
    destruct (str_of_nonneg (N / 100)); discriminate.
  - apply so_digitos_digits.
  - now rewrite so_digitos_ptbr, digits_value_cents by assumption.
Qed.

Lemma formatar_le_centavos_witness :
  Forall numeral (u "100,5") /\ so_digitos (u "100,5") <> []
  /\ digits_value (so_digitos (u "100,5")) < 2 ^ 52
  /\ formatar_valor_brl so_ascii (u "100,5")
     = ptbr_canonico (digits_value (so_digitos (u "100,5"))).
Proof.
  assert (Forall numeral (u "100,5")) as H.
  { each_char is_numeral. }
  assert (so_digitos (u "100,5") <> []) as Hne by discriminate.
  assert (digits_value (so_digitos (u "100,5")) < 2 ^ 52) as HN
    by (vm_compute; reflexivity).
  repeat match goal with |- _ /\ _ => split end; try assumption.
  apply (formatar_le_centavos so_ascii (u "100,5")); assumption.
Defined.

Lemma formatar_idempotente_witness :
  Forall numeral (u "1.234,5") /\ so_digitos (u "1.234,5") <> []
  /\ digits_value (so_digitos (u "1.234,5")) < 2 ^ 52
  /\ formatar_valor_brl so_ascii (formatar_valor_brl so_ascii (u "1.234,5"))
     = formatar_valor_brl so_ascii (u "1.234,5").
Proof.
  assert (Forall numeral (u "1.234,5")) as H.
  { each_char is_numeral. }
  assert (so_digitos (u "1.234,5") <> []) as Hne by discriminate.
  assert (digits_value (so_digitos (u "1.234,5")) < 2 ^ 52) as HN
    by (vm_compute; reflexivity).
  repeat match goal with |- _ /\ _ => split end; try assumption.
  apply (formatar_idempotente so_ascii (u "1.234,5")); assumption.
Defined.

(** ** Amounts with two separators *)

Lemma replace_comma_plain (s : pystr) :
  Forall numeral s -> Forall plain (replace COMMA [DOT] s).
Proof.
  intros H. rewrite replace_char. apply Forall_forall. intros c Hc.
  apply in_map_iff in Hc as (c0 & <- & Hc0).
  rewrite Forall_forall in H. destruct (H c0 Hc0) as [Hd | [-> | ->]].
  - unfold char_eqb. destruct (Z.eqb_spec c0 COMMA) as [E|_]; [now right | now left].
  - right. reflexivity.
  - right. reflexivity.
Qed.

(** A literal with a second point after its fraction digits is no number. *)
Lemma parse_two_points (c : char) (a b r : pystr) :
  digit c -> Forall digit a -> Forall digit b ->
  parse_float_literal ((c :: a) ++ DOT :: b ++ DOT :: r) = None.
Proof.
  intros Hc Ha Hb. unfold parse_float_literal.
  assert (take_sign ((c :: a) ++ DOT :: b ++ DOT :: r)
          = (false, (c :: a) ++ DOT :: b ++ DOT :: r)) as ->.
  { cbn [app take_sign]. unfold digit in Hc. bool_lia. }
  assert (lower c = c) as Hlow by (unfold lower, digit in *; bool_lia).
  cbn [app map]. rewrite Hlow.
  change (u "inf") with [105; 110; 102].
  change (u "infinity") with [105; 110; 102; 105; 110; 105; 116; 121].
  change (u "nan") with [110; 97; 110].
  cbn [str_eqb]. unfold char_eqb.
  replace (c =? 105) with false
    by (symmetry; apply Z.eqb_neq; unfold digit in Hc; lia).
  replace (c =? 110) with false
    by (symmetry; apply Z.eqb_neq; unfold digit in Hc; lia).
  cbn [andb orb].
  change (c :: a ++ DOT :: b ++ DOT :: r) with ((c :: a) ++ DOT :: b ++ DOT :: r).
  rewrite (span_digits_app (c :: a) (DOT :: b ++ DOT :: r))
    by (try (now constructor); reflexivity).
  unfold DOT at 1. change (46 =? DOT) with true. cbv iota.
  rewrite (span_digits_app b (DOT :: r)) by (assumption || reflexivity).
  cbn [app]. reflexivity.
Qed.

Lemma py_float_two_points (nd : char -> option Z) (a b r : pystr) :
  a <> [] -> Forall digit a -> Forall digit b -> Forall plain r ->
  py_float nd (a ++ DOT :: b ++ DOT :: r) = Raise ValueError.
Proof.
  intros Hne Ha Hb Hr.
  assert (Forall plain (a ++ DOT :: b ++ DOT :: r)) as Hplain.
  { apply Forall_app. split; [now apply digits_plain|].
    constructor; [now right|]. apply Forall_app. split; [now apply digits_plain|].
    constructor; [now right | assumption]. }
  unfold py_float. rewrite to_ascii_plain by assumption.
  rewrite drop_underscores_plain by (assumption || discriminate).
  rewrite (lstrip_ascii_plain (a ++ _)) by assumption.
  rewrite lstrip_ascii_plain by (now apply Forall_rev).
  rewrite rev_involutive.
  destruct a as [|c a']; [congruence|].
  inversion Ha; subst.
  now rewrite parse_two_points.
Qed.

Lemma replace_app (old : char) (new s t : pystr) :
  replace old new (s ++ t) = replace old new s ++ replace old new t.
Proof. unfold replace. apply flat_map_app. Qed.

Lemma replace_digits (old : char) (new ds : pystr) :
  ~ digit old -> Forall digit ds -> replace old new ds = ds.
Proof.
  intros Hold H. induction H as [|c ds Hc Hds IH]; [reflexivity|].
  unfold replace in *. cbn [flat_map]. rewrite IH. unfold char_eqb.
  destruct (Z.eqb_spec c old) as [->|_]; [contradiction | reflexivity].
Qed.

Lemma so_digitos_app (s t : pystr) :
  so_digitos (s ++ t) = so_digitos s ++ so_digitos t.
Proof. apply filter_app. Qed.

Lemma so_digitos_id (ds : pystr) : Forall digit ds -> so_digitos ds = ds.
Proof.
  intros H. induction H as [|c ds Hc Hds IH]; [reflexivity|].
  unfold so_digitos in *. cbn [filter]. apply is_ascii_digit_iff in Hc.
  now rewrite Hc, IH.
Qed.

(** X3. An amount written with two separators (a thousands separator and a
    decimal mark, in either notation) counts as zero when the column is
    added up, whatever its digits. *)
Theorem to_float_dois_separadores
  (nd : char -> option Z) (a b r : pystr) (s1 s2 : char) :
  a <> [] -> Forall digit a -> Forall digit b -> Forall numeral r ->
  s1 = DOT \/ s1 = COMMA -> s2 = DOT \/ s2 = COMMA ->
  _to_float nd (VStr (a ++ s1 :: b ++ s2 :: r)) = f64_zero.
Proof.
  intros Hne Ha Hb Hr H1 H2.
  assert (~ digit COMMA) as Hcomma by (unfold digit, COMMA; lia).
  apply (to_float_invalid nd _ ValueError). cbn [py_str].
  assert (replace COMMA [DOT] (a ++ s1 :: b ++ s2 :: r)
          = a ++ DOT :: b ++ DOT :: replace COMMA [DOT] r) as ->.
  { rewrite replace_app, replace_digits by assumption.
    change (s1 :: b ++ s2 :: r) with ([s1] ++ b ++ [s2] ++ r).
    rewrite !replace_app, (replace_digits _ _ b) by assumption.
    assert (forall s, s = DOT \/ s = COMMA -> replace COMMA [DOT] [s] = [DOT])
      as Hsep by (intros s [-> | ->]; reflexivity).
    now rewrite !Hsep by assumption. }
  pose proof (replace_comma_plain r Hr) as Hr'.
  rewrite strip_plain.
  - now apply py_float_two_points.
  - apply Forall_app. split; [now apply digits_plain|].
    constructor; [now right|]. apply Forall_app. split; [now apply digits_plain|].
    constructor; [now right | assumption].
Qed.

Lemma to_float_dois_separadores_witness :
  u "1" <> [] /\ Forall digit (u "1") /\ Forall digit (u "234")
  /\ Forall numeral (u "56")
  /\ (DOT = DOT \/ DOT = COMMA) /\ (COMMA = DOT \/ COMMA = COMMA)
  /\ _to_float so_ascii (VStr (u "1" ++ DOT :: u "234" ++ COMMA :: u "56"))
     = f64_zero.
Proof.
  assert (Forall digit (u "1")) as Ha
    by each_char is_digit.
  assert (Forall digit (u "234")) as Hb
    by each_char is_digit.
  assert (Forall numeral (u "56")) as Hr
    by each_char is_numeral.
  repeat match goal with |- _ /\ _ => split end;
    try assumption; try discriminate;
    try (left; reflexivity); try (right; reflexivity).
  apply (to_float_dois_separadores so_ascii (u "1") (u "234") (u "56") DOT COMMA);
    try assumption; try discriminate; [left | right]; reflexivity.
Defined.

(** X4. Such an amount is none the less printed with all its digits, read as
    hundredths: the figure shown in the report and the figure added to the
    total differ. *)
Theorem dois_separadores_impresso
  (nd : char -> option Z) (a b c : pystr) (s1 s2 : char) :
  a <> [] -> Forall digit a -> Forall digit b -> Forall digit c ->
  s1 = DOT \/ s1 = COMMA -> s2 = DOT \/ s2 = COMMA ->
  digits_value (a ++ b ++ c) < 2 ^ 52 ->
  formatar_valor_brl nd (a ++ s1 :: b ++ s2 :: c)
  = ptbr_canonico (digits_value (a ++ b ++ c))
  /\ format_brl nd (_to_float nd (VStr (a ++ s1 :: b ++ s2 :: c)))
     = ptbr_canonico 0.
Proof.
  intros Hne Ha Hb Hc H1 H2 HN.
  assert (so_digitos (a ++ s1 :: b ++ s2 :: c) = a ++ b ++ c) as Hd.
  { change (s1 :: b ++ s2 :: c) with ([s1] ++ b ++ [s2] ++ c).
    rewrite !so_digitos_app.
    rewrite (so_digitos_id a), (so_digitos_id b), (so_digitos_id c) by assumption.
    assert (forall s, s = DOT \/ s = COMMA -> so_digitos [s] = [])
      as Hsep by (intros s [-> | ->]; reflexivity).
    now rewrite !Hsep by assumption. }
  assert (Forall numeral (a ++ s1 :: b ++ s2 :: c)) as Hnum.
  { assert (forall l, Forall digit l -> Forall numeral l) as Hdn.
    { intros l Hl. eapply Forall_impl; [|exact Hl]. intros x Hx. now left. }
    apply Forall_app. split; [now apply Hdn|].
    constructor; [right; tauto|]. apply Forall_app. split; [now apply Hdn|].
    constructor; [right; tauto | now apply Hdn]. }
  split.
  - apply formatar_of_digits; try assumption.
    + rewrite delete_separators_numeral by assumption. exact Hd.
    + destruct a; [congruence | discriminate].
    + rewrite <- Hd. apply so_digitos_digits.
  - assert (_to_float nd (VStr (a ++ s1 :: b ++ s2 :: c)) = f64_zero) as ->.
    { apply (to_float_invalid nd _ ValueError). cbn [py_str].
      assert (~ digit COMMA) as Hcomma by (unfold digit, COMMA; lia).
      assert (replace COMMA [DOT] (a ++ s1 :: b ++ s2 :: c)
              = a ++ DOT :: b ++ DOT :: c) as ->.
      { rewrite replace_app, replace_digits by assumption.
        change (s1 :: b ++ s2 :: c) with ([s1] ++ b ++ [s2] ++ c).
        rewrite !replace_app.
        rewrite (replace_digits _ _ b), (replace_digits _ _ c) by assumption.
        assert (forall s, s = DOT \/ s = COMMA -> replace COMMA [DOT] [s] = [DOT])
          as Hsep by (intros s [-> | ->]; reflexivity).
        now rewrite !Hsep by assumption. }
      rewrite strip_plain.
      - apply py_float_two_points; try assumption. now apply digits_plain.
      - apply Forall_app. split; [now apply digits_plain|].
        constructor; [now right|]. apply Forall_app.
        split; [now apply digits_plain|].
        constructor; [now right | now apply digits_plain]. }
    unfold format_brl. change (format_2f f64_zero) with (fmt_cents 0).
    apply formatar_fmt_cents. lia.
Qed.

Lemma dois_separadores_impresso_witness :
  u "1" <> [] /\ Forall digit (u "1") /\ Forall digit (u "234")
  /\ Forall digit (u "56")
  /\ (DOT = DOT \/ DOT = COMMA) /\ (COMMA = DOT \/ COMMA = COMMA)
  /\ digits_value (u "1" ++ u "234" ++ u "56") < 2 ^ 52
  /\ formatar_valor_brl so_ascii (u "1" ++ DOT :: u "234" ++ COMMA :: u "56")
     = ptbr_canonico (digits_value (u "1" ++ u "234" ++ u "56"))
  /\ format_brl so_ascii
       (_to_float so_ascii (VStr (u "1" ++ DOT :: u "234" ++ COMMA :: u "56")))
     = ptbr_canonico 0.
Proof.
  assert (Forall digit (u "1")) as Ha
    by each_char is_digit.
  assert (Forall digit (u "234")) as Hb
    by each_char is_digit.
  assert (Forall digit (u "56")) as Hc
    by each_char is_digit.
  assert (digits_value (u "1" ++ u "234" ++ u "56") < 2 ^ 52) as HN
    by (vm_compute; reflexivity).
  repeat match goal with |- _ /\ _ => split end;
    try assumption; try discriminate;
    try (left; reflexivity); try (right; reflexivity);
    apply (dois_separadores_impresso so_ascii (u "1") (u "234") (u "56") DOT COMMA);
    try assumption; try discriminate; try (left; reflexivity);
    right; reflexivity.
Defined.

(** ** Amounts written without decimals *)

Lemma ptbr_canonico_inj (a b : Z) :
  0 <= a -> 0 <= b -> ptbr_canonico a = ptbr_canonico b -> a = b.
Proof.
  intros Ha Hb E.
  rewrite <- (digits_value_cents a Ha), <- (digits_value_cents b Hb).
  rewrite <- !so_digitos_ptbr by assumption. now rewrite E.
Qed.

(** X25. An amount written with digits only is added at face value and
    printed as hundredths: the cell ["100"] counts as 100,00 in the total
    and is shown as ["1,00"] in the report. *)
Theorem sem_decimais_soma_e_impressao (nd : char -> option Z) (ds : pystr) :
  ds <> [] -> Forall digit ds -> 100 * digits_value ds < 2 ^ 52 ->
  format_brl nd (_to_float nd (VStr ds)) = ptbr_canonico (100 * digits_value ds)
  /\ formatar_valor_brl nd ds = ptbr_canonico (digits_value ds)
  /\ (0 < digits_value ds ->
      formatar_valor_brl nd ds <> format_brl nd (_to_float nd (VStr ds))).
Proof.
  intros Hne Hds HN.
  pose proof (digits_value_nonneg ds Hds) as H0.
  assert (format_brl nd (_to_float nd (VStr ds))
          = ptbr_canonico (100 * digits_value ds)) as E1.
  { destruct (to_float_unsigned nd ds [] Hne Hds (Forall_nil _)) as [_ ->].
    unfold format_brl.
    change (f64_of_decimal false (digits_value ds) 0)
      with (f64_of_decimal false (digits_value ds) (0 - 0)).
    rewrite (format_of_decimal (digits_value ds) 0 (100 * digits_value ds))
      by lia.
    apply formatar_fmt_cents. lia. }
  assert (formatar_valor_brl nd ds = ptbr_canonico (digits_value ds)) as E2.
  { apply formatar_of_digits; try assumption; [|lia].
    assert (~ digit COMMA) as Hc by (unfold digit, COMMA; lia).
    assert (~ digit DOT) as Hd by (unfold digit, DOT; lia).
    now rewrite (replace_digits COMMA [] ds Hc Hds),
      (replace_digits DOT [] ds Hd Hds). }
  split; [exact E1|]. split; [exact E2|].
  intros Hpos. rewrite E1, E2. intros E.
  apply ptbr_canonico_inj in E; lia.
Qed.

Lemma sem_decimais_soma_e_impressao_witness :
  u "100" <> [] /\ Forall digit (u "100") /\ 100 * digits_value (u "100") < 2 ^ 52
  /\ format_brl so_ascii (_to_float so_ascii (VStr (u "100")))
     = ptbr_canonico (100 * digits_value (u "100"))
  /\ formatar_valor_brl so_ascii (u "100") = ptbr_canonico (digits_value (u "100"))
  /\ (0 < digits_value (u "100") ->
      formatar_valor_brl so_ascii (u "100")
      <> format_brl so_ascii (_to_float so_ascii (VStr (u "100")))).
Proof.
  assert (u "100" <> []) as H1 by discriminate.
  assert (Forall digit (u "100")) as H2 by each_char is_digit.
  assert (100 * digits_value (u "100") < 2 ^ 52) as H3
    by (vm_compute; reflexivity).
  split; [exact H1|]. split; [exact H2|]. split; [exact H3|].
  exact (sem_decimais_soma_e_impressao so_ascii (u "100") H1 H2 H3).
Defined.

(** ** [strip] *)

Lemma lstrip_suffix (s : pystr) : exists pre, s = pre ++ lstrip s.
Proof.
  induction s as [|c s [pre IH]]; [now exists []|].
  cbn [lstrip]. destruct (isspace c).
  - exists (c :: pre). cbn [app]. now f_equal.
  - now exists [].
Qed.

Lemma lstrip_In (c : char) (s : pystr) : In c (lstrip s) -> In c s.
Proof.
  intros H. destruct (lstrip_suffix s) as [pre E]. rewrite E.
  apply in_or_app. now right.
Qed.

Lemma strip_In (c : char) (s : pystr) : In c (strip s) -> In c s.
Proof.
  unfold strip, rstrip. intros H.
  apply in_rev, lstrip_In in H. apply in_rev in H. now apply lstrip_In.
Qed.

Lemma lstrip_head (s : pystr) :
  match lstrip s with
  | c :: _ => isspace c = false
  | [] => True
  end.
Proof.
  induction s as [|c s IH]; [exact I|].
  cbn [lstrip]. destruct (isspace c) eqn:E; assumption.
Qed.

Lemma lstrip_fixed (s : pystr) :
  match s with
  | c :: _ => isspace c = false
  | [] => True
  end -> lstrip s = s.
Proof. destruct s as [|c s]; [reflexivity|]. cbn [lstrip]. now intros ->. Qed.

Lemma lstrip_idem (s : pystr) : lstrip (lstrip s) = lstrip s.
Proof. apply lstrip_fixed, lstrip_head. Qed.

(** Stripping on the left keeps a last character that is not white space. *)
Lemma lstrip_snoc (s : pystr) (c : char) :
  isspace c = false -> exists w, lstrip (s ++ [c]) = w ++ [c].
Proof.
  intros Hc. induction s as [|d s [w IH]].
  - exists []. cbn [app lstrip]. now rewrite Hc.
  - cbn [app lstrip]. destruct (isspace d).
    + now exists w.
    + now exists (d :: s).
Qed.

(** Stripping on the right keeps a first character that is not white space. *)
Lemma rstrip_head (s : pystr) :
  match s with
  | c :: _ => isspace c = false
  | [] => True
  end ->
  match rstrip s with
  | c :: _ => isspace c = false
  | [] => True
  end.
Proof.
  destruct s as [|c s]; [intros _; exact I|]. intros Hc.
  unfold rstrip. cbn [rev].
  destruct (lstrip_snoc (rev s) c Hc) as [w ->].
  rewrite rev_app_distr. cbn [rev app]. exact Hc.
Qed.

Lemma rstrip_idem (s : pystr) : rstrip (rstrip s) = rstrip s.
Proof. unfold rstrip. now rewrite rev_involutive, lstrip_idem. Qed.

Lemma strip_idem (s : pystr) : strip (strip s) = strip s.
Proof.
  unfold strip.
  rewrite (lstrip_fixed (rstrip (lstrip s))) by apply rstrip_head, lstrip_head.
  apply rstrip_idem.
Qed.

(** ** [_separar_linhas_multiplas]: what the output cells look like *)

Lemma split_none (sep : char) (s : pystr) : ~ In sep s -> split sep s = [s].
Proof.
  induction s as [|c s IH]; intros H; [reflexivity|].
  cbn [split]. unfold char_eqb. destruct (Z.eqb_spec c sep) as [->|_].
  - exfalso. apply H. now left.
  - rewrite IH; [reflexivity|]. intros Hin. apply H. now right.
Qed.

Lemma linha_expandida_limpa (row : list value) (i : nat) :
  Forall limpa (linha_expandida row i).
Proof.
  unfold linha_expandida. apply Forall_forall. intros x Hx.
  apply in_map_iff in Hx as (x0 & <- & _).
  destruct (nth_error (segmentos x0) i) as [seg|] eqn:E.
  - exists (strip seg). split; [reflexivity|]. split; [|apply strip_idem].
    intros Hin. apply strip_In in Hin.
    apply nth_error_In in E. unfold segmentos in E.
    pose proof (split_no_sep NL (py_str x0)) as Hs.
    rewrite Forall_forall in Hs. exact (Hs seg E Hin).
  - exists []. split; [reflexivity|]. split; [|reflexivity]. intros [].
Qed.

Lemma linhas_expandidas_limpas (rows : list (list value)) :
  Forall (Forall limpa) (List.concat (map linhas_expandidas rows)).
Proof.
  apply Forall_forall. intros r Hr. apply in_concat in Hr as (bloco & Hb & Hr).
  apply in_map_iff in Hb as (row & <- & _).
  unfold linhas_expandidas in Hr. apply in_map_iff in Hr as (i & <- & _).
  apply linha_expandida_limpa.
Qed.

Lemma data_frame_of_records (cols : list pystr) (recs : list (list value)) :
  data (frame_of_records cols recs) = recs.
Proof. destruct recs; reflexivity. Qed.

(** X5. Every cell of the frame [_separar_linhas_multiplas] returns is text
    with no line break in it and no white space at either end. *)
Theorem separar_celulas_limpas (df df' : DataFrame) :
  Forall (fun row => row <> []) (data df) ->
  _separar_linhas_multiplas df = Ok df' ->
  Forall (Forall limpa) (data df').
Proof.
  intros Hne H. rewrite separar_linhas_multiplas_spec in H by assumption.
  injection H as <-. rewrite data_frame_of_records.
  apply linhas_expandidas_limpas.
Qed.

(** A row of clean cells expands to itself. *)
Lemma linhas_expandidas_limpa (row : list value) :
  row <> [] -> Forall limpa row -> linhas_expandidas row = [row].
Proof.
  intros Hne Hrow.
  assert (forall x, In x row -> segmentos x = [py_str x] /\ x = VStr (py_str x)
                                /\ strip (py_str x) = py_str x) as Hseg.
  { intros x Hx. rewrite Forall_forall in Hrow.
    destruct (Hrow x Hx) as (s & -> & Hnl & Hs). cbn [py_str].
    unfold segmentos. cbn [py_str]. now rewrite split_none. }
  assert (max_segmentos row = 1%nat) as Hmax.
  { unfold max_segmentos.
    assert (map (fun x => length (segmentos x)) row = map (fun _ => 1%nat) row)
      as ->.
    { apply map_ext_in. intros x Hx. now destruct (Hseg x Hx) as [-> _]. }
    destruct row as [|x row]; [congruence|]. clear.
    cbn [map list_max fold_right]. induction row as [|y row IH]; [reflexivity|].
    cbn [map list_max fold_right] in *. lia. }
  unfold linhas_expandidas. rewrite Hmax. cbn [seq map]. f_equal.
  unfold linha_expandida. rewrite <- (map_id row) at 2.
  apply map_ext_in. intros x Hx. destruct (Hseg x Hx) as (-> & Hv & Hs).
  cbn [nth_error]. now rewrite Hs.
Qed.

Lemma concat_singletons {A} (l : list A) :
  List.concat (map (fun x => [x]) l) = l.
Proof. induction l as [|x l IH]; [reflexivity|]. cbn. now rewrite IH. Qed.

Lemma concat_map_single {A B} (f : A -> B) (l : list A) :
  List.concat (map (fun x => [f x]) l) = map f l.
Proof. induction l as [|x l IH]; [reflexivity|]. cbn. now rewrite IH. Qed.

Lemma limpas_fixas (rows : list (list value)) :
  Forall (fun row => row <> []) rows -> Forall (Forall limpa) rows ->
  List.concat (map linhas_expandidas rows) = rows.
Proof.
  intros Hne Hl. rewrite <- (concat_singletons rows) at 2. f_equal.
  apply map_ext_in. intros row Hrow. rewrite Forall_forall in Hne, Hl.
  apply linhas_expandidas_limpa; auto.
Qed.

Lemma expandidas_nao_vazias (rows : list (list value)) :
  Forall (fun row => row <> []) rows ->
  Forall (fun row => row <> []) (List.concat (map linhas_expandidas rows)).
Proof.
  intros Hne. apply Forall_forall. intros r Hr.
  apply in_concat in Hr as (bloco & Hb & Hr).
  apply in_map_iff in Hb as (row & <- & Hrow).
  pose proof (linhas_expandidas_length row) as Hlen.
  rewrite Forall_forall in Hlen, Hne. specialize (Hlen r Hr).
  specialize (Hne row Hrow). intros ->. destruct row; [congruence | discriminate].
Qed.

(** X6. [_separar_linhas_multiplas] is idempotent: applied to a frame it
    returned, it returns that frame. *)
Theorem separar_idempotente (df df' : DataFrame) :
  Forall (fun row => row <> []) (data df) ->
  _separar_linhas_multiplas df = Ok df' ->
  _separar_linhas_multiplas df' = Ok df'.
Proof.
  intros Hne H. rewrite separar_linhas_multiplas_spec in H by assumption.
  injection H as <-.
  pose proof (expandidas_nao_vazias _ Hne) as Hne'.
  pose proof (linhas_expandidas_limpas (data df)) as Hl.
  rewrite separar_linhas_multiplas_spec
    by (now rewrite data_frame_of_records).
  rewrite data_frame_of_records.
  rewrite (limpas_fixas _ Hne' Hl).
  destruct (List.concat (map linhas_expandidas (data df))); reflexivity.
Qed.

(** X7. On a frame with no line break in any cell the rows stay one for
    one: each cell is turned into text and stripped, and nothing else
    happens ([NaN] becomes the text ["nan"]). *)
Theorem separar_sem_quebras (df : DataFrame) :
  Forall (fun row => row <> []) (data df) ->
  Forall (Forall (fun x => ~ In NL (py_str x))) (data df) ->
  _separar_linhas_multiplas df
  = Ok (frame_of_records (columns df)
          (map (map (fun x => VStr (strip (py_str x)))) (data df))).
Proof.
  intros Hne Hnl. rewrite separar_linhas_multiplas_spec by assumption.
  do 2 f_equal.
  rewrite <- (concat_map_single (map (fun x => VStr (strip (py_str x))))).
  f_equal. apply map_ext_in. intros row Hrow.
  rewrite Forall_forall in Hne, Hnl.
  specialize (Hne row Hrow). specialize (Hnl row Hrow).
  assert (forall x, In x row -> segmentos x = [py_str x]) as Hseg.
  { intros x Hx. rewrite Forall_forall in Hnl. unfold segmentos.
    now rewrite split_none by auto. }
  assert (max_segmentos row = 1%nat) as Hmax.
  { unfold max_segmentos.
    assert (map (fun x => length (segmentos x)) row = map (fun _ => 1%nat) row)
      as ->.
    { apply map_ext_in. intros x Hx. now rewrite Hseg. }
    destruct row as [|x row]; [congruence|]. clear.
    cbn [map list_max fold_right]. induction row as [|y row IH]; [reflexivity|].
    cbn [map list_max fold_right] in *. lia. }
  unfold linhas_expandidas. rewrite Hmax. cbn [seq map]. f_equal.
  unfold linha_expandida. apply map_ext_in. intros x Hx.
  now rewrite Hseg.
Qed.

Lemma separar_celulas_limpas_witness :
  let df := mkDF [u "x"; u "y"] [[VStr [65; 10; 66]; VStr [32; 49; 32; 10; 50]]] in
  let df' := mkDF [u "x"; u "y"]
                  [[VStr [65]; VStr [49]]; [VStr [66]; VStr [50]]] in
  Forall (fun row => row <> []) (data df)
  /\ _separar_linhas_multiplas df = Ok df'
  /\ Forall (Forall limpa) (data df').
Proof.
  intros df df'.
  assert (Forall (fun row => row <> []) (data df)) as H1
    by (constructor; [discriminate | constructor]).
  assert (_separar_linhas_multiplas df = Ok df') as H2
    by (vm_compute; reflexivity).
  split; [exact H1|]. split; [exact H2|].
  exact (separar_celulas_limpas df df' H1 H2).
Defined.

Lemma separar_idempotente_witness :
  let df := mkDF [u "x"; u "y"] [[VStr [65; 10; 66]; VStr [32; 49; 32; 10; 50]]] in
  let df' := mkDF [u "x"; u "y"]
                  [[VStr [65]; VStr [49]]; [VStr [66]; VStr [50]]] in
  Forall (fun row => row <> []) (data df)
  /\ _separar_linhas_multiplas df = Ok df'
  /\ _separar_linhas_multiplas df' = Ok df'.
Proof.
  intros df df'.
  assert (Forall (fun row => row <> []) (data df)) as H1
    by (constructor; [discriminate | constructor]).
  assert (_separar_linhas_multiplas df = Ok df') as H2
    by (vm_compute; reflexivity).
  split; [exact H1|]. split; [exact H2|].
  exact (separar_idempotente df df' H1 H2).
Defined.

Lemma separar_sem_quebras_witness :
  let df := mkDF [u "x"; u "y"] [[VStr [32; 65]; VNaN]] in
  Forall (fun row => row <> []) (data df)
  /\ Forall (Forall (fun x => ~ In NL (py_str x))) (data df)
  /\ _separar_linhas_multiplas df
     = Ok (frame_of_records (columns df)
             (map (map (fun x => VStr (strip (py_str x)))) (data df))).
Proof.
  intros df.
  assert (Forall (fun row => row <> []) (data df)) as H1
    by (constructor; [discriminate | constructor]).
  assert (Forall (Forall (fun x => ~ In NL (py_str x))) (data df)) as H2.
  { repeat constructor; cbn; unfold NL; intros H;
      repeat (destruct H as [H|H]; [discriminate|]); exact H. }
  split; [exact H1|]. split; [exact H2|].
  exact (separar_sem_quebras df H1 H2).
Defined.

(** ** [processar_contracheques_camelot] over several tables *)

Lemma for_each_raises {A S} (body : S -> A -> result S) (xs : list A) (x : A) :
  In x xs -> (forall acc, exists e, body acc x = Raise e) ->
  forall acc, exists e, for_each body xs acc = Raise e.
Proof.
  intros Hin Hx. induction xs as [|y xs IH]; [destruct Hin|].
  intros acc. cbn [for_each].
  destruct Hin as [-> | Hin].
  - destruct (Hx acc) as [e ->]. now exists e.
  - destruct (body acc y) as [acc'|e]; [|now exists e].
    cbn [bind]. now apply IH.
Qed.

(** X8. One table with the header row and more than six columns, anywhere
    among the tables of the PDF, makes the whole extraction return [None]:
    the items of every other table are lost with it. *)
Theorem uma_tabela_larga_perde_tudo
  (nd : char -> option Z) (pages : list pystr) (tables : list Table) (t : Table) :
  In t tables ->
  in_values DESCRICAO (grid t) = true ->
  (6 < shape1 (grid t))%nat ->
  processar_contracheques_camelot nd pages tables = None.
Proof.
  intros Hin Hhdr Hwide.
  unfold processar_contracheques_camelot, processar_tabelas.
  destruct (for_each_raises (processar_tabela nd pages) tables t Hin
              (fun acc => tabela_mais_de_seis_colunas nd pages acc t Hhdr Hwide)
              dados_inicial) as [e ->].
  reflexivity.
Qed.

Lemma uma_tabela_larga_perde_tudo_witness :
  In tabela_sete_colunas [tabela_seis_colunas; tabela_sete_colunas]
  /\ in_values DESCRICAO (grid tabela_sete_colunas) = true
  /\ (6 < shape1 (grid tabela_sete_colunas))%nat
  /\ processar_contracheques_camelot so_ascii paginas_exemplo
       [tabela_seis_colunas; tabela_sete_colunas] = None.
Proof.
  assert (In tabela_sete_colunas [tabela_seis_colunas; tabela_sete_colunas])
    as H1 by (right; left; reflexivity).
  assert (in_values DESCRICAO (grid tabela_sete_colunas) = true) as H2
    by (vm_compute; reflexivity).
  assert (6 < shape1 (grid tabela_sete_colunas))%nat as H3 by (cbn; lia).
  split; [exact H1|]. split; [exact H2|]. split; [exact H3|].
  exact (uma_tabela_larga_perde_tudo so_ascii paginas_exemplo _ _ H1 H2 H3).
Defined.

Lemma in_values_split (x : pystr) (g : list (list pystr)) :
  in_values x g = true ->
  exists above hdr below,
    g = above ++ hdr :: below /\ in_values x above = false /\ In x hdr.
Proof.
  induction g as [|row g IH]; [discriminate|].
  unfold in_values in *. cbn [existsb].
  destruct (str_in x row) eqn:E.
  - intros _. exists [], row, g. repeat split. now apply str_in_In.
  - cbn [orb]. intros H. destruct (IH H) as (above & hdr & below & -> & Ha & Hh).
    exists (row :: above), hdr, below. repeat split; [|assumption].
    cbn [existsb]. now rewrite E.
Qed.

Lemma first_row_with_none (x : pystr) (g : list (list pystr)) :
  in_values x g = false -> first_row_with x g = Raise IndexError.
Proof.
  induction g as [|row g IH]; [reflexivity|].
  unfold in_values in *. cbn [existsb first_row_with].
  rewrite isin_row_marker. destruct (str_in x row); [discriminate|].
  cbn [orb]. intros H. now rewrite IH.
Qed.

Local Abbreviation src := (col_DATA :: nomes_canonicos ++ [col_Competencia]).
Local Abbreviation quatro := [col_COD; col_Descricao; col_TOTAL; col_DATA].

Lemma concat_dados (X : list (list value)) (cols2 : list pystr)
      (rows2 : list (list value)) :
  filter (fun c => negb (str_in c (columns dados_inicial))) cols2 = [] ->
  concat (mkDF (columns dados_inicial) X) (mkDF cols2 rows2)
  = mkDF (columns dados_inicial)
         (map (reindex (columns dados_inicial) (columns dados_inicial)) X
          ++ map (reindex cols2 (columns dados_inicial)) rows2).
Proof.
  intros H. unfold concat. cbn [columns data]. rewrite H.
  change (columns dados_inicial ++ []) with (columns dados_inicial).
  reflexivity.
Qed.

Lemma reindex_reindex (old cols : list pystr) (R : list (list value)) :
  map (reindex cols cols) (map (reindex old cols) R) = map (reindex old cols) R.
Proof.
  rewrite map_map. apply map_ext. intros r. unfold reindex at 2 3.
  apply reindex_map.
Qed.

(** One turn of the loop on a table that is skipped or has six columns. *)
Lemma processar_tabela_passo
  (nd : char -> option Z) (pages : list pystr) (R : list (list value))
  (t : Table) :
  (in_values DESCRICAO (grid t) = true ->
   Forall (fun row => length row = 6%nat) (grid t) /\ 1 <= page t) ->
  processar_tabela nd pages
    (mkDF (columns dados_inicial) (map (reindex src (columns dados_inicial)) R)) t
  = Ok (mkDF (columns dados_inicial)
             (map (reindex src (columns dados_inicial))
                  (R ++ linhas_da_tabela nd pages t))).
Proof.
  intros Hwf. destruct (in_values DESCRICAO (grid t)) eqn:Hhdr.
  - destruct (Hwf eq_refl) as [Hrect Hp]. clear Hwf.
    destruct (in_values_split _ _ Hhdr) as (above & hdr & below & Hg & Ha & Hh).
    destruct (extrair_data_ok nd pages (page t) Hp) as [d Hd].
    assert (linhas_de_dados t = below) as Hbelow_eq.
    { unfold linhas_de_dados. rewrite Hg, first_row_with_header by assumption.
      apply skipn_header. }
    unfold linhas_da_tabela. rewrite Hd, Hbelow_eq.
    rewrite Hg in Hrect.
    assert (Forall (fun row : list value => length row = 6%nat)
                   (map (map VStr) below)) as Hbelow.
    { pose proof Hrect as Hrect'.
      apply Forall_app in Hrect' as [_ Hrect'].
      inversion Hrect' as [|? ? _ Hb].
      apply Forall_forall. intros r Hr. apply in_map_iff in Hr as (r0 & <- & Hr0).
      rewrite length_map. rewrite Forall_forall in Hb. now apply Hb. }
    unfold processar_tabela. rewrite Hhdr, Hg.
    rewrite first_row_with_header by assumption.
    cbn [bind]. rewrite skipn_header, frame_of_grid_width.
    rewrite (shape1_six (above ++ hdr :: below) hdr Hrect)
      by (apply in_or_app; right; now left).
    change (Nat.leb 6 6) with true. cbv iota.
    change (firstn 6 nomes_canonicos) with nomes_canonicos.
    unfold set_columns. rewrite frame_of_grid_width.
    change (Nat.eqb (length nomes_canonicos) 6) with true. cbv iota.
    cbn [bind]. unfold frame_of_grid at 1. cbn [data].
    rewrite separar_linhas_multiplas_spec.
    2:{ cbn [data]. eapply Forall_impl; [|exact Hbelow].
        intros r Hr E. rewrite E in Hr. discriminate. }
    cbn [bind data columns]. rewrite Hd. cbn [bind].
    destruct (List.concat (map linhas_expandidas (map (map VStr) below)))
      as [|l linhas] eqn:El.
    + change (frame_of_records nomes_canonicos []) with empty_frame.
      change (setitem_scalar empty_frame col_Competencia
                (VStr (u "Página " ++ str_of_int (page t))))
        with (mkDF [col_Competencia] []).
      change (insert0 (mkDF [col_Competencia] []) col_DATA (VStr d))
        with (Ok (mkDF [col_DATA; col_Competencia] [])).
      cbn [bind]. rewrite concat_dados by reflexivity.
      cbn [map]. rewrite !app_nil_r. now rewrite reindex_reindex.
    + unfold frame_of_records.
      change (setitem_scalar (mkDF nomes_canonicos (l :: linhas)) col_Competencia
                (VStr (u "Página " ++ str_of_int (page t))))
        with (mkDF (nomes_canonicos ++ [col_Competencia])
                   (map (fun row => row ++ [VStr (u "Página " ++ str_of_int (page t))])
                        (l :: linhas))).
      change (insert0 (mkDF (nomes_canonicos ++ [col_Competencia])
                            (map (fun row =>
                                    row ++ [VStr (u "Página " ++ str_of_int (page t))])
                                 (l :: linhas)))
                      col_DATA (VStr d))
        with (Ok (mkDF src
                       (map (fun row => VStr d :: row)
                            (map (fun row =>
                                    row ++ [VStr (u "Página " ++ str_of_int (page t))])
                                 (l :: linhas))))).
      cbn [bind]. rewrite concat_dados by reflexivity.
      now rewrite reindex_reindex, <- map_app.
  - assert (linhas_da_tabela nd pages t = []) as ->.
    { unfold linhas_da_tabela, linhas_de_dados.
      rewrite first_row_with_none by assumption.
      now destruct (extrair_data_da_pagina nd pages (page t)). }
    rewrite app_nil_r. now apply tabela_sem_cabecalho.
Qed.

Lemma processar_tabelas_passos
  (nd : char -> option Z) (pages : list pystr) (tables : list Table) :
  Forall (fun t => in_values DESCRICAO (grid t) = true ->
                   Forall (fun row => length row = 6%nat) (grid t)
                   /\ 1 <= page t) tables ->
  forall R,
    for_each (processar_tabela nd pages) tables
      (mkDF (columns dados_inicial) (map (reindex src (columns dados_inicial)) R))
    = Ok (mkDF (columns dados_inicial)
               (map (reindex src (columns dados_inicial))
                    (R ++ flat_map (linhas_da_tabela nd pages) tables))).
Proof.
  induction 1 as [|t tables Ht Hts IH]; intros R.
  - cbn [for_each flat_map]. now rewrite app_nil_r.
  - cbn [for_each flat_map]. rewrite processar_tabela_passo by assumption.
    cbn [bind]. rewrite IH. now rewrite app_assoc.
Qed.

Lemma linhas_de_dados_seis (t : Table) :
  (in_values DESCRICAO (grid t) = true ->
   Forall (fun row => length row = 6%nat) (grid t) /\ 1 <= page t) ->
  Forall (fun row : list value => length row = 6%nat)
         (map (map VStr) (linhas_de_dados t)).
Proof.
  intros Hwf.
  apply Forall_forall. intros r Hr. apply in_map_iff in Hr as (r0 & <- & Hr0).
  rewrite length_map. unfold linhas_de_dados in Hr0.
  destruct (in_values DESCRICAO (grid t)) eqn:Hhdr.
  - destruct (Hwf eq_refl) as [Hrect _]. rewrite Forall_forall in Hrect.
    destruct (first_row_with DESCRICAO (grid t)) as [i|]; [|destruct Hr0].
    apply Hrect. revert Hr0. clear. generalize (i + 1)%nat. intros n.
    revert n. induction (grid t) as [|row g IH]; intros [|n] H;
      try (now destruct H); try exact H. right. now apply (IH n).
  - rewrite first_row_with_none in Hr0 by assumption. destruct Hr0.
Qed.

Lemma itens_da_tabela_projetados
  (nd : char -> option Z) (pages : list pystr) (t : Table) :
  (in_values DESCRICAO (grid t) = true ->
   Forall (fun row => length row = 6%nat) (grid t) /\ 1 <= page t) ->
  map (reindex (columns dados_inicial) quatro)
      (map (reindex src (columns dados_inicial)) (linhas_da_tabela nd pages t))
  = itens_da_tabela nd pages t.
Proof.
  intros Hwf. unfold linhas_da_tabela, itens_da_tabela.
  destruct (extrair_data_da_pagina nd pages (page t)) as [d|e]; [|reflexivity].
  apply itens_projetados. apply concat_expandidas_length.
  now apply linhas_de_dados_seis.
Qed.

Lemma processar_tabelas_bem_formadas
  (nd : char -> option Z) (pages : list pystr) (tables : list Table) :
  Forall (fun t => in_values DESCRICAO (grid t) = true ->
                   Forall (fun row => length row = 6%nat) (grid t)
                   /\ 1 <= page t) tables ->
  processar_tabelas nd pages tables
  = Ok match flat_map (itens_da_tabela nd pages) tables with
         | [] => dados_inicial
         | _ :: _ =>
           mkDF [col_COD; col_Descricao; col_TOTAL; col_DATA]
                (flat_map (itens_da_tabela nd pages) tables)
         end.
Proof.
  intros Hwf. unfold processar_tabelas.
  change dados_inicial
    with (mkDF (columns dados_inicial)
               (map (reindex src (columns dados_inicial)) [])) at 1.
  rewrite processar_tabelas_passos by assumption. cbn [bind app].
  assert (map (reindex (columns dados_inicial) quatro)
              (map (reindex src (columns dados_inicial))
                   (flat_map (linhas_da_tabela nd pages) tables))
          = flat_map (itens_da_tabela nd pages) tables) as Hit.
  { induction Hwf as [|t ts Ht Hts IH]; [reflexivity|].
    cbn [flat_map]. rewrite !map_app, IH.
    now rewrite itens_da_tabela_projetados. }
  destruct (flat_map (linhas_da_tabela nd pages) tables) as [|r R] eqn:ER.
  - cbn [map] in Hit |- *. rewrite <- Hit. reflexivity.
  - cbn [map] in Hit |- *.
    change (negb (df_empty (mkDF (columns dados_inicial) (?[x] :: ?[xs]))))
      with true.
    cbv iota. rewrite <- map_cons, select_inicial. rewrite <- Hit.
    reflexivity.
Qed.

(** X9. The tables of a PDF are read in order and their items are put one
    after the other: when every table that has the header row has six
    columns, the result holds the items of the first table, then those of
    the second, and so on; with no item at all, the empty frame of eight
    columns is returned as it was created. *)
Theorem tabelas_em_ordem
  (nd : char -> option Z) (pages : list pystr) (tables : list Table) :
  Forall (fun t => in_values DESCRICAO (grid t) = true ->
                   Forall (fun row => length row = 6%nat) (grid t)
                   /\ 1 <= page t) tables ->
  processar_contracheques_camelot nd pages tables
  = Some match flat_map (itens_da_tabela nd pages) tables with
         | [] => dados_inicial
         | _ :: _ =>
           mkDF [col_COD; col_Descricao; col_TOTAL; col_DATA]
                (flat_map (itens_da_tabela nd pages) tables)
         end.
Proof.
  intros Hwf. unfold processar_contracheques_camelot.
  now rewrite processar_tabelas_bem_formadas.
Qed.

Lemma tabelas_em_ordem_witness :
  Forall (fun t => in_values DESCRICAO (grid t) = true ->
                   Forall (fun row => length row = 6%nat) (grid t)
                   /\ 1 <= page t)
         [tabela_seis_colunas; tabela_seis_colunas]
  /\ processar_contracheques_camelot so_ascii paginas_exemplo
       [tabela_seis_colunas; tabela_seis_colunas]
     = Some match flat_map (itens_da_tabela so_ascii paginas_exemplo)
                           [tabela_seis_colunas; tabela_seis_colunas] with
            | [] => dados_inicial
            | _ :: _ =>
              mkDF [col_COD; col_Descricao; col_TOTAL; col_DATA]
                   (flat_map (itens_da_tabela so_ascii paginas_exemplo)
                             [tabela_seis_colunas; tabela_seis_colunas])
            end.
Proof.
  assert (Forall (fun t => in_values DESCRICAO (grid t) = true ->
                           Forall (fun row => length row = 6%nat) (grid t)
                           /\ 1 <= page t)
                 [tabela_seis_colunas; tabela_seis_colunas]) as H.
  { repeat constructor; cbn; lia. }
  split; [exact H|].
  exact (tabelas_em_ordem so_ascii paginas_exemplo _ H).
Defined.

(** ** [cruzar_descontos_com_rubricas]: thresholds and glossaries *)

Lemma filter_filter_impl {A} (p q : A -> bool) (l : list A) :
  (forall x, q x = true -> p x = true) ->
  filter q (filter p l) = filter q l.
Proof.
  intros H. induction l as [|x l IH]; [reflexivity|].
  cbn [filter]. destruct (p x) eqn:Ep.
  - cbn [filter]. now rewrite IH.
  - destruct (q x) eqn:Eq; [|assumption].
    apply H in Eq. congruence.
Qed.

Lemma filter_all {A} (p : A -> bool) (l : list A) :
  (forall x, In x l -> p x = true) -> filter p l = l.
Proof.
  intros H. induction l as [|x l IH]; [reflexivity|].
  cbn [filter]. rewrite H by now left. f_equal. apply IH.
  intros y Hy. apply H. now right.
Qed.

Lemma filter_none {A} (p : A -> bool) (l : list A) :
  (forall x, In x l -> p x = false) -> filter p l = [].
Proof.
  intros H. induction l as [|x l IH]; [reflexivity|].
  cbn [filter]. rewrite H by now left. apply IH.
  intros y Hy. apply H. now right.
Qed.

Lemma combine_fst_snd {A B} (l : list (A * B)) :
  combine (map fst l) (map snd l) = l.
Proof.
  induction l as [|[a b] l IH]; [reflexivity|]. cbn. now rewrite IH.
Qed.

Lemma map_snd_combine {A B} (xs : list A) (ys : list B) :
  length xs = length ys -> map snd (combine xs ys) = ys.
Proof.
  revert ys. induction xs as [|x xs IH]; intros [|y ys] H; try discriminate;
    [reflexivity|].
  cbn. f_equal. apply IH. now injection H.
Qed.

(** The description column read row by row. *)
Lemma getitem_pairs (df : DataFrame) (c : pystr) (ds : list pystr) :
  getitem df c = Ok (map VStr ds) ->
  exists i,
    index_of c (columns df) = Some i
    /\ length ds = length (data df)
    /\ forall p, In p (combine ds (data df)) -> nth i (snd p) VNaN = VStr (fst p).
Proof.
  unfold getitem. destruct (index_of c (columns df)) as [i|]; [|discriminate].
  intros [= H]. exists i. split; [reflexivity|].
  revert ds H. induction (data df) as [|r rows IH]; intros [|d ds] H;
    try discriminate.
  - split; [reflexivity | intros p []].
  - cbn [map] in H. injection H as Hd Hrest.
    destruct (IH ds Hrest) as [Hlen Hp]. split; [cbn; now rewrite Hlen|].
    intros p [<- | Hin]; [exact Hd | now apply Hp].
Qed.

Lemma df_nao_vazio (df : DataFrame) (c : pystr) (xs : list value) :
  getitem df c = Ok xs -> data df <> [] -> df_empty df = false.
Proof.
  intros Hget Hdata. unfold df_empty. unfold getitem in Hget.
  destruct (columns df); [discriminate|].
  destruct (data df); [congruence | reflexivity].
Qed.

(** X10. Filtering in cascade: the matcher applied with a threshold [t2] to
    what it returned for a lower threshold [t1] gives what it gives on the
    whole collection with [t2], as long as the first pass kept a row. *)
Theorem cruzar_em_cascata
  (full_process : pystr -> pystr) (seq_ratio : pystr -> pystr -> Z)
  (df df1 : DataFrame) (rubricas : list pystr) (t1 t2 : Z)
  (descricoes : list pystr) :
  (forall a b, 0 <= seq_ratio a b <= 100) ->
  rubricas <> [] ->
  getitem df DESCRICAO = Ok (map VStr descricoes) ->
  t1 <= t2 ->
  cruzar_descontos_com_rubricas full_process seq_ratio df rubricas t1 = Ok df1 ->
  data df1 <> [] ->
  cruzar_descontos_com_rubricas full_process seq_ratio df1 rubricas t2
  = cruzar_descontos_com_rubricas full_process seq_ratio df rubricas t2.
Proof.
  intros Hrange Hrub Hget Ht H1 Hdata1.
  destruct (getitem_pairs df DESCRICAO descricoes Hget) as (i & Hi & Hlen & Hp).
  assert (data df <> []) as Hdata.
  { intros E. unfold cruzar_descontos_com_rubricas, df_empty in H1.
    rewrite E in H1. destruct (columns df); cbn in H1;
      injection H1 as <-; now apply Hdata1. }
  pose proof (df_nao_vazio _ _ _ Hget Hdata) as Hne.
  rewrite (cruzar_filtra full_process seq_ratio Hrange rubricas t1 df descricoes)
    in H1 by assumption.
  injection H1 as <-. cbn [data] in Hdata1.
  set (best := melhor_pontuacao full_process seq_ratio rubricas) in *.
  set (F := filter (fun dr : pystr * list value => t1 <=? best (fst dr))
                   (combine descricoes (data df))) in *.
  assert (getitem (mkDF (columns df) (map snd F)) DESCRICAO
          = Ok (map VStr (map fst F))) as Hget1.
  { unfold getitem. cbn [columns data]. rewrite Hi. f_equal.
    rewrite !map_map. apply map_ext_in. intros p Hin.
    apply Hp. unfold F in Hin. now apply filter_In in Hin as [Hin _]. }
  rewrite (cruzar_filtra full_process seq_ratio Hrange rubricas t2 _ (map fst F))
    by first [assumption | eapply df_nao_vazio; [exact Hget1 | exact Hdata1]].
  rewrite (cruzar_filtra full_process seq_ratio Hrange rubricas t2 df descricoes)
    by assumption.
  cbn [columns data]. rewrite combine_fst_snd. unfold F.
  rewrite filter_filter_impl; [reflexivity|].
  intros [d r]. cbn [fst]. fold best. intros H. apply Z.leb_le in H.
  apply Z.leb_le. lia.
Qed.

(** X11. The two ends of the threshold scale: with a threshold of zero or
    less every row is kept, with one above 100 none is. *)
Theorem cruzar_limiares_extremos
  (full_process : pystr -> pystr) (seq_ratio : pystr -> pystr -> Z)
  (df : DataFrame) (rubricas : list pystr) (threshold : Z)
  (descricoes : list pystr) :
  (forall a b, 0 <= seq_ratio a b <= 100) ->
  data df <> [] ->
  rubricas <> [] ->
  getitem df DESCRICAO = Ok (map VStr descricoes) ->
  (threshold <= 0 ->
   cruzar_descontos_com_rubricas full_process seq_ratio df rubricas threshold
   = Ok df)
  /\ (100 < threshold ->
      cruzar_descontos_com_rubricas full_process seq_ratio df rubricas threshold
      = Ok (mkDF (columns df) [])).
Proof.
  intros Hrange Hdata Hrub Hget.
  destruct (getitem_pairs df DESCRICAO descricoes Hget) as (i & Hi & Hlen & Hp).
  pose proof (df_nao_vazio _ _ _ Hget Hdata) as Hne.
  rewrite (cruzar_filtra full_process seq_ratio Hrange rubricas threshold
             df descricoes) by assumption.
  split; intros Ht.
  - rewrite filter_all.
    + rewrite map_snd_combine by assumption. now destruct df.
    + intros [d r] _. cbn [fst]. apply Z.leb_le.
      pose proof (melhor_pontuacao_range full_process seq_ratio Hrange
                    rubricas d). lia.
  - rewrite filter_none; [reflexivity|].
    intros [d r] _. cbn [fst]. apply Z.leb_gt.
    pose proof (melhor_pontuacao_range full_process seq_ratio Hrange
                  rubricas d). lia.
Qed.

Lemma melhor_pontuacao_incl
  (full_process : pystr -> pystr) (seq_ratio : pystr -> pystr -> Z)
  (rs rs' : list pystr) (desc : pystr) :
  (forall a b, 0 <= seq_ratio a b <= 100) ->
  (forall r, In r rs -> In r rs') ->
  melhor_pontuacao full_process seq_ratio rs desc
  <= melhor_pontuacao full_process seq_ratio rs' desc.
Proof.
  intros Hrange Hincl. destruct rs as [|r0 rs0].
  - cbn. now apply melhor_pontuacao_range.
  - destruct (melhor_pontuacao_attained full_process seq_ratio Hrange
                (r0 :: rs0) desc) as (r & Hr & ->); [discriminate|].
    apply melhor_pontuacao_upper. now apply Hincl.
Qed.

(** X12. The glossary counts as a set: two glossaries with the same entries,
    in whatever order and however many times each, select the same rows. *)
Theorem cruzar_glossario_como_conjunto
  (full_process : pystr -> pystr) (seq_ratio : pystr -> pystr -> Z)
  (df : DataFrame) (rs rs' : list pystr) (threshold : Z)
  (descricoes : list pystr) :
  (forall a b, 0 <= seq_ratio a b <= 100) ->
  getitem df DESCRICAO = Ok (map VStr descricoes) ->
  (forall r, In r rs <-> In r rs') ->
  cruzar_descontos_com_rubricas full_process seq_ratio df rs threshold
  = cruzar_descontos_com_rubricas full_process seq_ratio df rs' threshold.
Proof.
  intros Hrange Hget Hsame.
  destruct (data df) as [|row rows] eqn:Hdata.
  { unfold cruzar_descontos_com_rubricas, df_empty. rewrite Hdata.
    now destruct (columns df). }
  assert (data df <> []) as Hne by (rewrite Hdata; discriminate).
  pose proof (df_nao_vazio _ _ _ Hget Hne) as Hdf.
  destruct rs as [|r0 rs0].
  { destruct rs' as [|r1 rs1]; [reflexivity|].
    exfalso. apply (Hsame r1). now left. }
  destruct rs' as [|r1 rs1].
  { exfalso. apply (Hsame r0). now left. }
  rewrite !(cruzar_filtra full_process seq_ratio Hrange _ threshold df descricoes)
    by (assumption || discriminate).
  do 3 f_equal. apply filter_ext. intros [d r]. cbn [fst]. f_equal.
  apply Z.le_antisymm; apply melhor_pontuacao_incl; try assumption;
    intros x Hx; now apply Hsame.
Qed.

Lemma razao_exemplo_range (a b : pystr) : 0 <= razao_exemplo a b <= 100.
Proof. unfold razao_exemplo. destruct (Nat.eqb (length a) (length b)); lia. Qed.

Lemma cruzar_em_cascata_witness :
  let rubricas := [u "EMPRESTIMO"; u "SEGURO"] in
  let descricoes := [u "EMPRESTIMO"; u "Indébito (A-B)"] in
  let df1 := mkDF (columns descontos_exemplo)
                  [[VStr (u "101"); VStr (u "EMPRESTIMO"); VStr (u "100,00");
                    VStr (u "01/2024")]] in
  (forall a b, 0 <= razao_exemplo a b <= 100)
  /\ rubricas <> []
  /\ getitem descontos_exemplo DESCRICAO = Ok (map VStr descricoes)
  /\ 50 <= 85
  /\ cruzar_descontos_com_rubricas lstrip razao_exemplo descontos_exemplo
       rubricas 50 = Ok df1
  /\ data df1 <> []
  /\ cruzar_descontos_com_rubricas lstrip razao_exemplo df1 rubricas 85
     = cruzar_descontos_com_rubricas lstrip razao_exemplo descontos_exemplo
         rubricas 85.
Proof.
  intros rubricas descricoes df1.
  assert (rubricas <> []) as H2 by discriminate.
  assert (getitem descontos_exemplo DESCRICAO = Ok (map VStr descricoes)) as H3
    by (vm_compute; reflexivity).
  assert (50 <= 85) as H4 by lia.
  assert (cruzar_descontos_com_rubricas lstrip razao_exemplo descontos_exemplo
            rubricas 50 = Ok df1) as H5 by (vm_compute; reflexivity).
  assert (data df1 <> []) as H6 by discriminate.
  split; [exact razao_exemplo_range|]. split; [exact H2|]. split; [exact H3|].
  split; [exact H4|]. split; [exact H5|]. split; [exact H6|].
  exact (cruzar_em_cascata lstrip razao_exemplo descontos_exemplo df1 rubricas
           50 85 descricoes razao_exemplo_range H2 H3 H4 H5 H6).
Defined.

Lemma cruzar_limiares_extremos_witness :
  let rubricas := [u "EMPRESTIMO"; u "SEGURO"] in
  let descricoes := [u "EMPRESTIMO"; u "Indébito (A-B)"] in
  (forall a b, 0 <= razao_exemplo a b <= 100)
  /\ data descontos_exemplo <> []
  /\ rubricas <> []
  /\ getitem descontos_exemplo DESCRICAO = Ok (map VStr descricoes)
  /\ (0 <= 0 ->
      cruzar_descontos_com_rubricas lstrip razao_exemplo descontos_exemplo
        rubricas 0 = Ok descontos_exemplo)
  /\ (100 < 101 ->
      cruzar_descontos_com_rubricas lstrip razao_exemplo descontos_exemplo
        rubricas 101 = Ok (mkDF (columns descontos_exemplo) [])).
Proof.
  intros rubricas descricoes.
  assert (data descontos_exemplo <> []) as H1 by discriminate.
  assert (rubricas <> []) as H2 by discriminate.
  assert (getitem descontos_exemplo DESCRICAO = Ok (map VStr descricoes)) as H3
    by (vm_compute; reflexivity).
  split; [exact razao_exemplo_range|]. split; [exact H1|]. split; [exact H2|].
  split; [exact H3|]. split.
  - exact (proj1 (cruzar_limiares_extremos lstrip razao_exemplo
                    descontos_exemplo rubricas 0 descricoes
                    razao_exemplo_range H1 H2 H3)).
  - exact (proj2 (cruzar_limiares_extremos lstrip razao_exemplo
                    descontos_exemplo rubricas 101 descricoes
                    razao_exemplo_range H1 H2 H3)).
Defined.

Lemma cruzar_glossario_como_conjunto_witness :
  let rs := [u "EMPRESTIMO"; u "SEGURO"] in
  let rs' := [u "SEGURO"; u "EMPRESTIMO"; u "SEGURO"] in
  let descricoes := [u "EMPRESTIMO"; u "Indébito (A-B)"] in
  (forall a b, 0 <= razao_exemplo a b <= 100)
  /\ getitem descontos_exemplo DESCRICAO = Ok (map VStr descricoes)
  /\ (forall r, In r rs <-> In r rs')
  /\ cruzar_descontos_com_rubricas lstrip razao_exemplo descontos_exemplo rs 85
     = cruzar_descontos_com_rubricas lstrip razao_exemplo descontos_exemplo rs' 85.
Proof.
  intros rs rs' descricoes.
  assert (getitem descontos_exemplo DESCRICAO = Ok (map VStr descricoes)) as H2
    by (vm_compute; reflexivity).
  assert (forall r, In r rs <-> In r rs') as H3.
  { intros r. unfold rs, rs'. cbn [In]. tauto. }
  split; [exact razao_exemplo_range|]. split; [exact H2|]. split; [exact H3|].
  exact (cruzar_glossario_como_conjunto lstrip razao_exemplo descontos_exemplo
           rs rs' 85 descricoes razao_exemplo_range H2 H3).
Defined.

(** ** [extrair_data_da_pagina]: the shape of the result *)

Lemma extrair_data_forma
  (nd : char -> option Z) (pages : list pystr) (p : Z) (d : pystr) :
  extrair_data_da_pagina nd pages p = Ok d -> d = ND \/ mm_yyyy nd d.
Proof.
  unfold extrair_data_da_pagina.
  destruct (p - 1 <? Z.of_nat (length pages)); [|intros [= <-]; now left].
  destruct (py_index pages (p - 1)) as [text|]; [|discriminate].
  cbn [bind].
  destruct (re_search (date_pattern nd) text) as [m|] eqn:Em;
    intros [= <-]; [|now left].
  right. destruct (re_search_some _ _ _ Em) as (i & _ & Hm & _).
  now apply matches_date_pattern.
Qed.

(** X13. For a page number from 1 on, [extrair_data_da_pagina] raises
    nothing and returns either ["N/D"] or seven characters of the form
    [dd/dddd]; for a page beyond the last one it returns ["N/D"]. *)
Theorem extrair_data_formato
  (nd : char -> option Z) (pages : list pystr) (p : Z) :
  1 <= p ->
  exists m,
    extrair_data_da_pagina nd pages p = Ok m
    /\ (m = ND \/ mm_yyyy nd m)
    /\ (Z.of_nat (length pages) < p -> m = ND).
Proof.
  intros Hp. unfold extrair_data_da_pagina.
  destruct (Z.ltb_spec (p - 1) (Z.of_nat (length pages))) as [Hlt|Hge].
  - destruct (nth_error pages (Z.to_nat (p - 1))) as [text|] eqn:E.
    + rewrite (py_index_nth pages (p - 1) text) by (lia || assumption).
      cbn [bind].
      destruct (re_search (date_pattern nd) text) as [m|] eqn:Em.
      * exists m. split; [reflexivity|]. split; [|lia]. right.
        destruct (re_search_some _ _ _ Em) as (i & _ & Hm & _).
        now apply matches_date_pattern.
      * exists ND. split; [reflexivity|]. split; [now left | reflexivity].
    + apply nth_error_None in E. lia.
  - exists ND. split; [reflexivity|]. split; [now left | reflexivity].
Qed.

Lemma extrair_data_formato_witness :
  1 <= 2
  /\ exists m,
       extrair_data_da_pagina so_ascii paginas_exemplo 2 = Ok m
       /\ (m = ND \/ mm_yyyy so_ascii m)
       /\ (Z.of_nat (length paginas_exemplo) < 2 -> m = ND).
Proof.
  assert (1 <= 2) as H by lia.
  split; [exact H|].
  exact (extrair_data_formato so_ascii paginas_exemplo 2 H).
Defined.

(** X14. Page number 0 is not refused: by Python's indexing from the end it
    reads the last page of the document. *)
Theorem extrair_data_pagina_zero (nd : char -> option Z) (pages : list pystr) :
  pages <> [] ->
  extrair_data_da_pagina nd pages 0
  = extrair_data_da_pagina nd pages (Z.of_nat (length pages)).
Proof.
  intros Hne. unfold extrair_data_da_pagina.
  assert (0 < Z.of_nat (length pages)) as Hlen
    by (destruct pages; [congruence | cbn [length]; lia]).
  destruct (Z.ltb_spec (0 - 1) (Z.of_nat (length pages))); [|lia].
  destruct (Z.ltb_spec (Z.of_nat (length pages) - 1) (Z.of_nat (length pages)));
    [|lia].
  f_equal. unfold py_index.
  change (0 - 1 <? 0) with true. cbv iota.
  destruct (Z.ltb_spec (Z.of_nat (length pages) - 1) 0); [lia|].
  now replace (0 - 1 + Z.of_nat (length pages)) with (Z.of_nat (length pages) - 1)
    by lia.
Qed.

Lemma extrair_data_pagina_zero_witness :
  paginas_exemplo <> []
  /\ extrair_data_da_pagina so_ascii paginas_exemplo 0
     = extrair_data_da_pagina so_ascii paginas_exemplo
         (Z.of_nat (length paginas_exemplo)).
Proof.
  assert (paginas_exemplo <> []) as H by discriminate.
  split; [exact H|].
  exact (extrair_data_pagina_zero so_ascii paginas_exemplo H).
Defined.

(** ** [carregar_glossario] *)

Lemma splitlines_no_break (s : pystr) :
  Forall (Forall (fun c => is_linebreak c = false)) (splitlines s).
Proof.
  assert (forall n s, (length s <= n)%nat ->
            Forall (Forall (fun c => is_linebreak c = false)) (splitlines s))
    as H.
  { clear s. induction n as [|n IH]; intros [|c s] Hlen;
      try (cbn [splitlines]; now constructor).
    - cbn [length] in Hlen. lia.
    - cbn [length] in Hlen. cbn [splitlines].
      destruct (is_linebreak c) eqn:Ec.
      + constructor; [constructor|].
        destruct s as [|c' s'']; [constructor|].
        destruct ((c =? 13) && (c' =? 10)); apply IH; cbn [length] in *; lia.
      + pose proof (IH s ltac:(lia)) as Hs.
        destruct (splitlines s) as [|l ls].
        * repeat constructor. exact Ec.
        * inversion Hs; subst. constructor; [|assumption].
          now constructor. }
  now apply (H (length s)).
Qed.

(** X15. No glossary entry holds a line boundary, whatever the file
    holds. *)
Theorem glossario_sem_quebras (ler : pystr -> option pystr) (path : pystr) :
  Forall (Forall (fun c => is_linebreak c = false)) (carregar_glossario ler path).
Proof.
  unfold carregar_glossario.
  destruct (ler path); [apply splitlines_no_break | constructor].
Qed.

Lemma splitlines_line (l rest : pystr) :
  Forall (fun c => is_linebreak c = false) l ->
  splitlines (l ++ NL :: rest) = l :: splitlines rest.
Proof.
  induction 1 as [|c l Hc Hl IH].
  - cbn [app splitlines]. change (is_linebreak NL) with true. cbv iota.
    destruct rest as [|c' s'']; [reflexivity|].
    change (NL =? 13) with false. reflexivity.
  - cbn [app splitlines]. now rewrite Hc, IH.
Qed.

(** X16. Reading gives back what was written: a file that holds the entries
    one a line, each ended by a line feed, is read as those entries, in
    order, blank entries included. *)
Theorem glossario_ida_e_volta
  (ler : pystr -> option pystr) (path : pystr) (ls : list pystr) :
  Forall (Forall (fun c => is_linebreak c = false)) ls ->
  ler path = Some (texto_de_linhas ls) ->
  carregar_glossario ler path = ls.
Proof.
  intros Hls Hler. unfold carregar_glossario. rewrite Hler. clear Hler.
  unfold texto_de_linhas. induction Hls as [|l ls Hl Hls IH]; [reflexivity|].
  cbn [flat_map]. rewrite <- app_assoc. cbn [app].
  rewrite splitlines_line by assumption. now f_equal.
Qed.

Lemma glossario_ida_e_volta_witness :
  let ls := [u "EMPRESTIMO"; u ""; u "SEGURO DE VIDA"] in
  let ler := fun _ : pystr => Some (texto_de_linhas ls) in
  Forall (Forall (fun c => is_linebreak c = false)) ls
  /\ ler GLOSSARY_PATH = Some (texto_de_linhas ls)
  /\ carregar_glossario ler GLOSSARY_PATH = ls.
Proof.
  intros ls ler.
  assert (Forall (Forall (fun c => is_linebreak c = false)) ls) as H1.
  { unfold ls. repeat (apply Forall_cons; [each_char reflexivity|]).
    apply Forall_nil. }
  assert (ler GLOSSARY_PATH = Some (texto_de_linhas ls)) as H2 by reflexivity.
  split; [exact H1|]. split; [exact H2|].
  exact (glossario_ida_e_volta ler GLOSSARY_PATH ls H1 H2).
Defined.

(** X17. With no glossary file, or an empty one, the filter of the
    application selects nothing: the matcher returns the empty frame for
    every collection and every threshold. *)
Theorem sem_glossario_nada_seleciona
  (ler : pystr -> option pystr)
  (full_process : pystr -> pystr) (seq_ratio : pystr -> pystr -> Z)
  (df : DataFrame) (threshold : Z) :
  ler GLOSSARY_PATH = None \/ ler GLOSSARY_PATH = Some [] ->
  cruzar_descontos_com_rubricas full_process seq_ratio df
    (carregar_glossario_rubricas ler) threshold
  = Ok empty_frame.
Proof.
  intros H.
  assert (carregar_glossario_rubricas ler = []) as ->.
  { unfold carregar_glossario_rubricas, carregar_glossario.
    now destruct H as [-> | ->]. }
  unfold cruzar_descontos_com_rubricas. cbn [length Nat.eqb].
  now rewrite orb_true_r.
Qed.

Lemma sem_glossario_nada_seleciona_witness :
  let ler := fun _ : pystr => @None (list Z) in
  (ler GLOSSARY_PATH = None \/ ler GLOSSARY_PATH = Some [])
  /\ cruzar_descontos_com_rubricas lstrip razao_exemplo descontos_exemplo
       (carregar_glossario_rubricas ler) 85
     = Ok empty_frame.
Proof.
  intros ler.
  assert (ler GLOSSARY_PATH = None \/ ler GLOSSARY_PATH = Some []) as H
    by (left; reflexivity).
  split; [exact H|].
  exact (sem_glossario_nada_seleciona ler lstrip razao_exemplo
           descontos_exemplo 85 H).
Defined.

(** ** The state behind [get_state_value] *)

Lemma dict_get_set_same (d : Sessao.dict) (k : pystr) (v : Sessao.obj) :
  Sessao.dict_getitem (Sessao.dict_setitem d k v) k = Some v.
Proof.
  induction d as [|[k' v'] d IH]; cbn [Sessao.dict_setitem Sessao.dict_getitem].
  - now rewrite str_eqb_refl.
  - destruct (str_eqb k' k) eqn:E; cbn [Sessao.dict_getitem]; now rewrite E.
Qed.

Lemma dict_get_set_other (d : Sessao.dict) (k k' : pystr) (v : Sessao.obj) :
  k' <> k ->
  Sessao.dict_getitem (Sessao.dict_setitem d k v) k' = Sessao.dict_getitem d k'.
Proof.
  intros Hne.
  induction d as [|[k0 v0] d IH]; cbn [Sessao.dict_setitem Sessao.dict_getitem].
  - replace (str_eqb k k') with false; [reflexivity|].
    symmetry. apply str_eqb_neq. congruence.
  - destruct (str_eqb k0 k) eqn:E; cbn [Sessao.dict_getitem].
    + apply str_eqb_eq in E. subst k0.
      replace (str_eqb k k') with false; [reflexivity|].
      symmetry. apply str_eqb_neq. congruence.
    + destruct (str_eqb k0 k'); [reflexivity | exact IH].
Qed.

(** X18. What [set_state_value] stores under a key is what
    [get_state_value] returns for it, with or without a session: a value put
    in the session hides the one of the fallback dictionary, and every other
    key reads as before. *)
Theorem estado_ida_e_volta (s : Sessao.Store) (k : pystr) (v : Sessao.obj) :
  Sessao.get_state_value (Sessao.set_state_value s k v) k = v
  /\ forall k', k' <> k ->
       Sessao.get_state_value (Sessao.set_state_value s k v) k'
       = Sessao.get_state_value s k'.
Proof.
  unfold Sessao.get_state_value, Sessao.set_state_value, Sessao.fallback_get.
  destruct (Sessao.session_state s) as [d|];
    cbn [Sessao.session_state Sessao._fallback_state].
  - split; [now rewrite dict_get_set_same|].
    intros k' Hne. now rewrite dict_get_set_other.
  - split; [now rewrite dict_get_set_same|].
    intros k' Hne. now rewrite dict_get_set_other.
Qed.

(** X19. The amount typed in the form is the amount B of the calculation:
    once the application has stored the text under ["valor_recebido"], the
    calculator reads that text, or ["0"] when it is empty. *)
Theorem valor_recebido_chega_ao_calculo (s : Sessao.Store) (valor : pystr) :
  texto_B (Sessao.visao
             (Sessao.set_state_value s (u "valor_recebido") (Sessao.Texto valor)))
  = match valor with
    | [] => u "0"
    | _ :: _ => valor
    end.
Proof.
  unfold texto_B, Sessao.visao.
  change (get_state_value ?st (u "valor_recebido")) with (valor_recebido st).
  cbn [valor_recebido].
  unfold Sessao.get_state_value, Sessao.set_state_value, Sessao.fallback_get.
  destruct (Sessao.session_state s) as [d|];
    cbn [Sessao.session_state Sessao._fallback_state];
    rewrite dict_get_set_same; cbn [Sessao.texto or_zero];
    now destruct valor.
Qed.

Lemma estado_ida_e_volta_witness :
  let s := Sessao.mkStore None Sessao.fallback_inicial in
  let s' := Sessao.set_state_value s (u "valor_recebido")
              (Sessao.Texto (u "50,00")) in
  Sessao.get_state_value s' (u "valor_recebido") = Sessao.Texto (u "50,00")
  /\ (u "nome_extraido" <> u "valor_recebido" ->
      Sessao.get_state_value s' (u "nome_extraido")
      = Sessao.get_state_value s (u "nome_extraido")).
Proof.
  intros s s'.
  destruct (estado_ida_e_volta s (u "valor_recebido") (Sessao.Texto (u "50,00")))
    as [H1 H2].
  split; [exact H1|]. intros Hne. exact (H2 _ Hne).
Defined.

(** ** [extrair_nome_e_matricula]: the shape of the result *)

Lemma takewhile_all (cls : char -> bool) (s : pystr) :
  Forall (fun c => cls c = true) (takewhile cls s).
Proof.
  induction s as [|c s IH]; [constructor|].
  cbn [takewhile]. destruct (cls c) eqn:E; now constructor.
Qed.

Lemma takewhile_head (cls : char -> bool) (s : pystr) (c : char) (m : pystr) :
  takewhile cls s = c :: m -> exists s', s = c :: s'.
Proof.
  destruct s as [|d s]; [discriminate|]. cbn [takewhile].
  destruct (cls d); [|discriminate]. intros [= -> _]. now exists s.
Qed.

Lemma rstrip_cons (c : char) (s : pystr) :
  isspace c = false -> exists w, rstrip (c :: s) = c :: w.
Proof.
  intros Hc. unfold rstrip. cbn [rev].
  destruct (lstrip_snoc (rev s) c Hc) as [w ->].
  rewrite rev_app_distr. cbn [rev app]. now exists (rev w).
Qed.

Lemma strip_cons (c : char) (s : pystr) :
  isspace c = false -> exists w, strip (c :: s) = c :: w.
Proof.
  intros Hc. unfold strip. cbn [lstrip]. rewrite Hc. now apply rstrip_cons.
Qed.

Lemma strip_head (s : pystr) :
  match strip s with
  | c :: _ => isspace c = false
  | [] => True
  end.
Proof. apply rstrip_head, lstrip_head. Qed.

Lemma nome_de_linha (nd : char -> option Z) (s g : pystr) :
  match_nome nd (strip s) = Some g -> nome_valido nd (strip g).
Proof.
  unfold match_nome. intros H.
  destruct (takewhile (fun c => negb (is_decimal nd c)) (strip s))
    as [|c m] eqn:E; [discriminate|].
  injection H as <-.
  destruct (takewhile_head _ _ _ _ E) as [s' Hs].
  pose proof (strip_head s) as Hc. rewrite Hs in Hc.
  destruct (strip_cons c m Hc) as [w Hw].
  split; [rewrite Hw; discriminate|]. split; [apply strip_idem|].
  apply Forall_forall. intros x Hx. apply strip_In in Hx.
  pose proof (takewhile_all (fun c => negb (is_decimal nd c)) (strip s)) as Hall.
  rewrite E, Forall_forall in Hall. specialize (Hall x Hx).
  now apply negb_true_iff in Hall.
Qed.

Lemma ND_valido (nd : char -> option Z) : nome_valido nd ND.
Proof.
  split; [discriminate|]. split; [reflexivity|].
  repeat constructor.
Qed.

Lemma percorrer_nome (nd : char -> option Z) (upper : pystr -> pystr)
      (lines : list pystr) (nome matricula : pystr) :
  nome_valido nd nome ->
  nome_valido nd (fst (percorrer_linhas nd upper lines nome matricula)).
Proof.
  revert nome matricula.
  induction lines as [|linha resto IH]; intros nome matricula Hn; [exact Hn|].
  cbn [percorrer_linhas]. destruct resto as [|seguinte resto']; [exact Hn|].
  apply IH.
  destruct (contains (u "NOME") (upper linha)); [|exact Hn].
  destruct (match_nome nd (strip seguinte)) as [g|] eqn:E; [|exact Hn].
  now apply (nome_de_linha nd seguinte).
Qed.

(** ** The registration number *)

Lemma lstrip_app_nonspace (a : pystr) (c : char) (v : pystr) :
  isspace c = false ->
  exists a1 a2, a = a1 ++ a2 /\ lstrip (a ++ c :: v) = a2 ++ c :: v.
Proof.
  intros Hc. induction a as [|d a (a1 & a2 & -> & IH)].
  - exists [], []. split; [reflexivity|]. cbn [app lstrip]. now rewrite Hc.
  - cbn [app lstrip]. destruct (isspace d).
    + exists (d :: a1), a2. split; [reflexivity | exact IH].
    + exists [], (d :: a1 ++ a2). split; reflexivity.
Qed.

(** Stripping on the right a text whose part [a] ends with a character that
    is not white space leaves [a] and a prefix of the rest. *)
Lemma rstrip_app_prefix (a : pystr) (c : char) (t : pystr) :
  isspace c = false ->
  exists t1 t2, t = t1 ++ t2 /\ rstrip ((a ++ [c]) ++ t) = (a ++ [c]) ++ t1.
Proof.
  intros Hc. unfold rstrip. rewrite !rev_app_distr. cbn [rev app].
  destruct (lstrip_app_nonspace (rev t) c (rev a) Hc) as (u1 & u2 & Hu & ->).
  exists (rev u2), (rev u1). split.
  - rewrite <- rev_app_distr, <- Hu. now rewrite rev_involutive.
  - rewrite rev_app_distr. cbn [rev]. now rewrite rev_involutive.
Qed.

Lemma Forall_app_l {A} (P : A -> Prop) (l1 l2 : list A) :
  Forall P (l1 ++ l2) -> Forall P l1.
Proof. intros H. now apply Forall_app in H as [H _]. Qed.

Lemma matricula_de_linha (nd : char -> option Z) (s g : pystr) :
  (forall c, isspace c = true -> is_decimal nd c = false) ->
  search_matricula nd s = Some g ->
  strip g <> [] /\ strip (strip g) = strip g /\ forma_de_matricula nd (strip g).
Proof.
  intros Hsp. induction s as [|c s IH].
  - cbn. discriminate.
  - cbn [search_matricula].
    destruct (match_here (matricula_pattern nd) (c :: s)) as [m|] eqn:Em;
      [|exact IH].
    intros [= <-].
    destruct (match_here_some _ _ _ Em) as [Hm _].
    set (rest := skipn (length m) (c :: s)).
    set (sp := takewhile isspace rest).
    set (az := takewhile is_AZ (skipn (length sp) rest)).
    assert (Forall (fun c => isspace c || is_AZ c = true) (sp ++ az)) as Hcauda.
    { apply Forall_app. split.
      - eapply Forall_impl; [|apply takewhile_all]. cbn. now intros x ->.
      - eapply Forall_impl; [|apply takewhile_all]. cbn. intros x ->.
        apply orb_true_r. }
    (* the match is nine characters, the first and the last of them digits *)
    unfold matches, matricula_pattern in Hm.
    do 9 (let x := fresh "d" in let H := fresh "H" in
          inversion Hm as [|? x ? ? H Hm']; subst; clear Hm; rename Hm' into Hm).
    inversion Hm; subst. clear Hm.
    assert (isspace d = false) as Hd0.
    { destruct (isspace d) eqn:E; [|reflexivity]. apply Hsp in E. congruence. }
    assert (isspace d7 = false) as Hd8.
    { destruct (isspace d7) eqn:E; [|reflexivity]. apply Hsp in E. congruence. }
    assert (strip ([d; d0; d1; d2; d3; d4; d5; d6; d7] ++ sp ++ az)
            = rstrip ([d; d0; d1; d2; d3; d4; d5; d6; d7] ++ sp ++ az)) as Hl.
    { unfold strip. cbn [app lstrip]. now rewrite Hd0. }
    destruct (rstrip_app_prefix [d; d0; d1; d2; d3; d4; d5; d6] d7 (sp ++ az) Hd8)
      as (t1 & t2 & Ht & Hr).
    cbn [app] in Hr. rewrite Hl. cbn [app]. rewrite Hr.
    split; [discriminate|]. split.
    + rewrite <- Hr. cbn [app] in Hl. rewrite <- Hl. apply strip_idem.
    + exists [d; d0; d1; d2; d3; d4; d5; d6; d7], t1. split; [reflexivity|].
      split.
      * unfold matches, matricula_pattern. repeat constructor; assumption.
      * rewrite Ht in Hcauda. now apply Forall_app_l in Hcauda.
Qed.

Lemma percorrer_matricula (nd : char -> option Z) (upper : pystr -> pystr)
      (lines : list pystr) (nome matricula : pystr) :
  (forall c, isspace c = true -> is_decimal nd c = false) ->
  matricula <> [] /\ strip matricula = matricula
  /\ (matricula = ND \/ forma_de_matricula nd matricula) ->
  let r := snd (percorrer_linhas nd upper lines nome matricula) in
  r <> [] /\ strip r = r /\ (r = ND \/ forma_de_matricula nd r).
Proof.
  intros Hsp. revert nome matricula.
  induction lines as [|linha resto IH]; intros nome matricula Hm; [exact Hm|].
  cbn [percorrer_linhas]. destruct resto as [|seguinte resto']; [exact Hm|].
  apply IH.
  destruct (contains (u "MATRÍCULA-SEQ-DIG") (upper linha)); [|exact Hm].
  destruct (search_matricula nd (strip seguinte)) as [g|] eqn:E; [|exact Hm].
  destruct (matricula_de_linha nd _ _ Hsp E) as (H1 & H2 & H3).
  split; [exact H1|]. split; [exact H2|]. now right.
Qed.

(** Both components at once, for the heading of the final document. *)
Lemma extrair_resultado
  (nd : char -> option Z) (upper : pystr -> pystr) (paginas : list pystr) :
  let r := extrair_nome_e_matricula nd upper paginas in
  nome_valido nd (fst r)
  /\ ((forall c, isspace c = true -> is_decimal nd c = false) ->
      snd r <> [] /\ strip (snd r) = snd r
      /\ (snd r = ND \/ forma_de_matricula nd (snd r))).
Proof.
  unfold extrair_nome_e_matricula.
  assert (ND <> [] /\ strip ND = ND /\ (ND = ND \/ forma_de_matricula nd ND))
    as H0 by (split; [discriminate | split; [reflexivity | now left]]).
  assert (nome_valido nd
            (fst match paginas with
                 | text :: _ => percorrer_linhas nd upper (split NL text) ND ND
                 | [] => (ND, ND)
                 end)) as Hn.
  { destruct paginas as [|text _]; [apply ND_valido|].
    apply percorrer_nome, ND_valido. }
  assert ((forall c, isspace c = true -> is_decimal nd c = false) ->
          let r := snd match paginas with
                       | text :: _ =>
                         percorrer_linhas nd upper (split NL text) ND ND
                       | [] => (ND, ND)
                       end in
          r <> [] /\ strip r = r /\ (r = ND \/ forma_de_matricula nd r)) as Hm.
  { intros Hsp. destruct paginas as [|text _]; [exact H0|].
    now apply percorrer_matricula. }
  destruct (match paginas with
            | text :: _ => percorrer_linhas nd upper (split NL text) ND ND
            | [] => (ND, ND)
            end) as [nome matricula].
  cbn [fst snd] in *. split.
  - destruct Hn as (Hne & Hs & Hd).
    destruct nome as [|c nome]; [congruence|]. cbn [or_ND]. now repeat split.
  - intros Hsp. destruct (Hm Hsp) as (Hne & Hs & Hf).
    destruct matricula as [|c matricula]; [congruence|]. cbn [or_ND].
    now repeat split.
Qed.

(** X20. The name [extrair_nome_e_matricula] returns is never empty, has no
    white space at either end and holds no digit, whatever the PDF; the
    alternative ["N/D"] of the last line of the function is never taken for
    it. *)
Theorem nome_extraido_valido
  (nd : char -> option Z) (upper : pystr -> pystr) (paginas : list pystr) :
  let nome := fst (extrair_nome_e_matricula nd upper paginas) in
  nome <> [] /\ strip nome = nome
  /\ Forall (fun c => is_decimal nd c = false) nome.
Proof.
  unfold extrair_nome_e_matricula.
  assert (nome_valido nd
            (fst match paginas with
                 | text :: _ => percorrer_linhas nd upper (split NL text) ND ND
                 | [] => (ND, ND)
                 end)) as H.
  { destruct paginas as [|text _]; [apply ND_valido|].
    apply percorrer_nome, ND_valido. }
  destruct (match paginas with
            | text :: _ => percorrer_linhas nd upper (split NL text) ND ND
            | [] => (ND, ND)
            end) as [nome matricula].
  cbn [fst] in *. destruct H as (Hne & Hs & Hd).
  destruct nome as [|c nome]; [congruence|]. cbn [or_ND].
  now repeat split.
Qed.

(** X21. The registration number [extrair_nome_e_matricula] returns is
    ["N/D"] or a text of the form [ddd.ddd-d] followed by spaces and capital
    letters only; it is never empty and has no white space at either end. *)
Theorem matricula_extraida_valida
  (nd : char -> option Z) (upper : pystr -> pystr) (paginas : list pystr) :
  (forall c, isspace c = true -> is_decimal nd c = false) ->
  let matricula := snd (extrair_nome_e_matricula nd upper paginas) in
  matricula <> [] /\ strip matricula = matricula
  /\ (matricula = ND \/ forma_de_matricula nd matricula).
Proof.
  intros Hsp. unfold extrair_nome_e_matricula.
  assert (let r := snd match paginas with
                       | text :: _ =>
                         percorrer_linhas nd upper (split NL text) ND ND
                       | [] => (ND, ND)
                       end in
          r <> [] /\ strip r = r /\ (r = ND \/ forma_de_matricula nd r)) as H.
  { assert (ND <> [] /\ strip ND = ND /\ (ND = ND \/ forma_de_matricula nd ND))
      as H0 by (split; [discriminate | split; [reflexivity | now left]]).
    destruct paginas as [|text _]; [exact H0|].
    now apply percorrer_matricula. }
  destruct (match paginas with
            | text :: _ => percorrer_linhas nd upper (split NL text) ND ND
            | [] => (ND, ND)
            end) as [nome matricula].
  cbn [snd] in *. destruct H as (Hne & Hs & Hf).
  destruct matricula as [|c matricula]; [congruence|]. cbn [or_ND].
  now repeat split.
Qed.

Lemma matricula_extraida_valida_witness :
  (forall c, isspace c = true -> is_decimal so_ascii c = false)
  /\ let matricula :=
       snd (extrair_nome_e_matricula so_ascii (fun s => s) [pagina_exemplo]) in
     matricula <> [] /\ strip matricula = matricula
     /\ (matricula = ND \/ forma_de_matricula so_ascii matricula).
Proof.
  assert (forall c, isspace c = true -> is_decimal so_ascii c = false) as H.
  { intros c Hc. unfold is_decimal, todecimal, so_ascii, ascii_digit.
    destruct (c <? 128); [|reflexivity].
    destruct ((48 <=? c) && (c <=? 57)) eqn:E; [|reflexivity].
    unfold isspace in Hc. bool_lia. }
  split; [exact H|].
  exact (matricula_extraida_valida so_ascii (fun s => s) [pagina_exemplo] H).
Defined.

Example extrair_nome_e_matricula_exemplo :
  extrair_nome_e_matricula so_ascii (fun s => s) [pagina_exemplo]
  = (u "FULANO DE TAL", u "014.642-0 C").
Proof. vm_compute. reflexivity. Qed.

(** ** [sanitizar_para_arquivo] *)

Lemma lstrip_no_space (s : pystr) :
  Forall (fun c => isspace c = false) s -> lstrip s = s.
Proof.
  intros H. apply lstrip_fixed. destruct H; [exact I | assumption].
Qed.

Lemma strip_no_space (s : pystr) :
  Forall (fun c => isspace c = false) s -> strip s = s.
Proof.
  intros H. unfold strip, rstrip. rewrite (lstrip_no_space s H).
  rewrite lstrip_no_space by (now apply Forall_rev).
  apply rev_involutive.
Qed.

Lemma replace_absent (old : char) (new s : pystr) :
  ~ In old s -> replace old new s = s.
Proof.
  induction s as [|c s IH]; intros H; [reflexivity|].
  unfold replace in *. cbn [flat_map]. unfold char_eqb.
  destruct (Z.eqb_spec c old) as [->|_]; [exfalso; apply H; now left|].
  cbn [app]. f_equal. apply IH. intros Hin. apply H. now right.
Qed.

Lemma mantido_not_space (alnum : char -> bool) (c : char) :
  (forall c, isspace c = true -> alnum c = false) ->
  mantido alnum c = true -> isspace c = false.
Proof.
  intros Hal Hk. destruct (isspace c) eqn:Es; [|reflexivity].
  exfalso. unfold mantido, is_word in Hk.
  destruct (Z.ltb_spec c 128) as [Hlt|Hge].
  - unfold isspace, is_ascii_digit, UNDERSCORE, MINUS, DOT in *. bool_lia.
  - rewrite (Hal c Es) in Hk.
    unfold UNDERSCORE, MINUS, DOT in *. bool_lia.
Qed.

(** X22. A sanitised name is a fixed point of the sanitiser, and it holds
    no white space, no slash and no backslash (points are kept, [".."]
    included). *)
Theorem sanitizar_idempotente (alnum : char -> bool) (texto : pystr) :
  (forall c, isspace c = true -> alnum c = false) ->
  let nome := sanitizar_para_arquivo alnum texto in
  sanitizar_para_arquivo alnum nome = nome
  /\ Forall (fun c => isspace c = false /\ c <> 47 /\ c <> 92) nome.
Proof.
  intros Hal nome.
  assert (Forall (fun c => mantido alnum c = true) nome) as Hk.
  { unfold nome, sanitizar_para_arquivo. apply Forall_forall. intros c Hc.
    now apply filter_In in Hc as [_ Hc]. }
  assert (Forall (fun c => isspace c = false) nome) as Hs.
  { eapply Forall_impl; [|exact Hk]. intros c. now apply mantido_not_space. }
  split.
  - unfold sanitizar_para_arquivo at 1. rewrite strip_no_space by assumption.
    rewrite replace_absent.
    + apply filter_all. now apply Forall_forall.
    + intros Hin. rewrite Forall_forall in Hs. now specialize (Hs 32 Hin).
  - rewrite Forall_forall in Hk, Hs |- *. intros c Hc.
    split; [now apply Hs|].
    specialize (Hk c Hc). unfold mantido, is_word in Hk.
    split; intros ->; cbn in Hk; discriminate.
Qed.

Lemma sanitizar_idempotente_witness :
  (forall c, isspace c = true -> (fun _ : Z => false) c = false)
  /\ let nome := sanitizar_para_arquivo (fun _ => false)
                   (u " ../Fulano de Tal/014.642-0 C ") in
     sanitizar_para_arquivo (fun _ => false) nome = nome
     /\ Forall (fun c => isspace c = false /\ c <> 47 /\ c <> 92) nome.
Proof.
  assert (forall c, isspace c = true -> (fun _ : Z => false) c = false) as H
    by reflexivity.
  split; [exact H|].
  exact (sanitizar_idempotente (fun _ => false)
           (u " ../Fulano de Tal/014.642-0 C ") H).
Defined.

Example sanitizar_exemplo :
  sanitizar_para_arquivo (fun _ => false) (u " ../Fulano de Tal/014.642-0 C ")
  = u "..Fulano_de_Tal014.642-0_C".
Proof. vm_compute. reflexivity. Qed.

(** ** [PDFFinais.montar_tabela]: the bottom margin *)

Lemma cells_cursor (w : pystr -> Z) (al : pystr -> pystr) (hh : Z)
      (cvs : list (pystr * pystr)) (pdf : PDF) :
  let pdf' :=
    fold_left (fun pdf (cv : pystr * pystr) =>
                 pdf_cell pdf (w (fst cv)) hh (snd cv) (al (fst cv)) false)
              cvs pdf in
  y pdf' = y pdf /\ h pdf' = h pdf.
Proof.
  revert pdf. induction cvs as [|cv cvs IH]; intros pdf; [now split|].
  cbn [fold_left]. cbv zeta in IH.
  destruct (IH (pdf_cell pdf (w (fst cv)) hh (snd cv) (al (fst cv)) false))
    as [-> ->].
  now split.
Qed.

Lemma montar_cab_cursor (pdf : PDF) (col_names : list pystr) :
  h (montar_cab pdf col_names) = h pdf
  /\ (col_names <> [] -> y (montar_cab pdf col_names) = y pdf + 8)
  /\ (col_names = [] -> y (montar_cab pdf col_names) = y pdf + lasth pdf).
Proof.
  unfold montar_cab.
  set (p0 := set_fill_color (set_font pdf Arial (u "B") 10) 200 220 255).
  assert (forall cols p,
            let p' := fold_left
                        (fun pdf col_h =>
                           pdf_cell pdf (widths_map_get col_h) 8 col_h (u "C") false)
                        cols p in
            y p' = y p /\ h p' = h p
            /\ lasth p' = match cols with [] => lasth p | _ :: _ => 8 end) as Hf.
  { induction cols as [|c cols IH]; intros p; [now repeat split|].
    cbn [fold_left]. cbv zeta in IH.
    destruct (IH (pdf_cell p (widths_map_get c) 8 c (u "C") false))
      as (-> & -> & Hl).
    repeat split. rewrite Hl. now destruct cols. }
  destruct (Hf col_names p0) as (Hy & Hh & Hl). cbv zeta in Hy, Hh, Hl.
  cbn [pdf_ln h y]. rewrite Hy, Hh, Hl.
  split; [reflexivity|]. split; intros Hc.
  - destruct col_names; [congruence | reflexivity].
  - now rewrite Hc.
Qed.

(** Where a row leaves the cursor. *)
Lemma montar_linha_cursor
  (nd : char -> option Z) (upper : pystr -> pystr)
  (col_names : list pystr) (pdf pdf' : PDF) (rowv : list value) :
  montar_linha nd upper col_names pdf rowv = Ok pdf' ->
  h pdf' = h pdf
  /\ y pdf' = (if h pdf <? y pdf + 7 + 15 then 33 else y pdf) + 7.
Proof.
  unfold montar_linha.
  destruct (index_of DESCRICAO col_names) as [i|] eqn:Ei; [|discriminate].
  cbn [bind]. intros [= <-].
  assert (col_names <> []) as Hne by (intros ->; discriminate).
  set (p1 := if h pdf <? y pdf + 7 + 15
             then montar_cab (add_page pdf) col_names else pdf).
  assert (h p1 = h pdf
          /\ y p1 = if h pdf <? y pdf + 7 + 15 then 33 else y pdf) as [Hh1 Hy1].
  { unfold p1. destruct (h pdf <? y pdf + 7 + 15); [|now split].
    destruct (montar_cab_cursor (add_page pdf) col_names) as (Hh & Hy & _).
    rewrite Hh, (Hy Hne). now split. }
  set (p2 := if is_especial (nth i rowv VNaN)
             then set_text_color (set_font p1 Arial (u "B") 11) 255 0 0
             else set_text_color (set_font p1 Arial [] 9) 0 0 0).
  assert (h p2 = h p1 /\ y p2 = y p1) as [Hh2 Hy2]
    by (unfold p2; destruct (is_especial (nth i rowv VNaN)); now split).
  match goal with
  | |- context [fold_left ?f ?cvs p2] =>
    destruct (cells_cursor widths_map_get
                (fun c => if str_eqb (upper c) DESCRICAO then u "L" else u "C")
                7 cvs p2) as [Hy3 Hh3];
    set (p3 := fold_left f cvs p2) in *
  end.
  cbv zeta in Hy3, Hh3.
  destruct (is_especial (nth i rowv VNaN));
    cbn [set_text_color set_font pdf_ln h y]; rewrite Hy3, Hh3; split; congruence.
Qed.

(** X23. No row of the final report is written into the bottom margin: on
    a page of at least 55 mm, once a row is written the cursor is at least
    15 mm above the bottom edge of the page. *)
Theorem montar_tabela_margem
  (nd : char -> option Z) (upper : pystr -> pystr)
  (pdf pdf' : PDF) (df : DataFrame) :
  55 <= h pdf ->
  data df <> [] ->
  montar_tabela nd upper pdf df = Ok pdf' ->
  h pdf' = h pdf /\ y pdf' + 15 <= h pdf'.
Proof.
  intros Hh Hdata. unfold montar_tabela.
  set (p0 := set_font (montar_cab pdf (columns df)) Arial [] 9).
  assert (h p0 = h pdf) as Hh0
    by (unfold p0; cbn [set_font h]; apply montar_cab_cursor).
  assert (forall rows p p',
            for_each (montar_linha nd upper (columns df)) rows p = Ok p' ->
            h p' = h p
            /\ (rows <> [] -> 55 <= h p -> y p' + 15 <= h p')) as Hloop.
  { induction rows as [|r rows IH]; intros p p' H.
    - cbn [for_each] in H. injection H as <-. split; [reflexivity | congruence].
    - cbn [for_each] in H.
      destruct (montar_linha nd upper (columns df) p r) as [p1|] eqn:E1;
        [|discriminate].
      cbn [bind] in H. destruct (montar_linha_cursor _ _ _ _ _ _ E1) as [Hh1 Hy1].
      destruct (IH p1 p' H) as [Hh' Hy']. split; [congruence|].
      intros _ H55. destruct rows as [|r' rows'].
      + cbn [for_each] in H. injection H as <-. rewrite Hy1, Hh1.
        destruct (Z.ltb_spec (h p) (y p + 7 + 15)); lia.
      + apply Hy'; [discriminate | lia]. }
  intros H. destruct (Hloop _ _ _ H) as [Hh' Hy'].
  split; [congruence|]. apply Hy'; [assumption | lia].
Qed.

Lemma montar_tabela_margem_witness :
  55 <= h pdf_exemplo
  /\ data descontos_exemplo <> []
  /\ exists pdf',
       montar_tabela so_ascii (fun s => s) pdf_exemplo descontos_exemplo = Ok pdf'
       /\ h pdf' = h pdf_exemplo /\ y pdf' + 15 <= h pdf'.
Proof.
  assert (55 <= h pdf_exemplo) as H1 by (cbn; lia).
  assert (data descontos_exemplo <> []) as H2 by discriminate.
  split; [exact H1|]. split; [exact H2|].
  destruct (montar_tabela so_ascii (fun s => s) pdf_exemplo descontos_exemplo)
    as [pdf'|e] eqn:E.
  - exists pdf'. split; [reflexivity|].
    exact (montar_tabela_margem so_ascii (fun s => s) pdf_exemplo pdf'
             descontos_exemplo H1 H2 E).
  - exfalso. revert E. vm_compute. discriminate.
Defined.

(** ** [PDFRelatorioCamelot.montar_tabela] *)

Lemma add_page_tabelas (r : Tabelas.Relatorio) :
  let p := Tabelas.pdf r in
  let p' := Tabelas.pdf (Tabelas.add_page r) in
  h p' = h p /\ y p' = 33 /\ font p' = font p /\ text_color p' = text_color p
  /\ corpo (printed p') = corpo (printed p).
Proof.
  cbv zeta. unfold Tabelas.add_page, Tabelas.header, Tabelas._draw_header_line,
    Tabelas.header_cols.
  cbn [fold_left Tabelas.pdf Tabelas.nome_user Tabelas.nit_user
       Tabelas.page_count set_font set_fill_color pdf_cell pdf_ln
       titulo h y lasth font text_color fill_color printed fst snd].
  repeat split; try reflexivity.
  unfold corpo. rewrite !filter_app. cbn [filter cell_h].
  change (10 =? 7) with false. change (8 =? 7) with false. cbv iota.
  now rewrite !app_nil_r.
Qed.

Lemma rowv_str_cell (cols : list pystr) (rowv : list value) (c : pystr) :
  In c cols ->
  Tabelas.rowv_str cols rowv c = Ok (py_str (cell cols rowv c)).
Proof.
  intros Hin. unfold Tabelas.rowv_str, cell.
  now destruct (index_of_In c cols Hin) as [i ->].
Qed.

(** One row: four cells in the type of the body, and the cursor above the
    bottom margin. *)
Lemma montar_linha_tabelas
  (nd : char -> option Z) (cols : list pystr) (r : Tabelas.Relatorio)
  (rowv : list value) :
  In col_COD cols -> In col_Descricao cols -> In col_TOTAL cols ->
  In col_DATA cols ->
  font (Tabelas.pdf r) = mkFont Arial [] 9 ->
  exists r',
    Tabelas.montar_linha nd cols r rowv = Ok r'
    /\ h (Tabelas.pdf r') = h (Tabelas.pdf r)
    /\ font (Tabelas.pdf r') = mkFont Arial [] 9
    /\ text_color (Tabelas.pdf r') = text_color (Tabelas.pdf r)
    /\ corpo (printed (Tabelas.pdf r'))
       = corpo (printed (Tabelas.pdf r))
         ++ celulas_do_item nd cols (text_color (Tabelas.pdf r)) rowv
    /\ (55 <= h (Tabelas.pdf r) ->
        y (Tabelas.pdf r') + 15 <= h (Tabelas.pdf r')).
Proof.
  intros H1 H2 H3 H4 Hfont. unfold Tabelas.montar_linha. cbv zeta.
  rewrite !rowv_str_cell by assumption. cbn [bind].
  set (r0 := if h (Tabelas.pdf r) <? y (Tabelas.pdf r) + 7 + 15
             then Tabelas.add_page r else r).
  assert (h (Tabelas.pdf r0) = h (Tabelas.pdf r)
          /\ font (Tabelas.pdf r0) = mkFont Arial [] 9
          /\ text_color (Tabelas.pdf r0) = text_color (Tabelas.pdf r)
          /\ corpo (printed (Tabelas.pdf r0)) = corpo (printed (Tabelas.pdf r))
          /\ (55 <= h (Tabelas.pdf r) ->
              y (Tabelas.pdf r0) + 7 + 15 <= h (Tabelas.pdf r)))
    as (Hh & Hf & Hc & Hp & Hy).
  { unfold r0.
    destruct (Z.ltb_spec (h (Tabelas.pdf r)) (y (Tabelas.pdf r) + 7 + 15)).
    - destruct (add_page_tabelas r) as (E1 & E2 & E3 & E4 & E5).
      cbv zeta in E1, E2, E3, E4, E5. rewrite E1, E2, E3, E4, E5.
      repeat split; try assumption; try reflexivity. lia.
    - repeat split; try assumption; try reflexivity. lia. }
  eexists. split; [reflexivity|].
  cbn [Tabelas.pdf pdf_ln pdf_cell h y font text_color printed].
  rewrite Hh, Hf, Hc. repeat split; try reflexivity.
  - unfold corpo in *. rewrite <- !app_assoc, filter_app, Hp. reflexivity.
  - intros H55. specialize (Hy H55). lia.
Qed.

(** X29. The report of the tables prints every extracted item, in order, as
    four cells, whatever the page breaks on the way: code, description,
    total (through [formatar_valor_brl] when not blank) and date, in Arial
    of 9 points; and no row is written into the bottom margin. *)
Theorem relatorio_das_tabelas
  (nd : char -> option Z) (r : Tabelas.Relatorio) (df : DataFrame) :
  In col_COD (columns df) -> In col_Descricao (columns df) ->
  In col_TOTAL (columns df) -> In col_DATA (columns df) ->
  55 <= h (Tabelas.pdf r) ->
  exists r',
    Tabelas.montar_tabela nd r df = Ok r'
    /\ corpo (printed (Tabelas.pdf r'))
       = corpo (printed (Tabelas.pdf r))
         ++ flat_map (celulas_do_item nd (columns df) (text_color (Tabelas.pdf r)))
                     (data df)
    /\ (data df <> [] -> y (Tabelas.pdf r') + 15 <= h (Tabelas.pdf r')).
Proof.
  intros H1 H2 H3 H4 H55. unfold Tabelas.montar_tabela.
  set (r0 := Tabelas.mkRelatorio _ _ _ _).
  assert (font (Tabelas.pdf r0) = mkFont Arial [] 9) as Hf0 by reflexivity.
  change (printed (Tabelas.pdf r)) with (printed (Tabelas.pdf r0)).
  change (text_color (Tabelas.pdf r)) with (text_color (Tabelas.pdf r0)).
  assert (55 <= h (Tabelas.pdf r0)) as H55' by exact H55.
  clearbody r0. clear r H55.
  revert r0 Hf0 H55'. induction (data df) as [|rowv rows IH]; intros r Hf H55.
  - exists r. cbn [for_each flat_map]. rewrite app_nil_r.
    split; [reflexivity|]. split; [reflexivity | congruence].
  - cbn [for_each flat_map].
    destruct (montar_linha_tabelas nd (columns df) r rowv H1 H2 H3 H4 Hf)
      as (r1 & E & Hh & Hf1 & Hc & Hp & Hy).
    rewrite E. cbn [bind].
    destruct (IH r1 Hf1 ltac:(lia)) as (r' & E' & Hp' & Hy').
    exists r'. split; [exact E'|]. split.
    + rewrite Hp', Hp, Hc. now rewrite <- app_assoc.
    + intros _. destruct rows as [|rowv' rows'].
      * cbn [for_each] in E'. injection E' as <-. now apply Hy.
      * apply Hy'. discriminate.
Qed.

Lemma relatorio_das_tabelas_witness :
  let df := mkDF [col_COD; col_Descricao; col_TOTAL; col_DATA]
                 [[VStr (u "101"); VStr (u "EMPR"); VStr (u "100,00");
                   VStr (u "03/2024")]] in
  let r := Tabelas.add_page
             (Tabelas.mkRelatorio pdf_exemplo (u "FULANO") (u "014.642-0 C") 0) in
  In col_COD (columns df) /\ In col_Descricao (columns df)
  /\ In col_TOTAL (columns df) /\ In col_DATA (columns df)
  /\ 55 <= h (Tabelas.pdf r)
  /\ exists r',
       Tabelas.montar_tabela so_ascii r df = Ok r'
       /\ corpo (printed (Tabelas.pdf r'))
          = corpo (printed (Tabelas.pdf r))
            ++ flat_map (celulas_do_item so_ascii (columns df)
                           (text_color (Tabelas.pdf r)))
                        (data df)
       /\ (data df <> [] -> y (Tabelas.pdf r') + 15 <= h (Tabelas.pdf r')).
Proof.
  intros df r.
  assert (In col_COD (columns df)) as H1 by (cbn; tauto).
  assert (In col_Descricao (columns df)) as H2 by (cbn; tauto).
  assert (In col_TOTAL (columns df)) as H3 by (cbn; tauto).
  assert (In col_DATA (columns df)) as H4 by (cbn; tauto).
  assert (55 <= h (Tabelas.pdf r)) as H5 by (cbn; lia).
  split; [exact H1|]. split; [exact H2|]. split; [exact H3|].
  split; [exact H4|]. split; [exact H5|].
  exact (relatorio_das_tabelas so_ascii r df H1 H2 H3 H4 H5).
Defined.

(** A frame whose description column is named ["DESCRIÇÃO"], as after the
    renaming of [main], stops the report with [KeyError]. *)
Example relatorio_sem_coluna :
  Tabelas.gerar_pdf so_ascii
    (Tabelas.mkRelatorio pdf_exemplo (u "FULANO") (u "014.642-0 C") 0)
    descontos_exemplo
  = Raise KeyError.
Proof. vm_compute. reflexivity. Qed.

(** ** From the extracted items to the matcher *)

Lemma filter_combine_map {A B} (f : A -> B) (g : B -> bool) (l : list A) :
  map snd (filter (fun p => g (fst p)) (combine (map f l) l))
  = filter (fun x => g (f x)) l.
Proof.
  induction l as [|x l IH]; [reflexivity|].
  cbn [map combine filter fst]. destruct (g (f x)); cbn [map snd]; now rewrite IH.
Qed.

Lemma limpa_nth (r : list value) (k : nat) :
  Forall limpa r -> (k < length r)%nat -> exists s, nth k r VNaN = VStr s.
Proof.
  intros Hr Hk. rewrite Forall_forall in Hr.
  destruct (Hr (nth k r VNaN) (nth_In r VNaN Hk)) as (s & -> & _).
  now exists s.
Qed.

Lemma itens_de_texto
  (nd : char -> option Z) (pages : list pystr) (tables : list Table) :
  Forall (fun t => in_values DESCRICAO (grid t) = true ->
                   Forall (fun row => length row = 6%nat) (grid t)
                   /\ 1 <= page t) tables ->
  Forall item_de_texto (flat_map (itens_da_tabela nd pages) tables).
Proof.
  intros Hwf. apply Forall_forall. intros it Hit.
  apply in_flat_map in Hit as (t & Ht & Hit).
  rewrite Forall_forall in Hwf. specialize (Hwf t Ht).
  unfold itens_da_tabela in Hit.
  destruct (extrair_data_da_pagina nd pages (page t)) as [d|]; [|destruct Hit].
  apply in_map_iff in Hit as (r & <- & Hr).
  pose proof (linhas_expandidas_limpas (map (map VStr) (linhas_de_dados t)))
    as Hl.
  pose proof (concat_expandidas_length _ _ (linhas_de_dados_seis t Hwf)) as Hn.
  rewrite Forall_forall in Hl, Hn. specialize (Hl r Hr). specialize (Hn r Hr).
  destruct (limpa_nth r 2 Hl ltac:(lia)) as [cod Hcod].
  destruct (limpa_nth r 0 Hl ltac:(lia)) as [desc Hdesc].
  destruct (limpa_nth r 5 Hl ltac:(lia)) as [total Htotal].
  exists cod, desc, total, d. unfold item_de. now rewrite Hcod, Hdesc, Htotal.
Qed.

(** X24. From the PDF to the matcher without an exception: for tables whose
    header rows come with six columns, the collection that [main] hands to
    the matcher has the columns COD, DESCRIÇÃO, DESCONTOS and DATA, holds
    the extracted items whose total is not blank, in order, and the matcher
    returns those of them whose description reaches the threshold. *)
Theorem dos_itens_ao_filtro
  (nd : char -> option Z) (pages : list pystr) (tables : list Table)
  (full_process : pystr -> pystr) (seq_ratio : pystr -> pystr -> Z)
  (rubricas : list pystr) (threshold : Z) (df_contra : DataFrame) :
  (forall a b, 0 <= seq_ratio a b <= 100) ->
  Forall (fun t => in_values DESCRICAO (grid t) = true ->
                   Forall (fun row => length row = 6%nat) (grid t)
                   /\ 1 <= page t) tables ->
  processar_contracheques_camelot nd pages tables = Some df_contra ->
  df_empty df_contra = false ->
  exists df_aux,
    preparar_descontos df_contra = Ok df_aux
    /\ columns df_aux = [col_COD; DESCRICAO; col_DESCONTOS; col_DATA]
    /\ data df_aux = filter (fun r => nao_vazio (nth 2 r VNaN)) (data df_contra)
    /\ (data df_aux <> [] -> rubricas <> [] ->
        cruzar_descontos_com_rubricas full_process seq_ratio df_aux rubricas
          threshold
        = Ok (mkDF (columns df_aux)
                (filter (fun r =>
                           threshold
                           <=? melhor_pontuacao full_process seq_ratio rubricas
                                 (py_str (nth 1 r VNaN)))
                        (data df_aux)))).
Proof.
  intros Hrange Hwf Hproc Hne.
  unfold processar_contracheques_camelot in Hproc.
  rewrite processar_tabelas_bem_formadas in Hproc by assumption.
  injection Hproc as <-.
  pose proof (itens_de_texto nd pages tables Hwf) as Htxt.
  destruct (flat_map (itens_da_tabela nd pages) tables) as [|it itens] eqn:Eit;
    [discriminate|].
  set (rows := it :: itens) in *. clearbody rows. clear Eit it itens Hne.
  unfold preparar_descontos, rename_columns. cbn [columns data].
  change (map _ [col_COD; col_Descricao; col_TOTAL; col_DATA])
    with [col_COD; DESCRICAO; col_DESCONTOS; col_DATA].
  change (getitem (mkDF [col_COD; DESCRICAO; col_DESCONTOS; col_DATA] rows)
                  col_DESCONTOS)
    with (Ok (map (fun row : list value => nth 2 row VNaN) rows)).
  cbn [bind]. rewrite (filter_combine_map (fun row => nth 2 row VNaN) nao_vazio).
  eexists. split; [reflexivity|]. cbn [columns data].
  split; [reflexivity|]. split; [reflexivity|].
  intros Hdata Hrub.
  set (kept := filter (fun x : list value => nao_vazio (nth 2 x VNaN)) rows) in *.
  assert (Forall item_de_texto kept) as Hk.
  { apply Forall_forall. intros r Hr. unfold kept in Hr.
    apply filter_In in Hr as [Hr _]. rewrite Forall_forall in Htxt. auto. }
  assert (getitem (mkDF [col_COD; DESCRICAO; col_DESCONTOS; col_DATA] kept)
                  DESCRICAO
          = Ok (map VStr (map (fun r => py_str (nth 1 r VNaN)) kept))) as Hget.
  { change (getitem (mkDF [col_COD; DESCRICAO; col_DESCONTOS; col_DATA] kept)
                    DESCRICAO)
      with (Ok (map (fun row : list value => nth 1 row VNaN) kept)).
    f_equal. rewrite map_map. apply map_ext_in. intros r Hr.
    rewrite Forall_forall in Hk.
    now destruct (Hk r Hr) as (cod & desc & total & d & ->). }
  rewrite (cruzar_filtra full_process seq_ratio Hrange rubricas threshold _
             (map (fun r => py_str (nth 1 r VNaN)) kept));
    try assumption.
  - cbn [columns data]. do 2 f_equal.
    apply (filter_combine_map (fun r => py_str (nth 1 r VNaN))
             (fun d => threshold
                       <=? melhor_pontuacao full_process seq_ratio rubricas d)).
  - unfold df_empty. cbn [columns data]. destruct kept; [congruence | reflexivity].
Qed.

Lemma dos_itens_ao_filtro_witness :
  let df_contra :=
    mkDF [col_COD; col_Descricao; col_TOTAL; col_DATA]
         [[VStr (u "101"); VStr (u "EMPR"); VStr (u "100,00"); VStr (u "03/2024")];
          [VStr (u "202"); VStr (u "SEG"); VStr (u "50,00"); VStr (u "03/2024")]] in
  let rubricas := [u "EMPR"; u "SEGURO"] in
  (forall a b, 0 <= razao_exemplo a b <= 100)
  /\ Forall (fun t => in_values DESCRICAO (grid t) = true ->
                      Forall (fun row => length row = 6%nat) (grid t)
                      /\ 1 <= page t) [tabela_seis_colunas]
  /\ processar_contracheques_camelot so_ascii paginas_exemplo
       [tabela_seis_colunas] = Some df_contra
  /\ df_empty df_contra = false
  /\ exists df_aux,
       preparar_descontos df_contra = Ok df_aux
       /\ columns df_aux = [col_COD; DESCRICAO; col_DESCONTOS; col_DATA]
       /\ data df_aux
          = filter (fun r => nao_vazio (nth 2 r VNaN)) (data df_contra)
       /\ (data df_aux <> [] -> rubricas <> [] ->
           cruzar_descontos_com_rubricas lstrip razao_exemplo df_aux rubricas 85
           = Ok (mkDF (columns df_aux)
                   (filter (fun r =>
                              85 <=? melhor_pontuacao lstrip razao_exemplo
                                       rubricas (py_str (nth 1 r VNaN)))
                           (data df_aux)))).
Proof.
  intros df_contra rubricas.
  assert (Forall (fun t => in_values DESCRICAO (grid t) = true ->
                           Forall (fun row => length row = 6%nat) (grid t)
                           /\ 1 <= page t) [tabela_seis_colunas]) as H2.
  { repeat constructor; cbn; lia. }
  assert (processar_contracheques_camelot so_ascii paginas_exemplo
            [tabela_seis_colunas] = Some df_contra) as H3
    by (vm_compute; reflexivity).
  assert (df_empty df_contra = false) as H4 by reflexivity.
  split; [exact razao_exemplo_range|]. split; [exact H2|]. split; [exact H3|].
  split; [exact H4|].
  exact (dos_itens_ao_filtro so_ascii paginas_exemplo [tabela_seis_colunas]
           lstrip razao_exemplo rubricas 85 df_contra
           razao_exemplo_range H2 H3 H4).
Defined.

(** X30. The shape of what the normaliser returns: when every table that
    has the header row has six columns, each row of the result has four
    fields; code, description and total are text with no line break and no
    white space at either end, and the date is ["N/D"] or of the form
    [dd/dddd]. *)
Theorem itens_bem_formados
  (nd : char -> option Z) (pages : list pystr) (tables : list Table)
  (df : DataFrame) :
  Forall (fun t => in_values DESCRICAO (grid t) = true ->
                   Forall (fun row => length row = 6%nat) (grid t)
                   /\ 1 <= page t) tables ->
  processar_contracheques_camelot nd pages tables = Some df ->
  Forall (item_bem_formado nd) (data df).
Proof.
  intros Hwf Hproc. unfold processar_contracheques_camelot in Hproc.
  rewrite processar_tabelas_bem_formadas in Hproc by assumption.
  injection Hproc as <-.
  assert (Forall (item_bem_formado nd)
                 (flat_map (itens_da_tabela nd pages) tables)) as H.
  { apply Forall_forall. intros it Hit.
    apply in_flat_map in Hit as (t & Ht & Hit).
    rewrite Forall_forall in Hwf. specialize (Hwf t Ht).
    unfold itens_da_tabela in Hit.
    destruct (extrair_data_da_pagina nd pages (page t)) as [d|] eqn:Ed;
      [|destruct Hit].
    apply in_map_iff in Hit as (r & <- & Hr).
    pose proof (linhas_expandidas_limpas (map (map VStr) (linhas_de_dados t)))
      as Hl.
    pose proof (concat_expandidas_length _ _ (linhas_de_dados_seis t Hwf)) as Hn.
    rewrite Forall_forall in Hl, Hn. specialize (Hl r Hr). specialize (Hn r Hr).
    rewrite Forall_forall in Hl.
    exists (nth 2 r VNaN), (nth 0 r VNaN), (nth 5 r VNaN), d.
    split; [reflexivity|].
    repeat split; try (apply Hl, nth_In; lia).
    now apply (extrair_data_forma nd pages (page t)). }
  destruct (flat_map (itens_da_tabela nd pages) tables); [constructor | exact H].
Qed.

Lemma itens_bem_formados_witness :
  let df :=
    mkDF [col_COD; col_Descricao; col_TOTAL; col_DATA]
         [[VStr (u "101"); VStr (u "EMPR"); VStr (u "100,00"); VStr (u "03/2024")];
          [VStr (u "202"); VStr (u "SEG"); VStr (u "50,00"); VStr (u "03/2024")]] in
  Forall (fun t => in_values DESCRICAO (grid t) = true ->
                   Forall (fun row => length row = 6%nat) (grid t)
                   /\ 1 <= page t) [tabela_seis_colunas]
  /\ processar_contracheques_camelot so_ascii paginas_exemplo
       [tabela_seis_colunas] = Some df
  /\ Forall (item_bem_formado so_ascii) (data df).
Proof.
  intros df.
  assert (Forall (fun t => in_values DESCRICAO (grid t) = true ->
                           Forall (fun row => length row = 6%nat) (grid t)
                           /\ 1 <= page t) [tabela_seis_colunas]) as H1.
  { repeat constructor; cbn; lia. }
  assert (processar_contracheques_camelot so_ascii paginas_exemplo
            [tabela_seis_colunas] = Some df) as H2
    by (vm_compute; reflexivity).
  split; [exact H1|]. split; [exact H2|].
  exact (itens_bem_formados so_ascii paginas_exemplo [tabela_seis_colunas] df
           H1 H2).
Defined.

(** ** [gerar_docx_finais]: the heading *)

Lemma match_titulo_nondigit (nd : char -> option Z) (c : char) (s : pystr) :
  is_decimal nd c = false -> match_titulo nd (c :: s) = None.
Proof. intros H. unfold match_titulo. cbn [takewhile]. now rewrite H. Qed.

(** A match leaves less text than it was given, so the length of the text
    is fuel enough for [sub_titulo]: more fuel changes nothing. *)
Lemma match_titulo_shorter (nd : char -> option Z) (s g1 g2 rest : pystr) :
  match_titulo nd s = Some (g1, g2, rest) -> (length rest < length s)%nat.
Proof.
  unfold match_titulo.
  destruct (takewhile (is_decimal nd) s) as [|c ds]; [discriminate|].
  destruct (skipn (length (c :: ds)) s) as [|sep r] eqn:E1; [discriminate|].
  destruct (char_eqb sep COMMA); [|discriminate].
  destruct (match_here (sufixo_pattern nd) r) as [m|]; [|discriminate].
  destruct (skipn (length (takewhile isspace (skipn (length m) r)))
                  (skipn (length m) r)) as [|l r3] eqn:E2; [discriminate|].
  destruct (is_letter l); [|discriminate]. intros [= _ _ <-].
  pose proof (f_equal (@length Z) E1) as L1.
  pose proof (f_equal (@length Z) E2) as L2.
  rewrite length_skipn in L1, L2. cbn [length] in L1, L2.
  pose proof (length_skipn (length m) r) as L3. lia.
Qed.

Lemma sub_titulo_fuel (nd : char -> option Z) (f1 f2 : nat) (s : pystr) :
  (length s <= f1)%nat -> (length s <= f2)%nat ->
  sub_titulo nd f1 s = sub_titulo nd f2 s.
Proof.
  revert f2 s. induction f1 as [|f1 IH]; intros f2 s H1 H2.
  - destruct s; [|cbn [length] in H1; lia]. now destruct f2.
  - destruct f2 as [|f2].
    + destruct s; [reflexivity | cbn [length] in H2; lia].
    + cbn [sub_titulo].
      destruct (match_titulo nd s) as [[[g1 g2] rest]|] eqn:E.
      * apply match_titulo_shorter in E. do 3 f_equal. apply IH; lia.
      * destruct s as [|c s]; [reflexivity|]. cbn [length] in H1, H2.
        f_equal. apply IH; lia.
Qed.

Lemma sub_titulo_skip (nd : char -> option Z) (a b : pystr) (fuel : nat) :
  Forall (fun c => is_decimal nd c = false) a ->
  sub_titulo nd fuel (a ++ b) = a ++ sub_titulo nd (fuel - length a) b.
Proof.
  intros Ha. revert fuel. induction Ha as [|c a Hc Ha IH]; intros fuel.
  - cbn [app length]. now rewrite Nat.sub_0_r.
  - destruct fuel as [|fuel]; [reflexivity|].
    cbn [app sub_titulo length Nat.sub].
    rewrite match_titulo_nondigit by assumption. now rewrite IH.
Qed.

Lemma In_skipn {A} (x : A) (n : nat) (l : list A) : In x (skipn n l) -> In x l.
Proof.
  intros H. rewrite <- (firstn_skipn n l). apply in_or_app. now right.
Qed.

Lemma match_titulo_comma (nd : char -> option Z) (s : pystr)
      (r : pystr * pystr * pystr) :
  match_titulo nd s = Some r -> In COMMA s.
Proof.
  unfold match_titulo.
  destruct (takewhile (is_decimal nd) s) as [|c ds]; [discriminate|].
  destruct (skipn (length (c :: ds)) s) as [|sep r0] eqn:E; [discriminate|].
  unfold char_eqb. destruct (Z.eqb_spec sep COMMA) as [->|]; [|discriminate].
  intros _. apply (In_skipn _ (length (c :: ds))). rewrite E. now left.
Qed.

Lemma sub_titulo_no_comma (nd : char -> option Z) (fuel : nat) (s : pystr) :
  ~ In COMMA s -> sub_titulo nd fuel s = s.
Proof.
  revert s. induction fuel as [|fuel IH]; intros s Hs; [reflexivity|].
  cbn [sub_titulo].
  destruct (match_titulo nd s) as [r|] eqn:E.
  - exfalso. apply Hs. now apply (match_titulo_comma nd s r).
  - destruct s as [|c s]; [reflexivity|]. f_equal. apply IH.
    intros Hin. apply Hs. now right.
Qed.

Lemma forma_de_matricula_no_comma (nd : char -> option Z) (s : pystr) :
  forma_de_matricula nd s -> ~ In COMMA s.
Proof.
  intros (m & cauda & -> & Hm & Hc) Hin.
  assert (is_decimal nd COMMA = false) as Hd by reflexivity.
  apply in_app_or in Hin as [Hin | Hin].
  - unfold matches, matricula_pattern in Hm.
    do 9 (let x := fresh "d" in let H := fresh "H" in
          inversion Hm as [|? x ? ? H Hm']; subst; clear Hm; rename Hm' into Hm).
    inversion Hm; subst. clear Hm. cbn [In] in Hin.
    repeat (destruct Hin as [-> | Hin]; [first [congruence | discriminate]|]).
    exact Hin.
  - rewrite Forall_forall in Hc. specialize (Hc _ Hin). discriminate.
Qed.

Lemma ajustar_titulo_final
  (nd : char -> option Z) (upper : pystr -> pystr) (paginas : list pystr) :
  (forall c, isspace c = true -> is_decimal nd c = false) ->
  let r := extrair_nome_e_matricula nd upper paginas in
  ajustar_titulo nd (final_title (fst r) (snd r)) = final_title (fst r) (snd r).
Proof.
  intros Hsp r.
  destruct (extrair_resultado nd upper paginas) as [(_ & _ & Hn) Hm].
  destruct (Hm Hsp) as (_ & _ & Hf). fold r in Hn, Hf.
  unfold ajustar_titulo, final_title.
  set (fuel := length _).
  replace (u "Descontos Finais - " ++ fst r ++ u " - " ++ snd r)
    with ((u "Descontos Finais - " ++ fst r ++ u " - ") ++ snd r)
    by now rewrite <- !app_assoc.
  rewrite sub_titulo_skip.
  - f_equal. apply sub_titulo_no_comma.
    destruct Hf as [-> | Hf].
    + cbn. intros H. repeat (destruct H as [H | H]; [discriminate|]). exact H.
    + now apply (forma_de_matricula_no_comma nd).
  - apply Forall_app. split; [each_char reflexivity|].
    apply Forall_app. split; [exact Hn | each_char reflexivity].
Qed.

(** X26. The adjustment of the heading does nothing to the titles the
    application builds: in ["Descontos Finais - <name> - <number>"], with
    the name and the number that [extrair_nome_e_matricula] returns, no
    comma follows a digit, and the heading of the document is the title as
    it was given, whatever the frame. *)
Theorem titulo_final_inalterado
  (nd : char -> option Z) (upper : pystr -> pystr) (paginas : list pystr)
  (df : DataFrame) :
  (forall c, isspace c = true -> is_decimal nd c = false) ->
  let r := extrair_nome_e_matricula nd upper paginas in
  titulo_do_documento (gerar_docx_finais nd df (final_title (fst r) (snd r)))
  = final_title (fst r) (snd r).
Proof.
  intros Hsp r. subst r. unfold gerar_docx_finais. cbv zeta.
  rewrite (ajustar_titulo_final nd upper paginas Hsp).
  now destruct (df_empty df).
Qed.

Lemma titulo_final_inalterado_witness :
  (forall c, isspace c = true -> is_decimal so_ascii c = false)
  /\ let r := extrair_nome_e_matricula so_ascii (fun s => s) [pagina_exemplo] in
     titulo_do_documento
       (gerar_docx_finais so_ascii descontos_exemplo
          (final_title (fst r) (snd r)))
     = final_title (fst r) (snd r).
Proof.
  assert (forall c, isspace c = true -> is_decimal so_ascii c = false) as H.
  { intros c Hc. unfold is_decimal, todecimal, so_ascii, ascii_digit.
    destruct (c <? 128); [|reflexivity].
    destruct ((48 <=? c) && (c <=? 57)) eqn:E; [|reflexivity].
    unfold isspace in Hc. bool_lia. }
  split; [exact H|].
  exact (titulo_final_inalterado so_ascii (fun s => s) [pagina_exemplo]
           descontos_exemplo H).
Defined.

(** The adjustment at work: a comma between a digit and [ddd-d], spaces and
    a letter becomes a point. *)
Example ajustar_titulo_exemplo :
  ajustar_titulo so_ascii (u "Descontos Finais - FULANO - 14,642-0 C")
  = u "Descontos Finais - FULANO - 14.642-0 C".
Proof. vm_compute. reflexivity. Qed.

(** ** [gerar_docx_finais] and [PDFFinais]: the same rows *)

Lemma montar_linha_celulas
  (nd : char -> option Z) (upper : pystr -> pystr)
  (col_names : list pystr) (pdf : PDF) (rowv : list value) :
  In DESCRICAO col_names ->
  let esp := is_especial (cell col_names rowv DESCRICAO) in
  exists pdf' pre,
    montar_linha nd upper col_names pdf rowv = Ok pdf'
    /\ printed pdf'
       = printed pdf ++ pre
         ++ map (fun col_h =>
                   let val := py_str (cell col_names rowv col_h) in
                   mkCell (widths_map_get col_h) 7
                     (if str_eqb col_h col_DESCONTOS
                         && negb (Nat.eqb (length (strip val)) 0)
                      then formatar_valor_brl nd val else val)
                     (if str_eqb (upper col_h) DESCRICAO then u "L" else u "C")
                     (if esp then mkFont Arial (u "B") 11 else mkFont Arial [] 9)
                     (if esp then (255, 0, 0) else (0, 0, 0)))
                col_names.
Proof.
  intros Hin esp. unfold montar_linha. cbv zeta.
  destruct (index_of_In DESCRICAO col_names Hin) as [i Hi].
  assert (cell col_names rowv DESCRICAO = nth i rowv VNaN) as Hc
    by (unfold cell; now rewrite Hi).
  unfold esp. rewrite Hc. clear esp Hc.
  rewrite Hi. cbn [bind].
  destruct (page_break_printed col_names pdf) as [pre Hpre].
  set (pdf0 := if h pdf <? y pdf + 7 + 15
               then montar_cab (add_page pdf) col_names else pdf) in *.
  rewrite combine_map_l.
  set (styled := if is_especial (nth i rowv VNaN)
                 then set_text_color (set_font pdf0 Arial (u "B") 11) 255 0 0
                 else set_text_color (set_font pdf0 Arial [] 9) 0 0 0).
  match goal with
  | |- context [fold_left _ (map ?g col_names) styled] =>
    destruct (cells_printed widths_map_get
                (fun c => if str_eqb (upper c) DESCRICAO then u "L" else u "C")
                7 (map g col_names) styled) as (Hp & _ & _)
  end.
  cbn zeta in Hp.
  eexists. exists pre. split; [reflexivity|].
  assert (printed styled = printed pdf ++ pre) as Hs.
  { unfold styled. destruct (is_especial (nth i rowv VNaN)); exact Hpre. }
  destruct (is_especial (nth i rowv VNaN)) eqn:Ee;
    cbn [set_text_color set_font pdf_ln printed];
    rewrite Hp, Hs, <- app_assoc, map_map; unfold styled;
    reflexivity.
Qed.

(** X27. The two final reports show the same rows: for a frame with the
    columns COD, DESCRIÇÃO, DESCONTOS and DATA, the cells the PDF prints for
    a row hold the texts of the runs of the DOCX row, in the same type size,
    weight and colour, and with the same alignment. *)
Theorem docx_e_pdf_mesma_linha
  (nd : char -> option Z) (upper : pystr -> pystr) (pdf : PDF)
  (rowv : list value) :
  let cols := [col_COD; DESCRICAO; col_DESCONTOS; col_DATA] in
  (forall c, In c cols -> upper c = c) ->
  exists pdf' pre cells,
    montar_linha nd upper cols pdf rowv = Ok pdf'
    /\ printed pdf' = printed pdf ++ pre ++ cells
    /\ Forall2 (fun (c : PdfCell) (r : Run) =>
                  cell_txt c = run_text r
                  /\ cell_font c
                     = mkFont (run_name r) (if run_bold r then u "B" else [])
                              (run_size r)
                  /\ cell_color c = run_color r
                  /\ cell_align c = if para_left r then u "L" else u "C")
               cells (docx_linha nd cols rowv).
Proof.
  intros cols Hup.
  assert (In DESCRICAO cols) as Hin by (right; left; reflexivity).
  destruct (montar_linha_celulas nd upper cols pdf rowv Hin)
    as (pdf' & pre & Hm & Hp).
  exists pdf', pre. eexists. split; [exact Hm|]. split; [exact Hp|].
  assert (upper col_COD = col_COD) as U1 by (apply Hup; cbn; tauto).
  assert (upper DESCRICAO = DESCRICAO) as U2 by (apply Hup; cbn; tauto).
  assert (upper col_DESCONTOS = col_DESCONTOS) as U3 by (apply Hup; cbn; tauto).
  assert (upper col_DATA = col_DATA) as U4 by (apply Hup; cbn; tauto).
  unfold docx_linha, rowv_get_str, cols, cell, is_especial.
  change (index_of col_COD [col_COD; DESCRICAO; col_DESCONTOS; col_DATA])
    with (Some 0%nat).
  change (index_of DESCRICAO [col_COD; DESCRICAO; col_DESCONTOS; col_DATA])
    with (Some 1%nat).
  change (index_of col_DESCONTOS [col_COD; DESCRICAO; col_DESCONTOS; col_DATA])
    with (Some 2%nat).
  change (index_of col_DATA [col_COD; DESCRICAO; col_DESCONTOS; col_DATA])
    with (Some 3%nat).
  cbn [map]. rewrite U1, U2, U3, U4.
  change (str_eqb col_COD DESCRICAO) with false.
  change (str_eqb DESCRICAO DESCRICAO) with true.
  change (str_eqb col_DESCONTOS DESCRICAO) with false.
  change (str_eqb col_DATA DESCRICAO) with false.
  destruct (isin linhas_especiais (nth 1 rowv VNaN));
    repeat (apply Forall2_cons; [cbn; repeat split; reflexivity|]);
    apply Forall2_nil.
Qed.

Lemma docx_e_pdf_mesma_linha_witness :
  let cols := [col_COD; DESCRICAO; col_DESCONTOS; col_DATA] in
  let rowv := [VStr (u "101"); VStr (u "EMPRESTIMO"); VStr (u "100,00");
               VStr (u "01/2024")] in
  (forall c, In c cols -> (fun s : list Z => s) c = c)
  /\ exists pdf' pre cells,
       montar_linha so_ascii (fun s => s) cols pdf_exemplo rowv = Ok pdf'
       /\ printed pdf' = printed pdf_exemplo ++ pre ++ cells
       /\ Forall2 (fun (c : PdfCell) (r : Run) =>
                     cell_txt c = run_text r
                     /\ cell_font c
                        = mkFont (run_name r) (if run_bold r then u "B" else [])
                                 (run_size r)
                     /\ cell_color c = run_color r
                     /\ cell_align c = if para_left r then u "L" else u "C")
                  cells (docx_linha so_ascii cols rowv).
Proof.
  intros cols rowv.
  assert (forall c, In c cols -> (fun s : list Z => s) c = c) as H
    by reflexivity.
  split; [exact H|].
  exact (docx_e_pdf_mesma_linha so_ascii (fun s => s) pdf_exemplo rowv H).
Defined.

(** ** The selection of descriptions *)

Lemma filter_same_text (d : pystr) (us : list pystr) :
  filter (fun y => negb (same_value (VStr d) y)) (map VStr us)
  = map VStr (filter (fun y => negb (str_eqb d y)) us).
Proof.
  induction us as [|x us IH]; [reflexivity|].
  cbn [map filter]. change (same_value (VStr d) (VStr x)) with (str_eqb d x).
  destruct (str_eqb d x); cbn [negb map]; now rewrite IH.
Qed.

Lemma series_unique_text (ds : list pystr) :
  exists us,
    series_unique (map VStr ds) = map VStr us
    /\ NoDup us /\ forall d, In d us <-> In d ds.
Proof.
  induction ds as [|d ds (us & E & Hnd & Hin)].
  - exists []. repeat split; try constructor; intros H; exact H.
  - cbn [map series_unique]. rewrite E.
    exists (d :: filter (fun y => negb (str_eqb d y)) us). split; [|split].
    + cbn [map]. f_equal. apply filter_same_text.
    + constructor.
      * intros H. apply filter_In in H as [_ H]. now rewrite str_eqb_refl in H.
      * now apply NoDup_filter.
    + intros x. cbn [In]. rewrite filter_In, Hin. split.
      * intros [-> | [H _]]; [now left | now right].
      * intros [-> | H]; [now left|].
        destruct (str_eqb d x) eqn:Ex.
        -- left. now apply str_eqb_eq.
        -- right. now split.
Qed.

Lemma insert_sorted_text (x : pystr) (l : list pystr) :
  exists r,
    insert_sorted (VStr x) (map VStr l) = Ok (map VStr r)
    /\ (forall z, In z r <-> z = x \/ In z l)
    /\ (NoDup l -> ~ In x l -> NoDup r).
Proof.
  induction l as [|y l (r & E & Hin & Hnd)].
  - exists [x]. split; [reflexivity|]. split.
    + intros z. cbn. intuition congruence.
    + intros _ _. repeat constructor. intros [].
  - cbn [map insert_sorted value_ltb bind]. destruct (str_ltb y x).
    + rewrite E. cbn [bind]. exists (y :: r). split; [reflexivity|]. split.
      * intros z. cbn [In]. rewrite Hin. tauto.
      * intros Hl Hx. inversion Hl as [|? ? Hy Hl']; subst. constructor.
        -- rewrite Hin. intros [-> | H]; [apply Hx; now left | contradiction].
        -- apply Hnd; [assumption|]. intros H. apply Hx. now right.
    + exists (x :: y :: l). split; [reflexivity|]. split.
      * intros z. cbn [In]. intuition congruence.
      * intros Hl Hx. now constructor.
Qed.

Lemma sorted_text (l : list pystr) :
  exists r,
    sorted (map VStr l) = Ok (map VStr r)
    /\ (forall z, In z r <-> In z l) /\ (NoDup l -> NoDup r).
Proof.
  induction l as [|x l (r0 & E & Hin & Hnd)].
  - exists []. repeat split; auto.
  - cbn [map sorted]. rewrite E. cbn [bind].
    destruct (insert_sorted_text x r0) as (r & Er & Hinr & Hndr).
    exists r. split; [exact Er|]. split.
    + intros z. rewrite Hinr. cbn [In]. rewrite Hin. intuition congruence.
    + intros Hl. inversion Hl as [|? ? Hx Hl']; subst.
      apply Hndr; [now apply Hnd|]. now rewrite Hin.
Qed.

Lemma one_match (d : pystr) (vals : list pystr) :
  NoDup vals -> In d vals ->
  list_sum (map (fun v => if str_eqb d v then 1%nat else 0%nat) vals) = 1%nat.
Proof.
  induction 1 as [|v vals Hv Hnd IH]; intros Hin; [destruct Hin|].
  cbn [map list_sum fold_right]. destruct (str_eqb d v) eqn:E.
  - apply str_eqb_eq in E. subst v.
    assert (list_sum (map (fun v => if str_eqb d v then 1%nat else 0%nat) vals)
            = 0%nat) as H0.
    { clear IH Hin Hnd. induction vals as [|w vals IH]; [reflexivity|].
      cbn [map list_sum fold_right]. destruct (str_eqb d w) eqn:Ew.
      - apply str_eqb_eq in Ew. subst w. exfalso. apply Hv. now left.
      - cbn [Nat.add]. apply IH. intros H. apply Hv. now right. }
    unfold list_sum in *. rewrite H0. reflexivity.
  - destruct Hin as [-> | Hin]; [now rewrite str_eqb_refl in E|].
    cbn [Nat.add]. now apply IH.
Qed.

Lemma list_sum_add {A} (f g : A -> nat) (l : list A) :
  list_sum (map (fun v => (f v + g v)%nat) l)
  = (list_sum (map f l) + list_sum (map g l))%nat.
Proof.
  induction l as [|x l IH]; [reflexivity|].
  cbn [map list_sum fold_right] in *. unfold list_sum in IH. lia.
Qed.

Lemma counts_add_up (ds vals : list pystr) :
  NoDup vals -> (forall d, In d ds -> In d vals) ->
  list_sum (map (fun v => length (filter (fun x => str_eqb x v) ds)) vals)
  = length ds.
Proof.
  intros Hnd. induction ds as [|d ds IH]; intros Hin.
  - cbn [filter length]. clear. induction vals; [reflexivity | assumption].
  - assert (map (fun v => length (filter (fun x => str_eqb x v) (d :: ds))) vals
            = map (fun v => ((if str_eqb d v then 1 else 0)
                             + length (filter (fun x => str_eqb x v) ds))%nat)
                  vals) as ->.
    { apply map_ext. intros v. cbn [filter].
      destruct (str_eqb d v); reflexivity. }
    rewrite list_sum_add, IH by (intros x Hx; apply Hin; now right).
    rewrite (one_match d vals Hnd) by (apply Hin; now left). reflexivity.
Qed.

(** X28. The list of descriptions shown for selection accounts for every
    row: each description of a row is listed once, the quantities shown add
    up to the number of rows, and confirming with every box ticked keeps the
    whole collection. *)
Theorem selecao_conta_todas_as_linhas (df_sel : DataFrame) (ds : list pystr) :
  getitem df_sel DESCRICAO = Ok (map VStr ds) ->
  data df_sel <> [] ->
  exists vals qs,
    valores_unicos df_sel = Ok (map VStr vals)
    /\ NoDup vals
    /\ (forall d, In d vals <-> In d ds)
    /\ Forall2 (fun v q => qtd df_sel (VStr v) = Ok q) vals qs
    /\ list_sum qs = length (data df_sel)
    /\ confirmar_inclusao df_sel (map (fun _ => true) vals) = Ok (Some df_sel).
Proof.
  intros Hget Hdata.
  destruct (getitem_pairs df_sel DESCRICAO ds Hget) as (i & Hi & Hlen & Hp).
  destruct (series_unique_text ds) as (us & Eu & Hndu & Hinu).
  destruct (sorted_text us) as (vals & Es & Hinv & Hndv).
  assert (valores_unicos df_sel = Ok (map VStr vals)) as Hv.
  { unfold valores_unicos. rewrite Hget. cbn [bind]. now rewrite Eu. }
  exists vals,
    (map (fun v => length (filter (fun x => str_eqb x v) ds)) vals).
  split; [exact Hv|]. split; [now apply Hndv|].
  split; [intros d; now rewrite Hinv, Hinu|].
  split; [|split].
  - clear Hv Es Hinv Hndv. induction vals as [|v vals IH]; constructor; [|exact IH].
    unfold qtd. rewrite Hget. cbn [bind]. f_equal.
    clear. induction ds as [|d ds IH]; [reflexivity|].
    cbn [map filter value_eqb]. destruct (str_eqb d v); cbn [length]; now rewrite IH.
  - rewrite <- Hlen. apply counts_add_up; [now apply Hndv|].
    intros d Hd. now rewrite Hinv, Hinu.
  - unfold confirmar_inclusao. rewrite Hv. cbn [bind].
    assert (map snd (filter fst (combine (map (fun _ : pystr => true) vals)
                                         (map VStr vals)))
            = map VStr vals) as ->.
    { clear. induction vals as [|v vals IH]; [reflexivity|].
      cbn [map combine filter fst snd]. now rewrite IH. }
    destruct vals as [|v vals].
    { exfalso. destruct ds as [|d ds].
      - destruct (data df_sel); [congruence | discriminate].
      - apply (Hinv d). apply Hinu. now left. }
    cbn [map]. rewrite Hget. cbn [bind]. do 2 f_equal.
    rewrite filter_all.
    + rewrite map_snd_combine by (now rewrite length_map). now destruct df_sel.
    + intros [x r] Hin. cbn [fst]. apply in_combine_l in Hin.
      apply in_map_iff in Hin as (d & <- & Hd).
      unfold isin_values. apply existsb_exists. exists (VStr d). split.
      * rewrite <- map_cons. apply in_map. apply Hinv, Hinu. exact Hd.
      * cbn. apply str_eqb_refl.
Qed.

Lemma selecao_conta_todas_as_linhas_witness :
  let ds := [u "EMPRESTIMO"; u "Indébito (A-B)"] in
  getitem descontos_exemplo DESCRICAO = Ok (map VStr ds)
  /\ data descontos_exemplo <> []
  /\ exists vals qs,
       valores_unicos descontos_exemplo = Ok (map VStr vals)
       /\ NoDup vals
       /\ (forall d, In d vals <-> In d ds)
       /\ Forall2 (fun v q => qtd descontos_exemplo (VStr v) = Ok q) vals qs
       /\ list_sum qs = length (data descontos_exemplo)
       /\ confirmar_inclusao descontos_exemplo (map (fun _ => true) vals)
          = Ok (Some descontos_exemplo).
Proof.
  intros ds.
  assert (getitem descontos_exemplo DESCRICAO = Ok (map VStr ds)) as H1
    by (vm_compute; reflexivity).
  assert (data descontos_exemplo <> []) as H2 by discriminate.
  split; [exact H1|]. split; [exact H2|].
  exact (selecao_conta_todas_as_linhas descontos_exemplo ds H1 H2).
Defined.
